(** * Deployment orchestration engine of runpod-terminal-ui

    A shallow embedding of [src/pod_manager.py] (class [PodManager]) and of
    the parts of [src/models.py] it uses, followed by the properties of the
    cost estimator, the scale-up / scale-down coordinators, the rolling-deploy
    state machine and the history journal.

    Conventions of the embedding.
    - Python [int] is [Z]; Python [float] is the binary64 [float] of the
      kernel, so that [*], [<] and [>] are the IEEE operations the
      interpreter performs.
    - Python [str] is [string]; [str.lower] folds the ASCII letters, which is
      all the engine's one use of it (a search for an ASCII needle) can see.
    - The engine talks to the outside (Fleet API client, clock, uuid source,
      scheduler of concurrent tasks, user pressing "cancel", file system
      errors) through a record of functions over an abstract world [W].
    - Effects are a state monad with exceptions whose state survives a raised
      exception, as the Python heap does.
    - Callbacks ([on_progress], [on_state_change], [on_countdown]) are
      recorded in the trace of events and are taken not to raise. *)

From Stdlib Require Import ZArith List String Ascii Bool Lia Floats DecimalString
  Permutation Sorted.
Import ListNotations.

Local Open Scope string_scope.
Local Open Scope Z_scope.

(* ================================================================== *)
(** ** Python string helpers *)

Module PyStr.

(** [str.lower] on one ASCII character. *)
Definition lower_ascii (c : ascii) : ascii :=
  let n := nat_of_ascii c in
  if andb (Nat.leb 65 n) (Nat.leb n 90) then ascii_of_nat (n + 32) else c.

Fixpoint lower (s : string) : string :=
  match s with
  | EmptyString => EmptyString
  | String c t => String (lower_ascii c) (lower t)
  end.

(** [needle in hay]. *)
Fixpoint contains (needle hay : string) : bool :=
  if String.prefix needle hay then true
  else match hay with
       | EmptyString => false
       | String _ t => contains needle t
       end.

(** [sep.join(parts)]. *)
Definition join (sep : string) (parts : list string) : string :=
  String.concat sep parts.

(** [str(n)] for an [int]. *)
Definition str_int (n : Z) : string :=
  NilZero.string_of_int (Z.to_int n).

(** [xs[-k:]] for a list [xs] and an [int] [k]: the slice starts at
    [-k], to which [len(xs)] is added when it is negative, and is then
    clamped to [0 .. len(xs)]. In particular [xs[-0:]] is [xs[0:]]. *)
Definition slice_from_neg {A} (k : Z) (xs : list A) : list A :=
  let len := Z.of_nat (List.length xs) in
  let start := - k in
  let start := if start <? 0 then Z.max (start + len) 0 else Z.min start len in
  skipn (Z.to_nat start) xs.

(** [f.readlines()] of a file opened in text mode: the content is cut after
    every line end; universal newlines turn ["\r\n"] and a lone ["\r"] into
    ["\n"]. [cur] is the line being accumulated, reversed. *)
Definition nl : ascii := ascii_of_nat 10.
Definition cr : ascii := ascii_of_nat 13.

Definition string_of_rev (cur : list ascii) : string :=
  string_of_list_ascii (rev cur).

Fixpoint readlines_aux (s : string) (cur : list ascii) : list string :=
  match s with
  | EmptyString =>
      match cur with
      | [] => []
      | _ => [string_of_rev cur]
      end
  | String c t =>
      if Ascii.eqb c nl then string_of_rev (nl :: cur) :: readlines_aux t []
      else if Ascii.eqb c cr then
        match t with
        | String c' t' =>
            if Ascii.eqb c' nl
            then string_of_rev (nl :: cur) :: readlines_aux t' []
            else string_of_rev (nl :: cur) :: readlines_aux t []
        | EmptyString => [string_of_rev (nl :: cur)]
        end
      else readlines_aux t (c :: cur)
  end.

Definition readlines (content : string) : list string :=
  readlines_aux content [].

(** [f.writelines(lines)] on a freshly truncated file. *)
Definition writelines (lines : list string) : string :=
  String.concat "" lines.

(** The last [k] elements of a list (all of it when it has fewer). *)
Definition last_n {A} (k : nat) (xs : list A) : list A :=
  skipn (List.length xs - k) xs.

End PyStr.

(* ================================================================== *)
(** ** Data model ([src/models.py]) *)

Inductive DeployStatus :=
| PENDING | IN_PROGRESS | HEALTH_CHECK | DRAINING
| ROLLING_BACK | COMPLETED | FAILED | ROLLED_BACK.

(** [DeployStatus.X.value]. *)
Definition status_value (st : DeployStatus) : string :=
  match st with
  | PENDING => "pending"
  | IN_PROGRESS => "in_progress"
  | HEALTH_CHECK => "health_check"
  | DRAINING => "draining"
  | ROLLING_BACK => "rolling_back"
  | COMPLETED => "completed"
  | FAILED => "failed"
  | ROLLED_BACK => "rolled_back"
  end.

Record PodRuntime := {
  uptime_seconds : Z
}.

(** The fields of [Pod] the engine reads or copies. *)
Module Pod.
Record t := {
  id : string;
  name : string;
  image_name : string;
  desired_status : string;
  gpu_count : Z;
  gpu_display_name : string;
  volume_in_gb : Z;
  container_disk_in_gb : Z;
  volume_mount_path : string;
  runtime : option PodRuntime;
  env : list string;
  ports_config : string
}.
End Pod.

(** The fields of [GpuType] the cost estimator reads. *)
Module GpuType.
Record t := {
  id : string;
  display_name : string;
  secure_price : float;
  community_price : float
}.
End GpuType.

(** [DeployRecord]; [status] holds a [DeployStatus] value, and
    [duration_seconds] is kept as the exact number of microseconds of the
    [timedelta] it is computed from. *)
Record DeployRecord := {
  deploy_id : string;
  timestamp : string;
  action : string;
  status : DeployStatus;
  template_name : string;
  gpu_type : string;
  pod_count : Z;
  pod_ids : list string;
  old_image : string;
  new_image : string;
  region : string;
  error : string;
  duration_seconds : Z;
  notes : string
}.

Definition set_status (v : DeployStatus) (r : DeployRecord) : DeployRecord :=
  {| deploy_id := deploy_id r; timestamp := timestamp r; action := action r;
     status := v; template_name := template_name r; gpu_type := gpu_type r;
     pod_count := pod_count r; pod_ids := pod_ids r; old_image := old_image r;
     new_image := new_image r; region := region r; error := error r;
     duration_seconds := duration_seconds r; notes := notes r |}.

Definition set_error (v : string) (r : DeployRecord) : DeployRecord :=
  {| deploy_id := deploy_id r; timestamp := timestamp r; action := action r;
     status := status r; template_name := template_name r; gpu_type := gpu_type r;
     pod_count := pod_count r; pod_ids := pod_ids r; old_image := old_image r;
     new_image := new_image r; region := region r; error := v;
     duration_seconds := duration_seconds r; notes := notes r |}.

Definition set_pod_ids (v : list string) (r : DeployRecord) : DeployRecord :=
  {| deploy_id := deploy_id r; timestamp := timestamp r; action := action r;
     status := status r; template_name := template_name r; gpu_type := gpu_type r;
     pod_count := pod_count r; pod_ids := v; old_image := old_image r;
     new_image := new_image r; region := region r; error := error r;
     duration_seconds := duration_seconds r; notes := notes r |}.

Definition set_pod_count (v : Z) (r : DeployRecord) : DeployRecord :=
  {| deploy_id := deploy_id r; timestamp := timestamp r; action := action r;
     status := status r; template_name := template_name r; gpu_type := gpu_type r;
     pod_count := v; pod_ids := pod_ids r; old_image := old_image r;
     new_image := new_image r; region := region r; error := error r;
     duration_seconds := duration_seconds r; notes := notes r |}.

Definition set_duration_seconds (v : Z) (r : DeployRecord) : DeployRecord :=
  {| deploy_id := deploy_id r; timestamp := timestamp r; action := action r;
     status := status r; template_name := template_name r; gpu_type := gpu_type r;
     pod_count := pod_count r; pod_ids := pod_ids r; old_image := old_image r;
     new_image := new_image r; region := region r; error := error r;
     duration_seconds := v; notes := notes r |}.

(* ================================================================== *)
(** ** Exceptions *)

(** Exceptions, by the only distinction the engine's handlers make:
    [RunPodError] (with its subclasses) or any other [Exception]. *)
Inductive exn :=
| RunPodError (msg : string)
| OtherError (msg : string).

(** [str(e)]. *)
Definition str_exn (e : exn) : string :=
  match e with
  | RunPodError m => m
  | OtherError m => m
  end.

(** Outcome of a call that may raise: [inl e] when it raised [e]. *)
Definition result (A : Type) : Type := (exn + A)%type.

(* ================================================================== *)
(** ** Cost estimation ([GpuType.lowest_price], [PodManager.estimate_cost]) *)

Module Cost.

Local Open Scope float_scope.

(** [OverflowError], which is not a [RunPodError]. *)
Definition OverflowError : exn :=
  OtherError "int too large to convert to float".

(** The conversion Python applies to an [int] operand of a [float]
    product: the nearest binary64, ties to even, and [OverflowError] when
    the rounded magnitude is beyond the largest binary64 (from
    [2^1024 - 2^970] on). *)
Definition float_of_int (z : Z) : result float :=
  match binary_normalize prec emax z 0%Z false with
  | S754_infinity _ => inl OverflowError
  | x => inr (SF2Prim x)
  end.

(** [min(xs)] on a non-empty list of floats: the first element is kept
    unless a later one is strictly smaller. *)
Definition py_min (x : float) (xs : list float) : float :=
  fold_left (fun m y => if y <? m then y else m) xs x.

(** [[p for p in [community_price, secure_price] if p > 0]] and
    [min(prices) if prices else 0.0]. *)
Definition lowest_price (g : GpuType.t) : float :=
  let prices :=
    filter (fun p => 0 <? p) [GpuType.community_price g; GpuType.secure_price g] in
  match prices with
  | [] => 0
  | p :: ps => py_min p ps
  end.

Record CostEstimate := {
  per_pod_hr : float;
  total_hr : float;
  total_period : float
}.

(** [x * n] for a float [x] and an int [n]: [n] is converted first, and
    the product is not computed when the conversion raises. *)
Definition mul_int (x : float) (n : Z) : result float :=
  match float_of_int n with
  | inl e => inl e
  | inr y => inr (x * y)
  end.

Definition estimate_cost (gpu_type : GpuType.t) (gpu_count pod_count : Z)
    (cloud_type : string) (hours : float) : result CostEstimate :=
  let price :=
    if String.eqb cloud_type "COMMUNITY" then GpuType.community_price gpu_type
    else if String.eqb cloud_type "SECURE" then GpuType.secure_price gpu_type
    else lowest_price gpu_type in
  match mul_int price gpu_count with
  | inl e => inl e
  | inr per_pod_hr =>
      match mul_int per_pod_hr pod_count with
      | inl e => inl e
      | inr total_hr =>
          inr {| per_pod_hr := per_pod_hr;
                 total_hr := total_hr;
                 total_period := total_hr * hours |}
      end
  end.

(** The price of the blended tier in the words of the specification: the
    minimum of the two non-zero prices, 0 when both are zero. *)
Definition spec_lowest_nonzero (community secure : float) : float :=
  let nonzero := filter (fun p => negb (p =? 0)) [community; secure] in
  match nonzero with
  | [] => 0
  | p :: ps => py_min p ps
  end.

(** The price of the blended tier as the code computes it, by cases: the
    smaller of the two prices when both are positive, the positive one when
    only one is, 0 when neither is. *)
Definition lowest_positive (community secure : float) : float :=
  match 0 <? community, 0 <? secure with
  | true, true => if secure <? community then secure else community
  | true, false => community
  | false, true => secure
  | false, false => 0
  end.

Definition gpu_of_prices (community secure : float) : GpuType.t :=
  {| GpuType.id := "NVIDIA A40"; GpuType.display_name := "A40";
     GpuType.secure_price := secure; GpuType.community_price := community |}.

End Cost.

(* ================================================================== *)
(** ** The outside world *)

(** Keyword arguments of [RunPodClient.create_pod]. *)
Module CreateArgs.
Record t := {
  name : string;
  image_name : string;
  gpu_type_id : string;
  gpu_count : Z;
  cloud_type : string;
  volume_in_gb : Z;
  container_disk_in_gb : Z;
  ports : string;
  volume_mount_path : string;
  env : option (list string);
  template_id : option string
}.
End CreateArgs.

(** What an observer sees of a run: every client call with its outcome,
    every sleep and every callback invocation, in order. *)
Inductive Event :=
| EvCreate (args : CreateArgs.t) (r : result Pod.t)
| EvGet (pod_id : string) (r : result Pod.t)
| EvStop (pod_id : string) (r : result unit)
| EvTerminate (pod_id : string) (r : result unit)
| EvResume (pod_id : string) (gpu_count : Z) (r : result unit)
| EvSleep (seconds : Z)
| EvProgress (done total : Z)
| EvStateChange (old_pod_id state new_pod_id : string)
| EvCountdown (remaining : Z).

(** The collaborators of the engine, as functions of a world [W].
    - the five client calls answer and move the world;
    - [sleep] is [asyncio.sleep];
    - [cancel_pressed w] tells whether [cancel_deploy()] was called by
      another coroutine during the suspension that led to [w];
    - [next_done n w] tells which of [n] in-flight tasks of an
      [asyncio.gather] is resumed next;
    - [uuid4_hex8] is [uuid.uuid4().hex[:8]], [now] is
      [datetime.now(timezone.utc)] in microseconds, [isoformat] prints it;
    - [fs_error w] tells whether opening the history file raises [OSError];
    - [json_dumps] is the serialisation of [DeployRecord.to_json_line]. *)
Record Host (W : Type) := {
  create_pod : CreateArgs.t -> W -> W * result Pod.t;
  get_pod : string -> W -> W * result Pod.t;
  stop_pod : string -> W -> W * result unit;
  terminate_pod : string -> W -> W * result unit;
  resume_pod : string -> Z -> W -> W * result unit;
  sleep : Z -> W -> W;
  cancel_pressed : W -> bool;
  next_done : nat -> W -> nat;
  uuid4_hex8 : W -> W * string;
  now : W -> W * Z;
  isoformat : Z -> string;
  fs_error : W -> bool;
  json_dumps : DeployRecord -> string
}.

Arguments create_pod {W} _ _ _.
Arguments get_pod {W} _ _ _.
Arguments stop_pod {W} _ _ _.
Arguments terminate_pod {W} _ _ _.
Arguments resume_pod {W} _ _ _ _.
Arguments sleep {W} _ _ _.
Arguments cancel_pressed {W} _ _.
Arguments next_done {W} _ _ _.
Arguments uuid4_hex8 {W} _ _.
Arguments now {W} _ _.
Arguments isoformat {W} _ _.
Arguments fs_error {W} _ _.
Arguments json_dumps {W} _ _.

(** The one reference [self._active_deploy] can hold. *)
Inductive ref := RecordRef.

(** State of a [PodManager] and of the operation it runs.
    - [_deploy_cancelled], [_active_deploy]: the fields of the instance;
    - [record_cell]: the [DeployRecord] object allocated by the running
      [rolling_deploy], which [_active_deploy] aliases;
    - [completed_pairs]: the list object local to [rolling_deploy], appended
      to in the loop and read by its exception handler;
    - [history_file]: content of the file at [history_path], [None] when it
      does not exist. *)
Record St (W : Type) := {
  world : W;
  trace : list Event;
  _deploy_cancelled : bool;
  _active_deploy : option ref;
  record_cell : DeployRecord;
  completed_pairs : list (Pod.t * Pod.t);
  history_file : option string
}.

Arguments world {W} _.
Arguments trace {W} _.
Arguments _deploy_cancelled {W} _.
Arguments _active_deploy {W} _.
Arguments record_cell {W} _.
Arguments completed_pairs {W} _.
Arguments history_file {W} _.

(** Outcome of a computation. [OutOfFuel] marks a loop cut by the bound given
    to its recursion; no handler catches it. *)
Inductive Res (A : Type) :=
| Ok (a : A)
| Raise (e : exn)
| OutOfFuel.

Arguments Ok {A} _.
Arguments Raise {A} _.
Arguments OutOfFuel {A}.

Inductive flow := Continue | Break.

Section Engine.

Context {W : Type}.
Variable host : Host W.

Local Abbreviation St := (St W).

Definition M (A : Type) : Type := St -> St * Res A.

Definition ret {A} (a : A) : M A := fun s => (s, Ok a).

Definition bind {A B} (c : M A) (k : A -> M B) : M B :=
  fun s =>
    match c s with
    | (s', Ok a) => k a s'
    | (s', Raise e) => (s', Raise e)
    | (s', OutOfFuel) => (s', OutOfFuel)
    end.

Definition raise {A} (e : exn) : M A := fun s => (s, Raise e).

Definition out_of_fuel {A} : M A := fun s => (s, OutOfFuel).

Notation "x <- c ;; k" := (bind c (fun x => k))
  (at level 61, c at next level, right associativity).
Notation "c ;; k" := (bind c (fun _ => k))
  (at level 61, right associativity).

(** [try: c  except Exception as e: h e]. *)
Definition try_except {A} (c : M A) (h : exn -> M A) : M A :=
  fun s =>
    match c s with
    | (s', Raise e) => h e s'
    | other => other
    end.

(** [try: c  except RunPodError: pass]. *)
Definition pass_RunPodError (c : M unit) : M unit :=
  fun s =>
    match c s with
    | (s', Raise (RunPodError _)) => (s', Ok tt)
    | other => other
    end.

(** [if cb: ...]. *)
Definition when (b : bool) (c : M unit) : M unit :=
  if b then c else ret tt.

(** *** State access *)

Definition update (w : W) (tr : list Event) (flag : bool) (s : St) : St :=
  {| world := w; trace := tr; _deploy_cancelled := flag;
     _active_deploy := _active_deploy s; record_cell := record_cell s;
     completed_pairs := completed_pairs s; history_file := history_file s |}.

(** The coroutine is resumed in world [w] after a suspension that
    produced the events [evs]; [cancel_deploy()] may have run meanwhile. *)
Definition resumed (w : W) (evs : list Event) (s : St) : St :=
  update w (trace s ++ evs)%list
    (_deploy_cancelled s || cancel_pressed host w) s.

Definition emit (ev : Event) : M unit :=
  fun s =>
    (update (world s) (trace s ++ [ev])%list (_deploy_cancelled s) s, Ok tt).

Definition get_cancelled : M bool :=
  fun s => (s, Ok (_deploy_cancelled s)).

Definition set_cancelled (b : bool) : M unit :=
  fun s => (update (world s) (trace s) b s, Ok tt).

Definition set_active_deploy (r : option ref) : M unit :=
  fun s =>
    ({| world := world s; trace := trace s;
        _deploy_cancelled := _deploy_cancelled s;
        _active_deploy := r; record_cell := record_cell s;
        completed_pairs := completed_pairs s;
        history_file := history_file s |}, Ok tt).

Definition get_record : M DeployRecord :=
  fun s => (s, Ok (record_cell s)).

Definition modify_record (f : DeployRecord -> DeployRecord) : M unit :=
  fun s =>
    ({| world := world s; trace := trace s;
        _deploy_cancelled := _deploy_cancelled s;
        _active_deploy := _active_deploy s; record_cell := f (record_cell s);
        completed_pairs := completed_pairs s;
        history_file := history_file s |}, Ok tt).

Definition get_pairs : M (list (Pod.t * Pod.t)) :=
  fun s => (s, Ok (completed_pairs s)).

Definition set_pairs (ps : list (Pod.t * Pod.t)) : M unit :=
  fun s =>
    ({| world := world s; trace := trace s;
        _deploy_cancelled := _deploy_cancelled s;
        _active_deploy := _active_deploy s; record_cell := record_cell s;
        completed_pairs := ps;
        history_file := history_file s |}, Ok tt).

Definition set_history (f : option string) (s : St) : St :=
  {| world := world s; trace := trace s;
     _deploy_cancelled := _deploy_cancelled s;
     _active_deploy := _active_deploy s; record_cell := record_cell s;
     completed_pairs := completed_pairs s;
     history_file := f |}.

(** *** Awaited calls *)

Definition of_result {A} (r : result A) : Res A :=
  match r with
  | inl e => Raise e
  | inr a => Ok a
  end.

Definition client_create_pod (args : CreateArgs.t) : M Pod.t :=
  fun s =>
    let (w, r) := create_pod host args (world s) in
    (resumed w [EvCreate args r] s, of_result r).

Definition client_get_pod (pod_id : string) : M Pod.t :=
  fun s =>
    let (w, r) := get_pod host pod_id (world s) in
    (resumed w [EvGet pod_id r] s, of_result r).

Definition client_stop_pod (pod_id : string) : M unit :=
  fun s =>
    let (w, r) := stop_pod host pod_id (world s) in
    (resumed w [EvStop pod_id r] s, of_result r).

Definition client_terminate_pod (pod_id : string) : M unit :=
  fun s =>
    let (w, r) := terminate_pod host pod_id (world s) in
    (resumed w [EvTerminate pod_id r] s, of_result r).

Definition client_resume_pod (pod_id : string) (gpu_count : Z) : M unit :=
  fun s =>
    let (w, r) := resume_pod host pod_id gpu_count (world s) in
    (resumed w [EvResume pod_id gpu_count r] s, of_result r).

Definition asyncio_sleep (seconds : Z) : M unit :=
  fun s => (resumed (sleep host seconds (world s)) [EvSleep seconds] s, Ok tt).

Definition new_deploy_id : M string :=
  fun s =>
    let (w, d) := uuid4_hex8 host (world s) in
    (update w (trace s) (_deploy_cancelled s) s, Ok d).

Definition datetime_now : M Z :=
  fun s =>
    let (w, t) := now host (world s) in
    (update w (trace s) (_deploy_cancelled s) s, Ok t).

(** *** History *)

Definition newline : string := String PyStr.nl EmptyString.

Definition _record_deploy (record : DeployRecord) : M unit :=
  fun s =>
    if fs_error host (world s) then (s, Ok tt)
    else
      let old := match history_file s with Some c => c | None => "" end in
      (set_history (Some (old ++ json_dumps host record ++ newline)) s, Ok tt).

Definition truncate_history (keep : Z) : M unit :=
  fun s =>
    match history_file s with
    | None => (s, Ok tt)
    | Some content =>
        if fs_error host (world s) then (s, Ok tt)
        else
          let lines := PyStr.readlines content in
          if Z.of_nat (List.length lines) >? keep * 2
          then (set_history
                  (Some (PyStr.writelines (PyStr.slice_from_neg keep lines))) s,
                Ok tt)
          else (s, Ok tt)
    end.

(** *** Scale up *)

(** [f"{name_prefix}-{deploy_id}-{i}"]. *)
Definition scale_up_name (name_prefix deploy_id : string) (i : nat) : string :=
  name_prefix ++ "-" ++ deploy_id ++ "-" ++ PyStr.str_int (Z.of_nat i).

(** [f"Pod {i+1}: {e}"]. *)
Definition pod_error_line (i : nat) (e : exn) : string :=
  "Pod " ++ PyStr.str_int (Z.of_nat i + 1) ++ ": " ++ str_exn e.

(** ["no longer any instances available" in str(e).lower()]. *)
Definition is_capacity_error (e : exn) : bool :=
  PyStr.contains "no longer any instances available" (PyStr.lower (str_exn e)).

(** [f"Stopped after {len(created_pods)}/{count} — no GPUs available"]. *)
Definition stopped_note (created : nat) (count : Z) : string :=
  "Stopped after " ++ PyStr.str_int (Z.of_nat created) ++ "/"
    ++ PyStr.str_int count ++ " — no GPUs available".

(** The body of [for i in range(count)], over the indices still to visit,
    with the lists [created_pods] and [errors] built so far. *)
Fixpoint scale_up_loop (mk_args : nat -> CreateArgs.t) (count : Z)
    (on_progress : bool) (indices : list nat)
    (created_pods : list Pod.t) (errors : list string)
  : M (list Pod.t * list string) :=
  match indices with
  | [] => ret (created_pods, errors)
  | i :: rest =>
      r <- try_except
             (pod <- client_create_pod (mk_args i) ;;
              when on_progress (emit (EvProgress (Z.of_nat i + 1) count)) ;;
              ret (inr pod))
             (fun e => ret (inl e)) ;;
      match r with
      | inr pod =>
          scale_up_loop mk_args count on_progress rest
            (created_pods ++ [pod])%list errors
      | inl e =>
          let errors := (errors ++ [pod_error_line i e])%list in
          if is_capacity_error e
          then ret (created_pods,
                    (errors ++ [stopped_note (List.length created_pods) count])%list)
          else scale_up_loop mk_args count on_progress rest created_pods errors
      end
  end.

(** Keyword arguments of the [create_pod] call of index [i]. *)
Definition scale_up_args (name_prefix deploy_id image_name gpu_type_id : string)
    (gpu_count : Z) (cloud_type : string)
    (volume_in_gb container_disk_in_gb : Z) (ports volume_mount_path : string)
    (env : option (list string)) (template_id : option string) (i : nat)
  : CreateArgs.t :=
  {| CreateArgs.name := scale_up_name name_prefix deploy_id i;
     CreateArgs.image_name := image_name;
     CreateArgs.gpu_type_id := gpu_type_id;
     CreateArgs.gpu_count := gpu_count;
     CreateArgs.cloud_type := cloud_type;
     CreateArgs.volume_in_gb := volume_in_gb;
     CreateArgs.container_disk_in_gb := container_disk_in_gb;
     CreateArgs.ports := ports;
     CreateArgs.volume_mount_path := volume_mount_path;
     CreateArgs.env := env;
     CreateArgs.template_id := template_id |}.

Definition scale_up (count : Z) (name_prefix image_name gpu_type_id : string)
    (gpu_count : Z) (cloud_type : string)
    (volume_in_gb container_disk_in_gb : Z) (ports volume_mount_path : string)
    (env : option (list string)) (template_id : option string)
    (on_progress : bool) : M DeployRecord :=
  deploy_id <- new_deploy_id ;;
  start <- datetime_now ;;
  let record :=
    {| deploy_id := deploy_id; timestamp := isoformat host start;
       action := "scale_up"; status := IN_PROGRESS;
       template_name := ""; gpu_type := gpu_type_id; pod_count := count;
       pod_ids := []; old_image := ""; new_image := image_name; region := "";
       error := ""; duration_seconds := 0; notes := "" |} in
  out <- scale_up_loop
           (scale_up_args name_prefix deploy_id image_name gpu_type_id
              gpu_count cloud_type volume_in_gb container_disk_in_gb ports
              volume_mount_path env template_id)
           count on_progress (seq 0 (Z.to_nat count)) [] [] ;;
  let created_pods := fst out in
  let errors := snd out in
  let record := set_pod_ids (map Pod.id created_pods) record in
  let record := set_pod_count (Z.of_nat (List.length created_pods)) record in
  finish <- datetime_now ;;
  let record := set_duration_seconds (finish - start) record in
  let record :=
    match errors with
    | _ :: _ =>
        set_status
          (match created_pods with [] => FAILED | _ :: _ => COMPLETED end)
          (set_error (PyStr.join "; " errors) record)
    | [] => set_status COMPLETED record
    end in
  _record_deploy record ;;
  ret record.

(** *** Scale down *)

(** The coroutine [_stop_one(pod_id, index)], from the moment its client call
    is answered to its [return]. *)
Definition _stop_one (action : string) (on_progress : bool) (total : Z)
    (pod_id : string) (index : nat) : M (result string) :=
  try_except
    ((if String.eqb action "terminate"
      then client_terminate_pod pod_id
      else client_stop_pod pod_id) ;;
     when on_progress (emit (EvProgress (Z.of_nat index + 1) total)) ;;
     ret (inr pod_id))
    (fun e => ret (inl e)).

(** A task of the [gather]: its pod id and, once it has returned, its
    result. The index of a task is its position. *)
Definition task : Type := (string * option (result string))%type.

Fixpoint pending_from (i : nat) (tasks : list task) : list nat :=
  match tasks with
  | [] => []
  | (_, None) :: rest => i :: pending_from (S i) rest
  | (_, Some _) :: rest => pending_from (S i) rest
  end.

(** Indices of the tasks still in flight. *)
Definition pending (tasks : list task) : list nat := pending_from 0 tasks.

Fixpoint set_nth {A} (i : nat) (x : A) (xs : list A) : list A :=
  match xs, i with
  | [], _ => []
  | _ :: t, O => x :: t
  | h :: t, S j => h :: set_nth j x t
  end.

(** [asyncio.gather] of the tasks with [return_exceptions=True]: all are in
    flight at once; while some are, the host resumes one of them, which runs
    to its [return]. [rounds] bounds the number of resumptions by the number
    of tasks. *)
Fixpoint gather (rounds : nat) (action : string) (on_progress : bool)
    (total : Z) (tasks : list task) : M (list task) :=
  match rounds with
  | O => ret tasks
  | S rounds' =>
      match pending tasks with
      | [] => ret tasks
      | p :: ps =>
          fun s =>
            let k := Nat.modulo (next_done host (List.length (p :: ps)) (world s))
                                (List.length (p :: ps)) in
            let index := nth k (p :: ps) p in
            let pod_id := fst (nth index tasks ("", None)) in
            (r <- _stop_one action on_progress total pod_id index ;;
             gather rounds' action on_progress total
               (set_nth index (pod_id, Some r) tasks)) s
      end
  end.

(** [results], in the order of [pod_ids]. *)
Definition gather_results (tasks : list task) : list (result string) :=
  flat_map (fun t => match snd t with Some r => [r] | None => [] end) tasks.

(** [[str(r) for r in results if isinstance(r, Exception)]]. *)
Definition result_errors (results : list (result string)) : list string :=
  flat_map (fun r => match r with inl e => [str_exn e] | inr _ => [] end) results.

Definition scale_down (pod_ids : list string) (action : string)
    (on_progress : bool) : M DeployRecord :=
  deploy_id <- new_deploy_id ;;
  start <- datetime_now ;;
  let record :=
    {| deploy_id := deploy_id; timestamp := isoformat host start;
       action := "scale_down"; status := IN_PROGRESS;
       template_name := ""; gpu_type := "";
       pod_count := Z.of_nat (List.length pod_ids);
       pod_ids := pod_ids; old_image := ""; new_image := ""; region := "";
       error := ""; duration_seconds := 0; notes := "action=" ++ action |} in
  tasks <- gather (List.length pod_ids) action on_progress
             (Z.of_nat (List.length pod_ids))
             (map (fun pid => (pid, None)) pod_ids) ;;
  let results := gather_results tasks in
  let errors := result_errors results in
  finish <- datetime_now ;;
  let record := set_duration_seconds (finish - start) record in
  let record :=
    match errors with
    | _ :: _ => set_status FAILED (set_error (PyStr.join "; " errors) record)
    | [] => set_status COMPLETED record
    end in
  _record_deploy record ;;
  ret record.


(** *** Rolling deploy *)

Definition cancel_deploy : M unit := set_cancelled true.

(** [pod.desired_status == "RUNNING" and pod.runtime is not None
     and pod.runtime.uptime_seconds > 0]. *)
Definition is_healthy (pod : Pod.t) : bool :=
  String.eqb (Pod.desired_status pod) "RUNNING"
  && match Pod.runtime pod with
     | None => false
     | Some rt => uptime_seconds rt >? 0
     end.

(** The [while elapsed < timeout] loop of [_wait_for_healthy]. *)
Fixpoint wait_loop (fuel : nat) (pod_id : string) (timeout elapsed : Z)
  : M bool :=
  match fuel with
  | O => out_of_fuel
  | S fuel' =>
      if elapsed <? timeout then
        cancelled <- get_cancelled ;;
        if (cancelled : bool) then ret false
        else
          healthy <- try_except
                       (pod <- client_get_pod pod_id ;; ret (is_healthy pod))
                       (fun e => match e with
                                 | RunPodError _ => ret false
                                 | OtherError _ => raise e
                                 end) ;;
          if (healthy : bool) then ret true
          else
            asyncio_sleep 5 ;;
            wait_loop fuel' pod_id timeout (elapsed + 5)
      else ret false
  end.

(** Each iteration adds 5 to [elapsed], so [timeout] iterations and the
    final test are never exceeded. *)
Definition _wait_for_healthy (pod_id : string) (timeout : Z) : M bool :=
  wait_loop (S (Z.to_nat timeout)) pod_id timeout 0.

(** The [for old_pod, new_pod in pairs] loop of [_rollback_deploy]. *)
Fixpoint rollback_pairs (pairs : list (Pod.t * Pod.t)) : M unit :=
  match pairs with
  | [] => ret tt
  | (old_pod, new_pod) :: rest =>
      pass_RunPodError (client_terminate_pod (Pod.id new_pod)) ;;
      pass_RunPodError
        (client_resume_pod (Pod.id old_pod) (Pod.gpu_count old_pod)) ;;
      rollback_pairs rest
  end.

(** [_rollback_deploy(completed_pairs, record)]. *)
Definition _rollback_deploy : M unit :=
  modify_record (set_status ROLLING_BACK) ;;
  pairs <- get_pairs ;;
  rollback_pairs pairs.

(** The [while remaining > 0 and not self._deploy_cancelled] loop. *)
Fixpoint grace_loop (fuel : nat) (on_countdown : bool) (remaining : Z)
  : M unit :=
  match fuel with
  | O => out_of_fuel
  | S fuel' =>
      cancelled <- get_cancelled ;;
      if (remaining >? 0) && negb cancelled then
        when on_countdown (emit (EvCountdown remaining)) ;;
        asyncio_sleep (Z.min 1 remaining) ;;
        grace_loop fuel' on_countdown (remaining - 1)
      else ret tt
  end.

(** Arguments of the [create_pod] call that clones [old_pod]; [cloud_type]
    and [template_id] take the defaults of the client. *)
Definition replacement_args (deploy_id new_image : string) (old_pod : Pod.t)
  : CreateArgs.t :=
  {| CreateArgs.name := Pod.name old_pod ++ "-v2-" ++ deploy_id;
     CreateArgs.image_name := new_image;
     CreateArgs.gpu_type_id := Pod.gpu_display_name old_pod;
     CreateArgs.gpu_count := Pod.gpu_count old_pod;
     CreateArgs.cloud_type := "ALL";
     CreateArgs.volume_in_gb := Pod.volume_in_gb old_pod;
     CreateArgs.container_disk_in_gb := Pod.container_disk_in_gb old_pod;
     CreateArgs.ports :=
       (if String.eqb (Pod.ports_config old_pod) "" then "8888/http"
        else Pod.ports_config old_pod);
     CreateArgs.volume_mount_path := Pod.volume_mount_path old_pod;
     CreateArgs.env := Some (Pod.env old_pod);
     CreateArgs.template_id := None |}.

(** An iteration of [for idx, old_pod in enumerate(target_pods)] up to the
    end of the grace-period wait: the cancellation test at the top, step 1
    (create the replacement), step 2 (health check) and the countdown of
    step 3. It yields the replacement pod, or [None] when the iteration left
    the loop by one of its first three [break]s. *)
Definition iteration_head (deploy_id new_image : string)
    (health_check_timeout grace_seconds : Z)
    (on_state_change on_countdown : bool)
    (old_pod : Pod.t) : M (option Pod.t) :=
  cancelled <- get_cancelled ;;
  if (cancelled : bool) then
    _rollback_deploy ;;
    modify_record (set_status ROLLED_BACK) ;;
    modify_record (set_error "Cancelled by user") ;;
    ret None
  else
    when on_state_change
      (emit (EvStateChange (Pod.id old_pod) "CREATE_NEW" "")) ;;
    r <- try_except
           (new_pod <- client_create_pod
                         (replacement_args deploy_id new_image old_pod) ;;
            ret (inr new_pod))
           (fun e => ret (inl e)) ;;
    match r with
    | inl e =>
        when on_state_change
          (emit (EvStateChange (Pod.id old_pod) "FAILED" (str_exn e))) ;;
        _rollback_deploy ;;
        modify_record (set_status FAILED) ;;
        modify_record
          (set_error ("Failed to create replacement for " ++ Pod.id old_pod
                        ++ ": " ++ str_exn e)) ;;
        ret None
    | inr new_pod =>
        when on_state_change
          (emit (EvStateChange (Pod.id old_pod) "HEALTH_CHECK"
                   (Pod.id new_pod))) ;;
        healthy <- _wait_for_healthy (Pod.id new_pod) health_check_timeout ;;
        if negb healthy then
          when on_state_change
            (emit (EvStateChange (Pod.id old_pod) "ROLLING_BACK"
                     (Pod.id new_pod))) ;;
          pass_RunPodError (client_terminate_pod (Pod.id new_pod)) ;;
          _rollback_deploy ;;
          modify_record (set_status FAILED) ;;
          modify_record
            (set_error ("New pod " ++ Pod.id new_pod
                          ++ " failed health check")) ;;
          ret None
        else
          when on_state_change
            (emit (EvStateChange (Pod.id old_pod) "DRAINING"
                     (Pod.id new_pod))) ;;
          grace_loop (S (Z.to_nat grace_seconds)) on_countdown grace_seconds ;;
          when on_countdown (emit (EvCountdown 0)) ;;
          ret (Some new_pod)
    end.

(** The rest of the iteration: the cancellation test after the wait,
    step 4 (terminate the old pod) and the completion of the pair. *)
Definition iteration_tail (total : Z) (on_state_change on_progress : bool)
    (old_pod new_pod : Pod.t) : M flow :=
  cancelled <- get_cancelled ;;
  if (cancelled : bool) then
    pass_RunPodError (client_terminate_pod (Pod.id new_pod)) ;;
    _rollback_deploy ;;
    modify_record (set_status ROLLED_BACK) ;;
    modify_record (set_error "Cancelled by user during grace period") ;;
    ret Break
  else
    when on_state_change
      (emit (EvStateChange (Pod.id old_pod) "TERMINATE_OLD" (Pod.id new_pod))) ;;
    pass_RunPodError (client_terminate_pod (Pod.id old_pod)) ;;
    pairs <- get_pairs ;;
    set_pairs (pairs ++ [(old_pod, new_pod)])%list ;;
    when on_state_change
      (emit (EvStateChange (Pod.id old_pod) "COMPLETED" (Pod.id new_pod))) ;;
    pairs <- get_pairs ;;
    when on_progress
      (emit (EvProgress (Z.of_nat (List.length pairs)) total)) ;;
    ret Continue.

(** One iteration; [Break] when it leaves the loop by [break]. *)
Definition deploy_iteration (deploy_id new_image : string)
    (health_check_timeout grace_seconds total : Z)
    (on_state_change on_progress on_countdown : bool)
    (old_pod : Pod.t) : M flow :=
  reached <- iteration_head deploy_id new_image health_check_timeout
               grace_seconds on_state_change on_countdown old_pod ;;
  match reached with
  | None => ret Break
  | Some new_pod =>
      iteration_tail total on_state_change on_progress old_pod new_pod
  end.

(** The [for ... else] statement: the [else] branch runs when the list is
    exhausted without a [break]. *)
Fixpoint deploy_loop (deploy_id new_image : string)
    (health_check_timeout grace_seconds total : Z)
    (on_state_change on_progress on_countdown : bool)
    (targets : list Pod.t) : M unit :=
  match targets with
  | [] =>
      modify_record (set_status COMPLETED) ;;
      pairs <- get_pairs ;;
      modify_record (set_pod_ids (map (fun pr => Pod.id (snd pr)) pairs))
  | old_pod :: rest =>
      f <- deploy_iteration deploy_id new_image health_check_timeout
             grace_seconds total on_state_change on_progress on_countdown
             old_pod ;;
      match f with
      | Break => ret tt
      | Continue =>
          deploy_loop deploy_id new_image health_check_timeout grace_seconds
            total on_state_change on_progress on_countdown rest
      end
  end.

(** The statements of [rolling_deploy] before its [try]. *)
Definition deploy_begin (target_pods : list Pod.t) (new_image : string)
  : M (string * Z) :=
  deploy_id <- new_deploy_id ;;
  start <- datetime_now ;;
  set_cancelled false ;;
  modify_record (fun _ =>
    {| deploy_id := deploy_id; timestamp := isoformat host start;
       action := "rolling_deploy"; status := IN_PROGRESS;
       template_name := ""; gpu_type := "";
       pod_count := Z.of_nat (List.length target_pods);
       pod_ids := [];
       old_image := match target_pods with
                    | p :: _ => Pod.image_name p
                    | [] => ""
                    end;
       new_image := new_image; region := "";
       error := ""; duration_seconds := 0; notes := "" |}) ;;
  set_active_deploy (Some RecordRef) ;;
  set_pairs [] ;;
  ret (deploy_id, start).

(** The statements of [rolling_deploy] after its [try]. *)
Definition deploy_end (start : Z) : M DeployRecord :=
  finish <- datetime_now ;;
  modify_record (set_duration_seconds (finish - start)) ;;
  record <- get_record ;;
  _record_deploy record ;;
  set_active_deploy None ;;
  ret record.

Definition rolling_deploy (target_pods : list Pod.t) (new_image : string)
    (grace_period_minutes health_check_timeout : Z)
    (on_state_change on_progress on_countdown : bool) : M DeployRecord :=
  begun <- deploy_begin target_pods new_image ;;
  let deploy_id := fst begun in
  let start := snd begun in
  let grace_seconds := grace_period_minutes * 60 in
  try_except
    (deploy_loop deploy_id new_image health_check_timeout grace_seconds
       (Z.of_nat (List.length target_pods))
       on_state_change on_progress on_countdown target_pods)
    (fun e =>
       modify_record (set_status FAILED) ;;
       modify_record (set_error (str_exn e)) ;;
       _rollback_deploy) ;;
  deploy_end start.

(** The iterations over a prefix [targets] of the target pods: [Continue]
    when each of them completed its pair, [Break] when one left the loop. *)
Fixpoint deploy_prefix (deploy_id new_image : string)
    (health_check_timeout grace_seconds total : Z)
    (on_state_change on_progress on_countdown : bool)
    (targets : list Pod.t) : M flow :=
  match targets with
  | [] => ret Continue
  | old_pod :: rest =>
      f <- deploy_iteration deploy_id new_image health_check_timeout
             grace_seconds total on_state_change on_progress on_countdown
             old_pod ;;
      match f with
      | Break => ret Break
      | Continue =>
          deploy_prefix deploy_id new_image health_check_timeout grace_seconds
            total on_state_change on_progress on_countdown rest
      end
  end.

End Engine.

(* ================================================================== *)
(** ** Observations on traces *)

(** Pods returned by the successful [create_pod] calls of a trace. *)
Definition created_in (evs : list Event) : list Pod.t :=
  flat_map (fun ev => match ev with
                      | EvCreate _ (inr p) => [p]
                      | _ => []
                      end) evs.

(** The [create_pod] calls of a trace, with their outcomes. *)
Definition create_attempts (evs : list Event)
  : list (CreateArgs.t * result Pod.t) :=
  flat_map (fun ev => match ev with
                      | EvCreate a r => [(a, r)]
                      | _ => []
                      end) evs.

(** Exceptions raised by the [create_pod] calls of a trace. *)
Definition create_failures (evs : list Event) : list exn :=
  flat_map (fun ev => match ev with
                      | EvCreate _ (inl e) => [e]
                      | _ => []
                      end) evs.

(** The [stop_pod] and [terminate_pod] calls of a trace, with their
    outcomes. *)
Definition stop_calls (evs : list Event) : list (string * result unit) :=
  flat_map (fun ev => match ev with
                      | EvStop pid r => [(pid, r)]
                      | EvTerminate pid r => [(pid, r)]
                      | _ => []
                      end) evs.

(** The [on_progress] invocations of a trace. *)
Definition progress_calls (evs : list Event) : list (Z * Z) :=
  flat_map (fun ev => match ev with
                      | EvProgress d t => [(d, t)]
                      | _ => []
                      end) evs.

(** [touches ev pid]: the event is a client call on the pod [pid] or a
    state-change callback about the old pod [pid]. *)
Definition touches (ev : Event) (pid : string) : Prop :=
  match ev with
  | EvGet p _ => p = pid
  | EvStop p _ => p = pid
  | EvTerminate p _ => p = pid
  | EvResume p _ _ => p = pid
  | EvStateChange p _ _ => p = pid
  | _ => False
  end.

(** Events of [_rollback_deploy] over [pairs], given the outcomes of its
    calls: each pair has its new pod terminated and then its old pod resumed
    at its own GPU count. *)
Inductive rollback_events : list (Pod.t * Pod.t) -> list Event -> Prop :=
| rollback_events_nil : rollback_events [] []
| rollback_events_cons old_pod new_pod rt rr pairs evs :
    rollback_events pairs evs ->
    rollback_events ((old_pod, new_pod) :: pairs)
      (EvTerminate (Pod.id new_pod) rt
         :: EvResume (Pod.id old_pod) (Pod.gpu_count old_pod) rr :: evs).

(** Events of the poll loop on [pod_id]: polls, each but possibly the last
    followed by a sleep of 5 seconds. *)
Inductive poll_events (pod_id : string) : list Event -> Prop :=
| poll_events_nil : poll_events pod_id []
| poll_events_last r : poll_events pod_id [EvGet pod_id r]
| poll_events_step r evs :
    poll_events pod_id evs ->
    poll_events pod_id (EvGet pod_id r :: EvSleep 5 :: evs).

(** Number of polls of a trace. *)
Definition polls (evs : list Event) : nat :=
  List.length (filter (fun ev => match ev with EvGet _ _ => true | _ => false end) evs).

(** The client raises nothing but [RunPodError] from [terminate_pod] and
    [resume_pod] (its contract in the specification). *)
Definition soft_failures {W} (host : Host W) : Prop :=
  (forall pid w e, snd (terminate_pod host pid w) = inl e ->
                   exists m, e = RunPodError m)
  /\ (forall pid g w e, snd (resume_pod host pid g w) = inl e ->
                        exists m, e = RunPodError m).


(** No answer of [get_pod] shows a healthy pod, and none is an exception
    other than [RunPodError]. *)
Definition never_healthy {W} (host : Host W) : Prop :=
  forall pid w,
    match snd (get_pod host pid w) with
    | inr pod => is_healthy pod = false
    | inl (RunPodError _) => True
    | inl (OtherError _) => False
    end.

(* ================================================================== *)
(** ** Scripted hosts for concrete runs *)

Module Script.

(** The world is a clock of ticks: every client call and every sleep takes
    one tick. The answers of the client are functions of the call and of the
    tick at which it is made. *)
Definition host
    (creates : CreateArgs.t -> nat -> result Pod.t)
    (gets : string -> nat -> result Pod.t)
    (stops : string -> nat -> result unit)
    (cancel : nat -> bool)
    (order : nat -> nat -> nat) : Host nat :=
  {| create_pod := fun a w => (S w, creates a w);
     get_pod := fun pid w => (S w, gets pid w);
     stop_pod := fun pid w => (S w, stops pid w);
     terminate_pod := fun pid w => (S w, stops pid w);
     resume_pod := fun pid _ w => (S w, stops pid w);
     sleep := fun _ w => S w;
     cancel_pressed := cancel;
     next_done := order;
     uuid4_hex8 := fun w => (w, "0a1b2c3d");
     now := fun w => (w, 1000000 * Z.of_nat w);
     isoformat := PyStr.str_int;
     fs_error := fun _ => false;
     json_dumps := fun r => deploy_id r ++ " " ++ status_value (status r) |}.

Definition blank_record : DeployRecord :=
  {| deploy_id := ""; timestamp := ""; action := ""; status := PENDING;
     template_name := ""; gpu_type := ""; pod_count := 0; pod_ids := [];
     old_image := ""; new_image := ""; region := ""; error := "";
     duration_seconds := 0; notes := "" |}.

(** A manager that has run nothing yet, with no history file. *)
Definition fresh : St nat :=
  {| world := O; trace := []; _deploy_cancelled := false;
     _active_deploy := None; record_cell := blank_record;
     completed_pairs := []; history_file := None |}.

Definition pod (pid : string) (status : string) (uptime : option Z) : Pod.t :=
  {| Pod.id := pid; Pod.name := "worker-" ++ pid; Pod.image_name := "img:1";
     Pod.desired_status := status; Pod.gpu_count := 2;
     Pod.gpu_display_name := "NVIDIA A40"; Pod.volume_in_gb := 20;
     Pod.container_disk_in_gb := 20; Pod.volume_mount_path := "/workspace";
     Pod.runtime := option_map (fun u => {| uptime_seconds := u |}) uptime;
     Pod.env := []; Pod.ports_config := "" |}.

(** [create_pod] answers with a pod whose id is ["r"] and the tick. *)
Definition create_ok (_ : CreateArgs.t) (w : nat) : result Pod.t :=
  inr (pod ("r" ++ PyStr.str_int (Z.of_nat w)) "RUNNING" None).

Definition always_ok (_ : string) (_ : nat) : result unit := inr tt.

Definition first_done (_ _ : nat) : nat := O.
Definition last_done (n _ : nat) : nat := Nat.pred n.

Definition never (_ : nat) : bool := false.

(** The plainest host: every call succeeds, polls show a running pod with
    no uptime yet, nobody cancels. *)
Definition calm : Host nat :=
  host create_ok (fun pid _ => inr (pod pid "RUNNING" (Some 0))) always_ok
    never first_done.

(** Polls show the pod up for 30 seconds. *)
Definition up (pid : string) (_ : nat) : result Pod.t :=
  inr (pod pid "RUNNING" (Some 30)).

(** Every call succeeds, polls show a healthy pod, and the user presses
    "cancel" during the suspension that ends at tick [tick]. *)
Definition cancelling (tick : nat) : Host nat :=
  host create_ok up always_ok (Nat.eqb tick) first_done.

Definition three_pods : list Pod.t :=
  [pod "p1" "RUNNING" (Some 120); pod "p2" "RUNNING" (Some 120);
   pod "p3" "RUNNING" (Some 120)].

(** The message of the provider when it has no GPU left. *)
Definition no_capacity : exn :=
  RunPodError
    "There are no longer any instances available with the requested specifications.".

(** [create_pod] fails at tick [tick] with the exception [e], and succeeds
    otherwise. *)
Definition create_but (tick : nat) (e : exn) (a : CreateArgs.t) (w : nat)
  : result Pod.t :=
  if Nat.eqb w tick then inl e else create_ok a w.

(** [create_pod] always fails with [e]. *)
Definition create_never (e : exn) (_ : CreateArgs.t) (_ : nat)
  : result Pod.t := inl e.

(** A manager whose history file holds [content]. *)
Definition with_history (content : string) : St nat :=
  {| world := O; trace := []; _deploy_cancelled := false;
     _active_deploy := None; record_cell := blank_record;
     completed_pairs := []; history_file := Some content |}.

End Script.

(* ================================================================== *)
(** ** Relations between states *)

Section StateRelations.

Context {W : Type}.
Variable host : Host W.

(** [advances s s' evs]: from [s] to [s'] the trace grew by [evs], the record
    under construction, the completed pairs, the history file and the
    active-deploy slot are untouched, and a cancellation request, once made,
    stays. *)
Definition advances (s s' : St W) (evs : list Event) : Prop :=
  trace s' = (trace s ++ evs)%list
  /\ record_cell s' = record_cell s
  /\ completed_pairs s' = completed_pairs s
  /\ history_file s' = history_file s
  /\ _active_deploy s' = _active_deploy s
  /\ (_deploy_cancelled s = true -> _deploy_cancelled s' = true).

(** Events that concern no pod: sleeps and countdown callbacks. *)
Definition idle (ev : Event) : Prop :=
  match ev with
  | EvSleep _ => True
  | EvCountdown _ => True
  | _ => False
  end.

(** [moves f s s' evs]: as [advances], but the record under construction
    went through [f]. *)
Definition moves (f : DeployRecord -> DeployRecord) (s s' : St W)
    (evs : list Event) : Prop :=
  trace s' = (trace s ++ evs)%list
  /\ record_cell s' = f (record_cell s)
  /\ completed_pairs s' = completed_pairs s
  /\ history_file s' = history_file s
  /\ _active_deploy s' = _active_deploy s
  /\ (_deploy_cancelled s = true -> _deploy_cancelled s' = true).

(** The record [rolling_deploy] allocates. *)
Definition initial_record (deploy_id : string) (start : Z)
    (target_pods : list Pod.t) (new_image : string) : DeployRecord :=
  {| deploy_id := deploy_id; timestamp := isoformat host start;
     action := "rolling_deploy"; status := IN_PROGRESS;
     template_name := ""; gpu_type := "";
     pod_count := Z.of_nat (List.length target_pods);
     pod_ids := [];
     old_image := match target_pods with
                  | p :: _ => Pod.image_name p
                  | [] => ""
                  end;
     new_image := new_image; region := "";
     error := ""; duration_seconds := 0; notes := "" |}.

(** The line [_record_deploy] appends for [record]. *)
Definition journal_line (record : DeployRecord) : string :=
  json_dumps host record ++ newline.

(** The error text of a failed health check. *)
Definition health_error (new_pod : Pod.t) : string :=
  "New pod " ++ Pod.id new_pod ++ " failed health check".

End StateRelations.

(** Splits a goal along its conjunctions, as they are written. *)
Ltac conjs := repeat match goal with |- _ /\ _ => split end.

(* ================================================================== *)
(** ** Pods touched by a trace *)

(** Events that touch no pod but [a] or [b]. *)
Definition about (a b : string) (ev : Event) : Prop :=
  forall pid, touches ev pid -> pid = a \/ pid = b.

(** Events that touch no pod but those named in [ids]. *)
Definition within (ids : list string) (ev : Event) : Prop :=
  forall pid, touches ev pid -> In pid ids.

(** [untouched targets known evs]: no event of [evs] touches a pod of
    [targets], unless its id is one of [known]. *)
Definition untouched (targets : list Pod.t) (known : list string)
    (evs : list Event) : Prop :=
  forall q, In q targets -> ~ In (Pod.id q) known ->
            forall ev, In ev evs -> ~ touches ev (Pod.id q).

(** The texts of the two cancellation notes. *)
Definition cancelled_at_top : string := "Cancelled by user".
Definition cancelled_in_grace : string := "Cancelled by user during grace period".

(* ================================================================== *)
(** ** Attempts of a scale-up *)

(** Pods obtained by a list of [create_pod] attempts. *)
Definition successes (attempts : list (CreateArgs.t * result Pod.t))
  : list Pod.t :=
  flat_map (fun ar => match snd ar with
                      | inr p => [p]
                      | inl _ => []
                      end) attempts.

(** What a list of attempts adds to [errors], the first attempt being the
    one of index [i] and [created] pods having been created before it: the
    line of each failed attempt, followed by the "Stopped after" note when
    the failure tells that capacity is exhausted. *)
Fixpoint error_lines (count : Z) (i created : nat)
    (attempts : list (CreateArgs.t * result Pod.t)) : list string :=
  match attempts with
  | [] => []
  | (_, inr _) :: rest => error_lines count (S i) (S created) rest
  | (_, inl e) :: rest =>
      (pod_error_line i e
         :: (if is_capacity_error e then [stopped_note created count] else [])
         ++ error_lines count (S i) created rest)%list
  end.

(** [attempts_shape mk_args i n attempts]: the attempts are those of a loop
    over the [n] indices from [i] on, each made with the arguments of its
    index, which goes to the next index after a success or a failure that is
    not about capacity, and ends with the first failure about capacity. *)
Inductive attempts_shape (mk_args : nat -> CreateArgs.t)
  : nat -> nat -> list (CreateArgs.t * result Pod.t) -> Prop :=
| shape_done i : attempts_shape mk_args i 0 []
| shape_created i n p rest :
    attempts_shape mk_args (S i) n rest ->
    attempts_shape mk_args i (S n) ((mk_args i, inr p) :: rest)
| shape_failed i n e rest :
    is_capacity_error e = false ->
    attempts_shape mk_args (S i) n rest ->
    attempts_shape mk_args i (S n) ((mk_args i, inl e) :: rest)
| shape_stopped i n e :
    is_capacity_error e = true ->
    attempts_shape mk_args i (S n) [(mk_args i, inl e)].

(* ================================================================== *)
(** ** Tasks of a scale-down *)

(** Whether a task is still in flight. *)
Definition in_flight (t : task) : bool :=
  match snd t with
  | None => true
  | Some _ => false
  end.

(** Number of tasks in flight. *)
Definition npending (tasks : list task) : nat :=
  List.length (filter in_flight tasks).

(** What [_stop_one] returns for a pod whose client call had outcome [r]. *)
Definition task_result (pod_id : string) (r : result unit) : result string :=
  match r with
  | inl e => inl e
  | inr _ => inr pod_id
  end.

(** The outcome of the client call behind the result of a task. *)
Definition call_outcome (r : result string) : result unit :=
  match r with
  | inl e => inl e
  | inr _ => inr tt
  end.

(** The client calls of the tasks that have returned, in the order of the
    tasks. *)
Definition done_calls (tasks : list task) : list (string * result unit) :=
  flat_map (fun t => match snd t with
                     | Some r => [(fst t, call_outcome r)]
                     | None => []
                     end) tasks.

(** [str(e)] for the outcomes that are exceptions. *)
Definition failure_messages (outcomes : list (result unit)) : list string :=
  flat_map (fun r => match r with
                     | inl e => [str_exn e]
                     | inr _ => []
                     end) outcomes.

(** The events of one task resumed with the outcome [r] of its call. *)
Definition task_events (action : string) (on_progress : bool) (total : Z)
    (pod_id : string) (index : nat) (r : result unit) : list Event :=
  ((if String.eqb action "terminate"
    then EvTerminate pod_id r else EvStop pod_id r)
     :: match r with
        | inr _ => if on_progress
                   then [EvProgress (Z.of_nat index + 1) total] else []
        | inl _ => []
        end)%list.

(* ================================================================== *)
(** ** More of the Python library *)

Module Text.

(** [c.isspace()] for an ASCII character: tab, line feed, vertical tab, form
    feed, carriage return, the four separators 28 to 31, and space. *)
Definition is_space (c : ascii) : bool :=
  let n := nat_of_ascii c in
  (Nat.leb 9 n && Nat.leb n 13) || (Nat.leb 28 n && Nat.leb n 32).

(** [s.lstrip()]. *)
Fixpoint lstrip (s : string) : string :=
  match s with
  | EmptyString => EmptyString
  | String c t => if is_space c then lstrip t else s
  end.

(** [s.rstrip()]: a character is kept when it is not a space or when
    something is kept after it. *)
Fixpoint rstrip (s : string) : string :=
  match s with
  | EmptyString => EmptyString
  | String c t =>
      match rstrip t with
      | EmptyString => if is_space c then EmptyString else String c EmptyString
      | kept => String c kept
      end
  end.

(** [s.strip()], on the ASCII white space (the lines the engine writes are
    ASCII, [json.dumps] escaping everything else). *)
Definition strip (s : string) : string := rstrip (lstrip s).

(** [s.split(sep, 1)] for a one-character [sep] that occurs in [s]: what is
    before the first [sep] and what is after it; [None] when [sep] does not
    occur (the split then returns [s] alone). *)
Fixpoint split_once (sep : ascii) (s : string) : option (string * string) :=
  match s with
  | EmptyString => None
  | String c t =>
      if Ascii.eqb c sep then Some (EmptyString, t)
      else match split_once sep t with
           | Some (before, after) => Some (String c before, after)
           | None => None
           end
  end.

(** [xs[:k]] for a list [xs] and an [int] [k]: a negative [k] counts from
    the end, and the bound is clamped to [0 .. len(xs)]. *)
Definition slice_to {A} (k : Z) (xs : list A) : list A :=
  let len := Z.of_nat (List.length xs) in
  let stop := if k <? 0 then Z.max (k + len) 0 else Z.min k len in
  firstn (Z.to_nat stop) xs.

End Text.

(* ================================================================== *)
(** ** Display properties of [Pod] ([src/models.py]) *)

(** [Pod.status_color]; an instance of [PodRuntime] is always true as a
    condition, so [self.runtime and ...] tests [self.runtime is not None]. *)
Definition status_color (pod : Pod.t) : string :=
  if String.eqb (Pod.desired_status pod) "RUNNING"
     && match Pod.runtime pod with
        | Some rt => uptime_seconds rt >? 0
        | None => false
        end
  then "green"
  else if String.eqb (Pod.desired_status pod) "RUNNING" then "yellow"
  else if String.eqb (Pod.desired_status pod) "EXITED"
          || String.eqb (Pod.desired_status pod) "STOPPED"
  then "red"
  else "dim".

(** [Pod.uptime_display]; [divmod] is the floor division of [Z]. *)
Definition uptime_display (pod : Pod.t) : string :=
  match Pod.runtime pod with
  | None => "--"
  | Some rt =>
      if uptime_seconds rt =? 0 then "--"
      else
        let secs := uptime_seconds rt in
        let hours := secs / 3600 in
        let remainder := secs mod 3600 in
        let minutes := remainder / 60 in
        if hours >? 0
        then PyStr.str_int hours ++ "h " ++ PyStr.str_int minutes ++ "m"
        else PyStr.str_int minutes ++ "m"
  end.

(* ================================================================== *)
(** ** Environment variables of [create_pod] ([src/runpod_client.py]) *)

Definition equals_sign : ascii := ascii_of_nat 61.

(** The [EnvironmentVariableInput] that [RunPodClient.create_pod] builds
    from one item ["KEY=VALUE"], as its (key, value). *)
Definition env_input (item : string) : string * string :=
  match Text.split_once equals_sign item with
  | Some (key, value) => (key, value)
  | None => (item, "")
  end.

(** The ["env"] entry of the request: absent when [env] is [None] or
    empty. *)
Definition env_inputs (env : option (list string))
  : option (list (string * string)) :=
  match env with
  | None => None
  | Some [] => None
  | Some (item :: items) => Some (map env_input (item :: items))
  end.

(** [[f"{k}={v}" for k, v in t.env.items()]], by which the scale screen
    turns the environment of a template into the [env] argument. *)
Definition env_items (pairs : list (string * string)) : list string :=
  map (fun kv => fst kv ++ "=" ++ snd kv) pairs.

(* ================================================================== *)
(** ** Lines of a text file *)

(** Characters other than line ends. *)
Definition clean (body : list ascii) : Prop :=
  Forall (fun c => c <> PyStr.nl /\ c <> PyStr.cr) body.

(** The shape of what [readlines] returns: lines ended by a line feed, the
    last of which may lack it. *)
Inductive lines_ok : list string -> Prop :=
| lines_ok_nil : lines_ok []
| lines_ok_last c body :
    clean (c :: body) ->
    lines_ok [string_of_list_ascii (c :: body)]
| lines_ok_cons body rest :
    clean body -> lines_ok rest ->
    lines_ok (string_of_list_ascii (body ++ [PyStr.nl]) :: rest).


(* ================================================================== *)
(** ** Reading the history ([PodManager.load_history]) *)

(** What [DeployRecord.from_dict(json.loads(line))] does of a line: a
    record, a [json.JSONDecodeError], or another exception (as when the line
    is JSON but not an object). *)
Inductive decoded :=
| Decoded (r : DeployRecord)
| Malformed
| DecodeFails (e : exn).

Section History.

Context {W : Type}.
Variable host : Host W.

(** The decoder of the library, applied to stripped lines. *)
Variable decode : string -> decoded.

(** The loop [for line in f] over the lines left, with the list [records]
    built so far; [inl e] when an exception escapes it. *)
Fixpoint load_lines (lines : list string) (records : list DeployRecord)
  : exn + list DeployRecord :=
  match lines with
  | [] => inr records
  | line :: rest =>
      let line := Text.strip line in
      if String.eqb line "" then load_lines rest records
      else match decode line with
           | Decoded r => load_lines rest (records ++ [r])%list
           | Malformed => load_lines rest records
           | DecodeFails e => inl e
           end
  end.

Definition load_history (limit : Z) : St W -> St W * Res (list DeployRecord) :=
  fun s =>
    match history_file s with
    | None => (s, Ok [])
    | Some content =>
        if fs_error host (world s) then (s, Ok [])
        else match load_lines (PyStr.readlines content) [] with
             | inl e => (s, Raise e)
             | inr records => (s, Ok (Text.slice_to limit (rev records)))
             end
    end.

(** The records of the lines that are neither blank nor malformed, in the
    order of the lines. *)
Definition kept_records (lines : list string) : list DeployRecord :=
  flat_map (fun line =>
              if String.eqb (Text.strip line) "" then []
              else match decode (Text.strip line) with
                   | Decoded r => [r]
                   | _ => []
                   end) lines.

(** The line of a record, as the library writes and reads it: one line of
    text, not blank, without white space around it, that decodes to the
    record. *)
Definition faithful_line (record : DeployRecord) : Prop :=
  clean (list_ascii_of_string (json_dumps host record))
  /\ Text.strip (json_dumps host record ++ newline) = json_dumps host record
  /\ json_dumps host record <> ""
  /\ decode (json_dumps host record) = Decoded record.

End History.


(** A decoder for examples, for the lines of [Script.host]: the line of
    [sample_record] is a record, a line that starts a JSON array makes
    [from_dict] fail, and any other line is not JSON. *)
Definition sample_record : DeployRecord :=
  {| deploy_id := "0a1b2c3d"; timestamp := "0"; action := "scale_up";
     status := COMPLETED; template_name := ""; gpu_type := "NVIDIA A40";
     pod_count := 1; pod_ids := ["r0"]; old_image := ""; new_image := "img:2";
     region := ""; error := ""; duration_seconds := 0; notes := "" |}.

Definition sample_decode (line : string) : decoded :=
  if String.eqb line "0a1b2c3d completed" then Decoded sample_record
  else if String.prefix "[" line
       then DecodeFails (OtherError "'list' object has no attribute 'get'")
       else Malformed.

(* ================================================================== *)
(** ** Progress reports *)

(** The [on_progress] calls of a scale-up, by its attempts, the first of
    which has index [i]: one call per pod created, with the index of its
    attempt plus one. *)
Fixpoint progress_of (count : Z) (i : nat)
    (attempts : list (CreateArgs.t * result Pod.t)) : list (Z * Z) :=
  match attempts with
  | [] => []
  | (_, inr _) :: rest => (Z.of_nat i + 1, count) :: progress_of count (S i) rest
  | (_, inl _) :: rest => progress_of count (S i) rest
  end.

(** The numbers [first + 1 .. first + n], each with [total]. *)
Definition counting (total : Z) (first n : nat) : list (Z * Z) :=
  map (fun k => (Z.of_nat k + 1, total)) (seq first n).

(** What [_record_deploy] leaves in the history file for [record], when
    the file held [before]. *)
Definition journaled {W} (host : Host W) (before : option string)
    (record : DeployRecord) : option string :=
  Some (match before with Some c => c | None => "" end
        ++ json_dumps host record ++ newline).

(** The [on_progress] calls of a scale-down whose client calls had the
    [outcomes], in the order of the pod ids, the first of which has index
    [i]: one call per call that did not fail, with its index plus one. *)
Fixpoint success_positions (total : Z) (i : nat) (outcomes : list (result unit))
  : list (Z * Z) :=
  match outcomes with
  | [] => []
  | inr _ :: rest => (Z.of_nat i + 1, total) :: success_positions total (S i) rest
  | inl _ :: rest => success_positions total (S i) rest
  end.

(** The same for the tasks of a [gather] that have returned. *)
Fixpoint done_progress (total : Z) (i : nat) (tasks : list task)
  : list (Z * Z) :=
  match tasks with
  | [] => []
  | (_, Some (inr _)) :: rest =>
      (Z.of_nat i + 1, total) :: done_progress total (S i) rest
  | _ :: rest => done_progress total (S i) rest
  end.

(** The events of a scale-down of [requested] whose calls return in the
    order [returned], a list of positions in the request (counted from 0),
    each with the outcome of its call: every call is followed at once by
    its report, when there is one. *)
Definition completion_events (action : string) (on_progress : bool)
    (requested : list string) (returned : list (nat * result unit))
  : list Event :=
  flat_map (fun ir => task_events action on_progress
                        (Z.of_nat (List.length requested))
                        (nth (fst ir) requested "") (fst ir) (snd ir))
    returned.

(** The calls of these events, and their reports when a callback is
    given: both in the order [returned]. *)
Definition completion_calls (requested : list string)
    (returned : list (nat * result unit)) : list (string * result unit) :=
  map (fun ir => (nth (fst ir) requested "", snd ir)) returned.

Definition completion_reports (total : Z)
    (returned : list (nat * result unit)) : list (Z * Z) :=
  flat_map (fun ir => match snd ir with
                      | inr _ => [(Z.of_nat (fst ir) + 1, total)]
                      | inl _ => []
                      end) returned.

(* ================================================================== *)
(** ** A rolling deploy without incident *)

(** Nobody calls [cancel_deploy()]. *)
Definition never_cancelled {W} (host : Host W) : Prop :=
  forall w, cancel_pressed host w = false.




(** The events of a callback that may be absent. *)
Definition say (b : bool) (ev : Event) : list Event :=
  if b then [ev] else [].





(** A host for examples on which a deploy meets no incident: every call
    succeeds, every poll shows a pod up for 30 seconds, nobody cancels. *)
Definition steady : Host nat :=
  Script.host Script.create_ok Script.up Script.always_ok Script.never
    Script.first_done.

(** The events of [rolling_deploy] from the top of an iteration to the
    start of the health check of the replacement [new_pod]. *)
Definition creation_events (deploy_id new_image : string)
    (on_state_change : bool) (old_pod new_pod : Pod.t) : list Event :=
  (say on_state_change (EvStateChange (Pod.id old_pod) "CREATE_NEW" "")
     ++ [EvCreate (replacement_args deploy_id new_image old_pod) (inr new_pod)]
     ++ say on_state_change
          (EvStateChange (Pod.id old_pod) "HEALTH_CHECK" (Pod.id new_pod)))%list.

(** The error text of a failed creation. *)
Definition creation_error (old_pod : Pod.t) (e : exn) : string :=
  "Failed to create replacement for " ++ Pod.id old_pod ++ ": " ++ str_exn e.

(** Hosts for examples: polls that never show an uptime, with a
    cancellation during the suspension that ends at tick [tick]; polls that
    raise an exception that is no [RunPodError]. *)
Definition starting (pid : string) (_ : nat) : result Pod.t :=
  inr (Script.pod pid "RUNNING" (Some 0)).

Definition impatient (tick : nat) : Host nat :=
  Script.host Script.create_ok starting Script.always_ok (Nat.eqb tick)
    Script.first_done.

Definition broken_polls : Host nat :=
  Script.host Script.create_ok
    (fun _ _ => inl (OtherError "'NoneType' object has no attribute 'get'"))
    Script.always_ok Script.never Script.first_done.

(** An exception of the HTTP layer, which [RunPodClient._gql] lets through
    ([resp.raise_for_status()]); it is no [RunPodError]. *)
Definition bad_gateway : exn :=
  OtherError "Server error '502 Bad Gateway' for url 'https://api.runpod.io/graphql'".


(** [terminate_pod] and [resume_pod] raise [bad_gateway] on the pod [pid]
    from the tick [from] on, and succeed otherwise. *)
Definition fails_on (pid : string) (from : nat) (p : string) (w : nat)
  : result unit :=
  if String.eqb p pid && Nat.leb from w then inl bad_gateway else inr tt.

(** [Script.cancelling tick] with these failures. *)
Definition cancelling_but (pid : string) (from tick : nat) : Host nat :=
  Script.host Script.create_ok Script.up (fails_on pid from) (Nat.eqb tick)
    Script.first_done.

(* ================================================================== *)
(** ** Outcomes of a rolling deploy *)

(** [carries s s']: from [s] to [s'] the trace grew, and the history file
    and the active-deploy slot are as they were. *)
Definition carries {W} (s s' : St W) : Prop :=
  (exists evs, trace s' = (trace s ++ evs)%list)
  /\ history_file s' = history_file s
  /\ _active_deploy s' = _active_deploy s.

(** How an iteration of [rolling_deploy] leaves the loop by [break]: the
    status and the error it sets. *)
Inductive leaves : DeployStatus -> string -> Prop :=
| leaves_cancelled : leaves ROLLED_BACK cancelled_at_top
| leaves_uncreated old_pod e : leaves FAILED (creation_error old_pod e)
| leaves_unhealthy new_pod : leaves FAILED (health_error new_pod)
| leaves_cancelled_in_grace : leaves ROLLED_BACK cancelled_in_grace.

(** The record after a [break] with status [st] and error [err]. *)
Definition broken_off (st : DeployStatus) (err : string) (r : DeployRecord)
  : DeployRecord :=
  set_error err (set_status st (set_status ROLLING_BACK r)).

(* ================================================================== *)
(** ** The protocol of a rolling deploy *)

(** Events that are no client call on a pod still to be protected:
    sleeps, callbacks and resumptions. *)
Definition harmless (ev : Event) : Prop :=
  match ev with
  | EvSleep _ => True
  | EvProgress _ _ => True
  | EvStateChange _ _ _ => True
  | EvCountdown _ => True
  | EvResume _ _ _ => True
  | _ => False
  end.

(** What a reader of the trace of a rolling deploy keeps in mind: the
    targets for which no replacement was requested yet, the target whose
    replacement was requested last, the ids of the replacements created so
    far (the most recent first), and whether the most recent replacement
    was shown healthy by the last poll, no pod having been created or
    terminated since. *)
Record watch := {
  w_remaining : list Pod.t;
  w_current : option Pod.t;
  w_created : list string;
  w_cleared : bool
}.

Definition watch0 (target_pods : list Pod.t) : watch :=
  {| w_remaining := target_pods; w_current := None; w_created := [];
     w_cleared := false |}.

(** What the reader expects of the next event:
    - a [create_pod] is the request of the replacement of the next target;
    - a poll is on the most recent replacement;
    - a [terminate_pod] is on a replacement created by this deploy, or on
      the current target once its replacement was shown healthy;
    - no pod is stopped. *)
Definition allowed (deploy_id new_image : string) (st : watch) (ev : Event)
  : Prop :=
  match ev with
  | EvCreate args _ =>
      match w_remaining st with
      | old_pod :: _ => args = replacement_args deploy_id new_image old_pod
      | [] => False
      end
  | EvGet pid _ => hd_error (w_created st) = Some pid
  | EvTerminate pid _ =>
      In pid (w_created st)
      \/ (w_cleared st = true
          /\ exists old_pod, w_current st = Some old_pod
                             /\ pid = Pod.id old_pod)
  | EvStop _ _ => False
  | _ => True
  end.

Definition step (st : watch) (ev : Event) : watch :=
  match ev with
  | EvCreate _ r =>
      {| w_remaining := tl (w_remaining st);
         w_current := hd_error (w_remaining st);
         w_created := match r with
                      | inr pod => Pod.id pod :: w_created st
                      | inl _ => w_created st
                      end;
         w_cleared := false |}
  | EvGet _ r =>
      {| w_remaining := w_remaining st; w_current := w_current st;
         w_created := w_created st;
         w_cleared := match r with
                      | inr seen => is_healthy seen
                      | inl _ => false
                      end |}
  | EvTerminate _ _ =>
      {| w_remaining := w_remaining st; w_current := w_current st;
         w_created := w_created st; w_cleared := false |}
  | _ => st
  end.

(** The trace [evs] follows the protocol from the state [st] on. *)
Fixpoint guarded (deploy_id new_image : string) (st : watch)
    (evs : list Event) : Prop :=
  match evs with
  | [] => True
  | ev :: rest =>
      allowed deploy_id new_image st ev
      /\ guarded deploy_id new_image (step st ev) rest
  end.

(** The state of the reader after [evs]. *)
Definition after (st : watch) (evs : list Event) : watch :=
  fold_left step evs st.

(** The replacements of the completed pairs are known to the reader. *)
Definition paired {W} (s : St W) (st : watch) : Prop :=
  forall pr, In pr (completed_pairs s) -> In (Pod.id (snd pr)) (w_created st).

(** The reader's state with another answer to "was the most recent
    replacement just shown healthy". *)
Definition with_cleared (b : bool) (st : watch) : watch :=
  {| w_remaining := w_remaining st; w_current := w_current st;
     w_created := w_created st; w_cleared := b |}.

(** [reads deploy_id new_image st evs st']: the trace [evs] follows the
    protocol from [st] on, and leaves the reader in [st']. *)
Definition reads (deploy_id new_image : string) (st : watch)
    (evs : list Event) (st' : watch) : Prop :=
  guarded deploy_id new_image st evs /\ after st evs = st'.

(* ================================================================== *)
(** ** Errors of the API ([RunPodAPIError], [src/runpod_client.py]) *)

(** An error object of a GraphQL answer, by what [RunPodAPIError] reads of
    it: its ["message"], when it has one, and its [str]. *)
Record api_error := {
  api_message : option string;
  api_str : string
}.

(** [e.get("message", str(e))]. *)
Definition error_message (e : api_error) : string :=
  match api_message e with
  | Some m => m
  | None => api_str e
  end.

(** [RunPodAPIError(errors)]: built from a list of error objects, its text
    is their messages joined by ["; "]; built from a string, the string. *)
Definition RunPodAPIError (errors : list api_error + string) : exn :=
  match errors with
  | inl objects => RunPodError (PyStr.join "; " (map error_message objects))
  | inr message => RunPodError message
  end.

(** The text by which [scale_up] recognises that no GPU is left. *)
Definition capacity_text : string := "no longer any instances available".

(** [c] does not occur in [s]. *)
Definition lacks (c : ascii) (s : string) : Prop :=
  ~ In c (list_ascii_of_string s).

(* ================================================================== *)
(** ** The cost widget ([CostDisplay], [src/ui/widgets/cost_display.py]) *)

Module CostDisplay.

Local Open Scope float_scope.

(** The reactive attributes of the widget. *)
Record t := {
  gpu_price : float;
  gpu_count : Z;
  pod_count : Z
}.

(** [update_from_gpu(gpu_type, cloud_type)]. *)
Definition update_from_gpu (self : t) (gpu_type : option GpuType.t)
    (cloud_type : string) : t :=
  {| gpu_price :=
       match gpu_type with
       | None => 0
       | Some g =>
           if String.eqb cloud_type "COMMUNITY" then GpuType.community_price g
           else if String.eqb cloud_type "SECURE" then GpuType.secure_price g
           else Cost.lowest_price g
       end;
     gpu_count := gpu_count self;
     pod_count := pod_count self |}.

(** The three amounts that [render] prints (per pod and hour, per hour,
    per day), or [None] when it prints the invitation to select a GPU
    type instead; the products by the int counts, and by the int 24, raise
    as those of [estimate_cost] do. *)
Definition render_amounts (self : t) : result (option (float * float * float)) :=
  if gpu_price self <=? 0 then inr None
  else
    match Cost.mul_int (gpu_price self) (gpu_count self) with
    | inl e => inl e
    | inr per_pod =>
        match Cost.mul_int per_pod (pod_count self) with
        | inl e => inl e
        | inr total =>
            match Cost.mul_int total 24 with
            | inl e => inl e
            | inr day => inr (Some (per_pod, total, day))
            end
        end
    end.

End CostDisplay.

(* ================================================================== *)
(** ** Preferences of a template ([src/config.py]) *)

Module TemplatePrefs.
Record t := {
  gpu_preferences : list string;
  last_region : string;
  last_gpu_count : Z;
  last_pod_count : Z;
  last_cloud_type : string
}.

(** [TemplatePrefs()]. *)
Definition default : t :=
  {| gpu_preferences := []; last_region := ""; last_gpu_count := 1;
     last_pod_count := 1; last_cloud_type := "ALL" |}.
End TemplatePrefs.

Module Preferences.

(** The dict [template_prefs]: its items, in the order of insertion. *)
Definition dict : Type := list (string * TemplatePrefs.t).

(** [d[k]], when [k in d]. *)
Fixpoint lookup (k : string) (d : dict) : option TemplatePrefs.t :=
  match d with
  | [] => None
  | (k', v) :: rest => if String.eqb k k' then Some v else lookup k rest
  end.

(** [d[k] = v]: the value of an existing key is replaced where it is, a
    new key is added at the end. *)
Fixpoint store (k : string) (v : TemplatePrefs.t) (d : dict) : dict :=
  match d with
  | [] => [(k, v)]
  | (k', v') :: rest =>
      if String.eqb k k' then (k, v) :: rest else (k', v') :: store k v rest
  end.

(** [l.remove(x)] for an [x] that is in [l]: its first occurrence goes. *)
Fixpoint remove_first (x : string) (l : list string) : list string :=
  match l with
  | [] => []
  | y :: rest => if String.eqb x y then rest else y :: remove_first x rest
  end.

(** [get_template_prefs(template_id)]: the dict, where a missing entry was
    created, and the entry. *)
Definition get_template_prefs (template_id : string) (template_prefs : dict)
  : dict * TemplatePrefs.t :=
  match lookup template_id template_prefs with
  | Some tp => (template_prefs, tp)
  | None =>
      (store template_id TemplatePrefs.default template_prefs,
       TemplatePrefs.default)
  end.

(** [update_template_prefs(...)], on the dict it mutates; the entry [tp]
    is the object held by the dict, so that its changes are stored. *)
Definition update_template_prefs (template_id gpu_type_id region : string)
    (gpu_count pod_count : Z) (cloud_type : string) (template_prefs : dict)
  : dict :=
  let (d, tp) := get_template_prefs template_id template_prefs in
  let prefs := TemplatePrefs.gpu_preferences tp in
  let prefs :=
    if String.eqb gpu_type_id "" then prefs
    else
      gpu_type_id
        :: (if existsb (String.eqb gpu_type_id) prefs
            then remove_first gpu_type_id prefs else prefs) in
  store template_id
    {| TemplatePrefs.gpu_preferences := prefs;
       TemplatePrefs.last_region :=
         if String.eqb region "" then TemplatePrefs.last_region tp
         else region;
       TemplatePrefs.last_gpu_count :=
         if gpu_count >? 0 then gpu_count
         else TemplatePrefs.last_gpu_count tp;
       TemplatePrefs.last_pod_count :=
         if pod_count >? 0 then pod_count
         else TemplatePrefs.last_pod_count tp;
       TemplatePrefs.last_cloud_type :=
         if String.eqb cloud_type "" then TemplatePrefs.last_cloud_type tp
         else cloud_type |}
    d.

(** The entry of a template, the default one when it has none. *)
Definition entry (template_id : string) (template_prefs : dict)
  : TemplatePrefs.t :=
  match lookup template_id template_prefs with
  | Some tp => tp
  | None => TemplatePrefs.default
  end.

(** The GPU preferences recorded for a template, none when it has no
    entry. *)
Definition preferred (template_id : string) (template_prefs : dict)
  : list string :=
  match lookup template_id template_prefs with
  | Some tp => TemplatePrefs.gpu_preferences tp
  | None => []
  end.

End Preferences.
(* ================================================================== *)
(** * Properties *)

(** ** Cost estimator *)

Module CostFacts.
Import Cost.
Local Open Scope float_scope.

Lemma lowest_price_cases (g : GpuType.t) :
  lowest_price g
  = lowest_positive (GpuType.community_price g) (GpuType.secure_price g).
Proof.
  unfold lowest_price, lowest_positive, py_min. simpl.
  destruct (0 <? GpuType.community_price g);
    destruct (0 <? GpuType.secure_price g); reflexivity.
Qed.

(** A price that is not negative is positive exactly when it is not zero. *)
Lemma nonnegative_positive (p : float) :
  (0 <=? p) = true -> (0 <? p) = negb (p =? 0).
Proof.
  rewrite leb_spec, ltb_spec, eqb_spec.
  change (Prim2SF 0) with (S754_zero false).
  destruct (Prim2SF p) as [sg | sg | | sg m e]; try discriminate;
    destruct sg; try discriminate; reflexivity.
Qed.

(** On prices that are not negative the blended price of the code is the
    one of the specification. *)
Lemma lowest_price_nonzero (g : GpuType.t) :
  (0 <=? GpuType.community_price g) = true ->
  (0 <=? GpuType.secure_price g) = true ->
  lowest_price g
  = spec_lowest_nonzero (GpuType.community_price g) (GpuType.secure_price g).
Proof.
  intros Hc Hs. unfold lowest_price, spec_lowest_nonzero. simpl.
  now rewrite (nonnegative_positive _ Hc), (nonnegative_positive _ Hs).
Qed.

(** The conversion of a count raises nothing but [OverflowError]. *)
Lemma float_of_int_error (z : Z) (e : exn) :
  float_of_int z = inl e -> e = OverflowError.
Proof.
  unfold float_of_int.
  destruct (binary_normalize prec emax z 0 false); congruence.
Qed.

(** The range of the conversion: the largest int that converts, to the
    largest binary64, and the smallest that does not; small counts convert
    exactly. *)
Example float_of_int_range :
  float_of_int (2 ^ 1024 - 2 ^ 970 - 1) = inr 0x1.fffffffffffffp+1023
  /\ float_of_int (2 ^ 1024 - 2 ^ 970) = inl OverflowError
  /\ float_of_int (- (2 ^ 1024 - 2 ^ 970)) = inl OverflowError
  /\ float_of_int 0 = inr 0 /\ float_of_int 24 = inr 24
  /\ float_of_int (2 ^ 53 + 1) = inr 0x1p+53.
Proof. vm_compute. repeat split. Qed.

(** The example of the specification for the blended tier. *)
Example estimate_all_tier :
  estimate_cost (gpu_of_prices 0.5 0x1.999999999999ap-1) 2 3 "ALL" 1
  = inr {| per_pod_hr := 1; total_hr := 3; total_period := 3 |}.
Proof. reflexivity. Qed.

(** The same with the secure tier, the price being the double nearest to
    0.8: the hourly total is the double just above the one nearest to 4.8. *)
Example estimate_secure_tier :
  estimate_cost (gpu_of_prices 0.5 0x1.999999999999ap-1) 2 3 "SECURE" 1
  = inr {| per_pod_hr := 0x1.999999999999ap+0;
           total_hr := 0x1.3333333333334p+2;
           total_period := 0x1.3333333333334p+2 |}.
Proof. reflexivity. Qed.

(** C7, as stated, fails: it promises an estimate for every count and no
    error condition, but on the prices of the specification's example and a
    GPU count of [10^400], an [int] like any other, the product
    [price * gpu_count] raises [OverflowError] and no estimate is returned;
    so does a pod count of [10^400]. *)
Lemma estimate_cost_overflow :
  let g := gpu_of_prices 0.5 0x1.999999999999ap-1 in
  estimate_cost g (10 ^ 400) 1 "ALL" 1 = inl OverflowError
  /\ estimate_cost g 1 (10 ^ 400) "ALL" 1 = inl OverflowError
  /\ forall estimate, estimate_cost g (10 ^ 400) 1 "ALL" 1 <> inr estimate.
Proof.
  assert (H : estimate_cost (gpu_of_prices 0.5 0x1.999999999999ap-1)
                (10 ^ 400) 1 "ALL" 1 = inl OverflowError)
    by (vm_compute; reflexivity).
  cbv zeta. split; [exact H | split; [vm_compute; reflexivity | ]].
  intros estimate. rewrite H. discriminate.
Qed.

(** C7 (amended): for every GPU type whose prices are not negative, every
    count, tier and hours, the price is the community price for tier
    COMMUNITY, the secure price for tier SECURE and otherwise the minimum
    of the two non-zero prices (0 when both are zero); when both counts
    convert to a float the estimate is price x gpu_count, that x
    pod_count, and that x hours; when one does not, the call raises the
    error of that conversion, [OverflowError], and that is its only error
    condition. The function has no effect. *)
Theorem estimate_cost_tiers (g : GpuType.t) (gpu_count pod_count : Z)
    (cloud_type : string) (hours : float) :
  (0 <=? GpuType.community_price g) = true ->
  (0 <=? GpuType.secure_price g) = true ->
  let price :=
    if String.eqb cloud_type "COMMUNITY" then GpuType.community_price g
    else if String.eqb cloud_type "SECURE" then GpuType.secure_price g
    else spec_lowest_nonzero (GpuType.community_price g)
           (GpuType.secure_price g) in
  estimate_cost g gpu_count pod_count cloud_type hours
  = match float_of_int gpu_count, float_of_int pod_count with
    | inr gpus, inr pods =>
        inr {| per_pod_hr := price * gpus;
               total_hr := price * gpus * pods;
               total_period := price * gpus * pods * hours |}
    | inl e, _ => inl e
    | inr _, inl e => inl e
    end
  /\ (forall e, estimate_cost g gpu_count pod_count cloud_type hours = inl e ->
      e = OverflowError
      /\ (float_of_int gpu_count = inl e \/ float_of_int pod_count = inl e)).
Proof.
  intros Hc Hs price.
  assert (Heq : estimate_cost g gpu_count pod_count cloud_type hours
    = match float_of_int gpu_count, float_of_int pod_count with
      | inr gpus, inr pods =>
          inr {| per_pod_hr := price * gpus;
                 total_hr := price * gpus * pods;
                 total_period := price * gpus * pods * hours |}
      | inl e, _ => inl e
      | inr _, inl e => inl e
      end).
  { unfold estimate_cost, mul_int. subst price.
    rewrite (lowest_price_nonzero g Hc Hs).
    destruct (float_of_int gpu_count); [reflexivity | ].
    destruct (float_of_int pod_count); reflexivity. }
  split; [exact Heq | ].
  intros e He. rewrite Heq in He.
  destruct (float_of_int gpu_count) as [e1 | gpus] eqn:Hg.
  - injection He as ->. split; [exact (float_of_int_error _ _ Hg) | now left].
  - destruct (float_of_int pod_count) as [e2 | pods] eqn:Hp; [ | discriminate].
    injection He as ->. split; [exact (float_of_int_error _ _ Hp) | now right].
Qed.

(** The amended C7 on the example of the specification. *)
Lemma estimate_cost_tiers_witness :
  let g := gpu_of_prices 0.5 0x1.999999999999ap-1 in
  (0 <=? GpuType.community_price g) = true
  /\ (0 <=? GpuType.secure_price g) = true
  /\ estimate_cost g 2 3 "ALL" 1
     = inr {| per_pod_hr := 1; total_hr := 3; total_period := 3 |}.
Proof.
  cbv zeta. split; [reflexivity | split; [reflexivity | ]].
  refine (eq_trans
    (proj1 (estimate_cost_tiers (gpu_of_prices 0.5 0x1.999999999999ap-1)
              2 3 "ALL" 1 eq_refl eq_refl)) _).
  reflexivity.
Defined.

End CostFacts.

(** ** History journal *)

Module JournalFacts.

Lemma slice_from_neg_last_n {A} (keep : Z) (xs : list A) :
  0 < keep ->
  PyStr.slice_from_neg keep xs = PyStr.last_n (Z.to_nat keep) xs.
Proof.
  intro Hk. unfold PyStr.slice_from_neg, PyStr.last_n.
  destruct (Z.ltb_spec (- keep) 0) as [_ | H]; [ | lia].
  f_equal. lia.
Qed.

(** For a positive [keep] the compaction does what its name says: a log of
    more than [2 * keep] lines is rewritten to its last [keep] lines, any
    other log is left as it is, and so is a missing file. *)
Lemma truncate_history_hysteresis {W} (host : Host W) (keep : Z) (s : St W) :
  0 < keep ->
  fs_error host (world s) = false ->
  let s' := fst (truncate_history host keep s) in
  match history_file s with
  | None => s' = s
  | Some content =>
      let lines := PyStr.readlines content in
      if Z.of_nat (List.length lines) >? 2 * keep
      then history_file s'
           = Some (PyStr.writelines (PyStr.last_n (Z.to_nat keep) lines))
      else s' = s
  end.
Proof.
  intros Hk Hfs. unfold truncate_history.
  destruct (history_file s) as [content | ] eqn:Hh; [ | reflexivity].
  rewrite Hfs. cbv zeta. rewrite (Z.mul_comm 2 keep).
  destruct (Z.of_nat (List.length (PyStr.readlines content)) >? keep * 2);
    [ | reflexivity].
  simpl. now rewrite slice_from_neg_last_n.
Qed.

(** The two examples of the specification, on logs of 1050 and 900 lines. *)
Example truncate_1050_lines :
  let line := "x" ++ newline in
  let log := String.concat "" (repeat line 1050) in
  history_file (fst (truncate_history Script.calm 500 (Script.with_history log)))
  = Some (String.concat "" (repeat line 500)).
Proof. vm_compute. reflexivity. Qed.

Example truncate_900_lines :
  let line := "x" ++ newline in
  let log := String.concat "" (repeat line 900) in
  history_file (fst (truncate_history Script.calm 500 (Script.with_history log)))
  = Some log.
Proof. vm_compute. reflexivity. Qed.

(** C8 at [keep = 0]: a log of one line holds more than [2 * 0] lines, and
    its last 0 lines are no line at all, yet [truncate_history 0] writes the
    whole log back. *)
Theorem truncate_history_keep_zero :
  let log := "a" ++ newline in
  let lines := PyStr.readlines log in
  (Z.of_nat (List.length lines) >? 2 * 0) = true
  /\ PyStr.writelines (PyStr.last_n 0 lines) = ""
  /\ history_file (fst (truncate_history Script.calm 0 (Script.with_history log)))
     = Some log.
Proof. repeat split. Qed.

End JournalFacts.

(** ** Rolling deploy: the cancellation flag and the empty target set *)

Section DeployBasics.

Context {W : Type}.
Variable host : Host W.

Lemma deploy_begin_clears_flag (s : St W) (target_pods : list Pod.t)
    (new_image : string) :
  deploy_begin host target_pods new_image (fst (cancel_deploy s))
  = deploy_begin host target_pods new_image s.
Proof.
  unfold deploy_begin, bind, new_deploy_id, datetime_now, set_cancelled,
    modify_record, set_active_deploy, set_pairs, ret, cancel_deploy.
  simpl.
  destruct (uuid4_hex8 host (world s)) as [w1 d]. simpl.
  destruct (now host w1) as [w2 t]. reflexivity.
Qed.

(** C9: a [cancel_deploy()] issued while no rolling deploy runs changes
    nothing but the flag, and a [rolling_deploy] started afterwards runs
    exactly as it would have without it (same final state, trace and
    record), because it clears the flag before its first test of it. *)
Theorem cancel_deploy_when_idle (s : St W)
    (target_pods : list Pod.t) (new_image : string)
    (grace_period_minutes health_check_timeout : Z)
    (on_state_change on_progress on_countdown : bool) :
  cancel_deploy s
  = (update (world s) (trace s) true s, Ok tt)
  /\ rolling_deploy host target_pods new_image grace_period_minutes
       health_check_timeout on_state_change on_progress on_countdown
       (fst (cancel_deploy s))
     = rolling_deploy host target_pods new_image grace_period_minutes
         health_check_timeout on_state_change on_progress on_countdown s.
Proof.
  split; [reflexivity | ].
  unfold rolling_deploy, bind at 1. unfold bind at 3.
  now rewrite deploy_begin_clears_flag.
Qed.

End DeployBasics.
(** ** Steps of the engine *)

Section Steps.

Context {W : Type}.
Variable host : Host W.


Lemma advances_refl (s : St W) : advances s s [].
Proof.
  unfold advances. rewrite app_nil_r. tauto.
Qed.

Lemma advances_trans (s1 s2 s3 : St W) (e1 e2 : list Event) :
  advances s1 s2 e1 -> advances s2 s3 e2 -> advances s1 s3 (e1 ++ e2).
Proof.
  unfold advances.
  intros (T1 & R1 & P1 & H1 & A1 & C1) (T2 & R2 & P2 & H2 & A2 & C2).
  rewrite T2, T1, app_assoc. repeat split; try congruence. auto.
Qed.

Lemma advances_resumed (s : St W) (w : W) (evs : list Event) :
  advances s (resumed host w evs s) evs.
Proof.
  unfold advances, resumed, update. simpl. repeat split.
  intros ->. reflexivity.
Qed.

Lemma when_emit_run (b : bool) (ev : Event) (s : St W) :
  exists s',
    when b (emit ev) s = (s', Ok tt)
    /\ advances s s' (if b then [ev] else [])
    /\ _deploy_cancelled s' = _deploy_cancelled s
    /\ world s' = world s.
Proof.
  destruct b; simpl.
  - eexists. split; [reflexivity | ].
    unfold advances, update. simpl. tauto.
  - exists s. split; [reflexivity | ]. split; [apply advances_refl | tauto].
Qed.


(** *** The poll loop *)

(** Once cancellation is requested, the loop returns "unhealthy" at its next
    test, without another poll. *)
Lemma wait_loop_cancelled (fuel : nat) (pod_id : string) (timeout elapsed : Z)
    (s : St W) :
  _deploy_cancelled s = true ->
  wait_loop host (S fuel) pod_id timeout elapsed s = (s, Ok false).
Proof.
  intro Hc. simpl. destruct (elapsed <? timeout); [ | reflexivity].
  unfold bind, get_cancelled. rewrite Hc. reflexivity.
Qed.

(** What a run of the loop is, for any bound that covers the time left. *)
Lemma wait_loop_run (pod_id : string) (timeout : Z) (fuel : nat) :
  forall (elapsed : Z) (s : St W),
    (Z.to_nat (timeout - elapsed) < fuel)%nat ->
    exists s' res evs,
      wait_loop host fuel pod_id timeout elapsed s = (s', res)
      /\ res <> OutOfFuel
      /\ advances s s' evs
      /\ poll_events pod_id evs
      /\ ((0 < polls evs)%nat ->
          elapsed + 5 * (Z.of_nat (polls evs) - 1) < timeout)
      /\ (res = Ok true ->
          exists evs0 pod,
            evs = (evs0 ++ [EvGet pod_id (inr pod)])%list
            /\ is_healthy pod = true)
      /\ (never_healthy host -> res = Ok false)
      /\ (res = Ok false -> _deploy_cancelled s' = false ->
          timeout <= elapsed + 5 * Z.of_nat (polls evs)).
Proof.
  induction fuel as [ | fuel IH]; intros elapsed s Hfuel; [lia | ].
  simpl. destruct (Z.ltb_spec elapsed timeout) as [Hlt | Hge].
  2:{ exists s, (Ok false), []. conjs; try discriminate; try reflexivity.
      - apply advances_refl.
      - constructor.
      - unfold polls; simpl; lia.
      - intros _ _. unfold polls; simpl; lia. }
  unfold bind at 1. unfold get_cancelled.
  destruct (_deploy_cancelled s) eqn:Hc.
  { exists s, (Ok false), []. conjs; try discriminate; try reflexivity.
    - apply advances_refl.
    - constructor.
    - unfold polls; simpl; lia.
    - intros _ Hc'. congruence. }
  unfold bind at 1. unfold try_except, bind at 1. unfold client_get_pod.
  pose proof (advances_resumed s) as Hadv.
  destruct (get_pod host pod_id (world s)) as [w r] eqn:Hget.
  specialize (Hadv w [EvGet pod_id r]).
  set (s1 := resumed host w [EvGet pod_id r] s) in *.
  assert (Hnever : never_healthy host ->
                   match r with
                   | inr pod => is_healthy pod = false
                   | inl (RunPodError _) => True
                   | inl (OtherError _) => False
                   end).
  { intro Hn. specialize (Hn pod_id (world s)). now rewrite Hget in Hn. }
  assert (Hsleep :
    exists s' res evs,
      bind (asyncio_sleep host 5)
        (fun _ => wait_loop host fuel pod_id timeout (elapsed + 5)) s1
      = (s', res)
      /\ res <> OutOfFuel
      /\ advances s s' evs
      /\ poll_events pod_id evs
      /\ ((0 < polls evs)%nat ->
          elapsed + 5 * (Z.of_nat (polls evs) - 1) < timeout)
      /\ (res = Ok true ->
          exists evs0 pod,
            evs = (evs0 ++ [EvGet pod_id (inr pod)])%list
            /\ is_healthy pod = true)
      /\ (never_healthy host -> res = Ok false)
      /\ (res = Ok false -> _deploy_cancelled s' = false ->
          timeout <= elapsed + 5 * Z.of_nat (polls evs))).
  { unfold bind, asyncio_sleep.
    set (s2 := resumed host (sleep host 5 (world s1)) [EvSleep 5] s1).
    destruct (IH (elapsed + 5) s2 ltac:(lia))
      as (s' & res & evs & Hrun & Hfu & Hadv2 & Hpoll & Hbound & Hok & Hnv
          & Hto).
    exists s', res, (EvGet pod_id r :: EvSleep 5 :: evs). rewrite Hrun.
    split; [reflexivity | ]. split; [exact Hfu | ].
    split.
    { change (EvGet pod_id r :: EvSleep 5 :: evs)
        with ([EvGet pod_id r] ++ ([EvSleep 5] ++ evs))%list.
      eapply advances_trans; [exact Hadv | ].
      eapply advances_trans; [ | exact Hadv2]. apply advances_resumed. }
    split; [now constructor | ].
    split.
    { intros _. change (polls (EvGet pod_id r :: EvSleep 5 :: evs))
        with (S (polls evs)).
      destruct (polls evs) as [ | n] eqn:Hn; [simpl; lia | ].
      specialize (Hbound ltac:(lia)). lia. }
    split.
    { intro Hres. destruct (Hok Hres) as (evs0 & pod & -> & Hh).
      exists (EvGet pod_id r :: EvSleep 5 :: evs0), pod.
      split; [reflexivity | exact Hh]. }
    split; [exact Hnv | ].
    intros Hres Hc'. specialize (Hto Hres Hc').
    change (polls (EvGet pod_id r :: EvSleep 5 :: evs)) with (S (polls evs)).
    lia. }
  destruct r as [e | pod]; cbn [of_result].
  - destruct e as [m | m].
    + unfold ret at 1. cbv beta iota. exact Hsleep.
    + exists s1, (Raise (OtherError m)), [EvGet pod_id (inl (OtherError m))].
      conjs; try discriminate; try reflexivity.
      * exact Hadv.
      * constructor.
      * unfold polls; simpl; lia.
      * intro Hn. destruct (Hnever Hn).
  - unfold ret at 1. cbv beta iota.
    destruct (is_healthy pod) eqn:Hh.
    + exists s1, (Ok true), [EvGet pod_id (inr pod)].
      conjs; try discriminate; try reflexivity.
      * exact Hadv.
      * constructor.
      * unfold polls; simpl; lia.
      * intros _. exists [], pod. split; [reflexivity | exact Hh].
      * intro Hn. specialize (Hnever Hn). simpl in Hnever. congruence.
    + exact Hsleep.
Qed.

(** *** Sequencing *)

Lemma bind_ok {A B} (c : M A) (k : A -> M B) (s s1 : St W) (a : A) :
  c s = (s1, Ok a) -> bind c k s = k a s1.
Proof. unfold bind. now intros ->. Qed.

Lemma bind_raise {A B} (c : M A) (k : A -> M B) (s s1 : St W) (e : exn) :
  c s = (s1, Raise e) -> bind c k s = (s1, Raise e).
Proof. unfold bind. now intros ->. Qed.

(** *** The grace-period wait *)


Lemma grace_loop_run (on_countdown : bool) (fuel : nat) :
  forall (remaining : Z) (s : St W),
    (Z.to_nat remaining < fuel)%nat ->
    exists s' evs,
      grace_loop host fuel on_countdown remaining s = (s', Ok tt)
      /\ advances s s' evs
      /\ Forall idle evs.
Proof.
  induction fuel as [ | fuel IH]; intros remaining s Hfuel; [lia | ].
  simpl. unfold bind at 1. unfold get_cancelled.
  destruct (Z.gtb_spec remaining 0) as [Hpos | Hneg]; cbn [andb].
  2:{ exists s, []. split; [reflexivity | ].
      split; [apply advances_refl | constructor]. }
  destruct (_deploy_cancelled s); cbn [negb].
  { exists s, []. split; [reflexivity | ].
    split; [apply advances_refl | constructor]. }
  destruct (when_emit_run on_countdown (EvCountdown remaining) s)
    as (s1 & H1 & A1 & _ & _).
  rewrite (bind_ok _ _ _ _ _ H1).
  unfold bind at 1. unfold asyncio_sleep.
  set (s2 := resumed host _ _ s1).
  destruct (IH (remaining - 1) s2 ltac:(lia)) as (s' & evs & Hrun & A3 & Hidle).
  exists s', ((if on_countdown then [EvCountdown remaining] else [])
               ++ [EvSleep (Z.min 1 remaining)] ++ evs)%list.
  split; [exact Hrun | ]. split.
  - eapply advances_trans; [exact A1 | ].
    eapply advances_trans; [ | exact A3]. apply advances_resumed.
  - apply Forall_app. split.
    + destruct on_countdown; repeat constructor.
    + constructor; [exact I | exact Hidle].
Qed.

(** *** Best-effort calls and rollback *)

Lemma terminate_soft (pid : string) (s : St W) :
  soft_failures host ->
  exists s' r,
    pass_RunPodError (client_terminate_pod host pid) s = (s', Ok tt)
    /\ advances s s' [EvTerminate pid r].
Proof.
  intros [Hsoft _]. unfold pass_RunPodError, client_terminate_pod.
  specialize (Hsoft pid (world s)).
  destruct (terminate_pod host pid (world s)) as [w r].
  exists (resumed host w [EvTerminate pid r] s), r.
  split; [ | apply advances_resumed].
  destruct r as [e | []]; [ | reflexivity].
  destruct (Hsoft e eq_refl) as [m ->]. reflexivity.
Qed.


Lemma resume_soft (pid : string) (g : Z) (s : St W) :
  soft_failures host ->
  exists s' r,
    pass_RunPodError (client_resume_pod host pid g) s = (s', Ok tt)
    /\ advances s s' [EvResume pid g r].
Proof.
  intros [_ Hsoft]. unfold pass_RunPodError, client_resume_pod.
  specialize (Hsoft pid g (world s)).
  destruct (resume_pod host pid g (world s)) as [w r].
  exists (resumed host w [EvResume pid g r] s), r.
  split; [ | apply advances_resumed].
  destruct r as [e | []]; [ | reflexivity].
  destruct (Hsoft e eq_refl) as [m ->]. reflexivity.
Qed.

Lemma rollback_pairs_run (pairs : list (Pod.t * Pod.t)) :
  soft_failures host ->
  forall s : St W,
    exists s' evs,
      rollback_pairs host pairs s = (s', Ok tt)
      /\ advances s s' evs
      /\ rollback_events pairs evs.
Proof.
  intro Hsoft. induction pairs as [ | [old_pod new_pod] pairs IH]; intro s.
  - exists s, []. split; [reflexivity | ].
    split; [apply advances_refl | constructor].
  - simpl.
    destruct (terminate_soft (Pod.id new_pod) s Hsoft) as (s1 & rt & H1 & A1).
    rewrite (bind_ok _ _ _ _ _ H1).
    destruct (resume_soft (Pod.id old_pod) (Pod.gpu_count old_pod) s1 Hsoft)
      as (s2 & rr & H2 & A2).
    rewrite (bind_ok _ _ _ _ _ H2).
    destruct (IH s2) as (s' & evs & H3 & A3 & Hev).
    exists s', ([EvTerminate (Pod.id new_pod) rt]
                 ++ [EvResume (Pod.id old_pod) (Pod.gpu_count old_pod) rr]
                 ++ evs)%list.
    split; [exact H3 | ]. split.
    + eapply advances_trans; [exact A1 | ].
      eapply advances_trans; [exact A2 | exact A3].
    + now constructor.
Qed.


Lemma modify_record_run (f : DeployRecord -> DeployRecord) (s : St W) :
  exists s', modify_record f s = (s', Ok tt) /\ moves f s s' [].
Proof.
  eexists. split; [reflexivity | ].
  unfold moves. simpl. rewrite app_nil_r. tauto.
Qed.

Lemma moves_advances (f : DeployRecord -> DeployRecord) (s1 s2 s3 : St W)
    (e1 e2 : list Event) :
  moves f s1 s2 e1 -> advances s2 s3 e2 -> moves f s1 s3 (e1 ++ e2).
Proof.
  unfold moves, advances.
  intros (T1 & R1 & P1 & H1 & A1 & C1) (T2 & R2 & P2 & H2 & A2 & C2).
  rewrite T2, T1, app_assoc. conjs; try congruence. auto.
Qed.

Lemma advances_moves (f : DeployRecord -> DeployRecord) (s1 s2 s3 : St W)
    (e1 e2 : list Event) :
  advances s1 s2 e1 -> moves f s2 s3 e2 -> moves f s1 s3 (e1 ++ e2).
Proof.
  unfold moves, advances.
  intros (T1 & R1 & P1 & H1 & A1 & C1) (T2 & R2 & P2 & H2 & A2 & C2).
  rewrite T2, T1, app_assoc. conjs; try congruence. auto.
Qed.

Lemma moves_moves (f g : DeployRecord -> DeployRecord) (s1 s2 s3 : St W)
    (e1 e2 : list Event) :
  moves f s1 s2 e1 -> moves g s2 s3 e2 ->
  moves (fun r => g (f r)) s1 s3 (e1 ++ e2).
Proof.
  unfold moves.
  intros (T1 & R1 & P1 & H1 & A1 & C1) (T2 & R2 & P2 & H2 & A2 & C2).
  rewrite T2, T1, app_assoc. conjs; try congruence. auto.
Qed.

Lemma _rollback_deploy_run (s : St W) :
  soft_failures host ->
  exists s' evs,
    _rollback_deploy host s = (s', Ok tt)
    /\ moves (set_status ROLLING_BACK) s s' evs
    /\ rollback_events (completed_pairs s) evs.
Proof.
  intro Hsoft. unfold _rollback_deploy.
  destruct (modify_record_run (set_status ROLLING_BACK) s) as (s1 & H1 & M1).
  rewrite (bind_ok _ _ _ _ _ H1).
  unfold bind at 1. unfold get_pairs.
  destruct (rollback_pairs_run (completed_pairs s1) Hsoft s1)
    as (s' & evs & H2 & A2 & Hev).
  exists s', evs. split; [exact H2 | ]. split.
  - change evs with ([] ++ evs)%list. eapply moves_advances; eassumption.
  - destruct M1 as (_ & _ & <- & _). exact Hev.
Qed.


(** *** Prologue and epilogue of [rolling_deploy] *)


Lemma deploy_begin_run (target_pods : list Pod.t) (new_image : string)
    (s : St W) (w1 w2 : W) (did : string) (start : Z) :
  uuid4_hex8 host (world s) = (w1, did) ->
  now host w1 = (w2, start) ->
  exists s0,
    deploy_begin host target_pods new_image s = (s0, Ok (did, start))
    /\ world s0 = w2
    /\ trace s0 = trace s
    /\ _deploy_cancelled s0 = false
    /\ record_cell s0 = initial_record host did start target_pods new_image
    /\ completed_pairs s0 = []
    /\ history_file s0 = history_file s.
Proof.
  intros Hu Hn.
  unfold deploy_begin, bind, new_deploy_id, datetime_now, set_cancelled,
    modify_record, set_active_deploy, set_pairs, ret.
  rewrite Hu. simpl. rewrite Hn. simpl.
  eexists. split; [reflexivity | ]. simpl. tauto.
Qed.


Lemma deploy_end_run (start : Z) (s : St W) :
  exists s' finish,
    deploy_end host start s
    = (s', Ok (set_duration_seconds (finish - start) (record_cell s)))
    /\ trace s' = trace s
    /\ completed_pairs s' = completed_pairs s
    /\ _active_deploy s' = None
    /\ history_file s'
       = (if fs_error host (world s') then history_file s
          else Some (match history_file s with Some c => c | None => "" end
                     ++ journal_line host
                          (set_duration_seconds (finish - start)
                             (record_cell s)))).
Proof.
  unfold deploy_end, bind, datetime_now, modify_record, get_record,
    _record_deploy, set_active_deploy, ret, journal_line.
  destruct (now host (world s)) as [w finish]. simpl.
  destruct (fs_error host w) eqn:Hfs; simpl.
  - eexists; exists finish. split; [reflexivity | ]. simpl. rewrite Hfs. tauto.
  - eexists; exists finish. split; [reflexivity | ]. simpl. rewrite Hfs. tauto.
Qed.

(** C10: on an empty list of targets [rolling_deploy] makes no client call
    and no callback (the trace is unchanged) and returns a record with status
    completed, pod count 0, no pod id and no error; when the history file can
    be written, the line of that record is appended to it. *)
Theorem rolling_deploy_no_targets (s : St W) (new_image : string)
    (grace_period_minutes health_check_timeout : Z)
    (on_state_change on_progress on_countdown : bool) :
  (forall w, fs_error host w = false) ->
  exists s' record,
    rolling_deploy host [] new_image grace_period_minutes health_check_timeout
      on_state_change on_progress on_countdown s = (s', Ok record)
    /\ trace s' = trace s
    /\ status record = COMPLETED
    /\ pod_count record = 0
    /\ pod_ids record = []
    /\ error record = ""
    /\ history_file s'
       = Some (match history_file s with Some c => c | None => "" end
               ++ json_dumps host record ++ newline).
Proof.
  intro Hfs. unfold rolling_deploy.
  destruct (uuid4_hex8 host (world s)) as [w1 did] eqn:Hu.
  destruct (now host w1) as [w2 start] eqn:Hn.
  destruct (deploy_begin_run [] new_image s w1 w2 did start Hu Hn)
    as (s0 & H0 & _ & T0 & _ & R0 & P0 & F0).
  rewrite (bind_ok _ _ _ _ _ H0). cbn [fst snd].
  unfold bind at 1, try_except.
  cbn [deploy_loop].
  unfold bind at 1 2, modify_record at 1, get_pairs, modify_record at 1.
  cbn [fst snd].
  match goal with |- context [deploy_end _ _ ?st] => set (s1 := st) end.
  destruct (deploy_end_run start s1) as (s' & finish & H1 & T1 & _ & _ & F1).
  rewrite H1. eexists; eexists. split; [reflexivity | ].
  rewrite T1, F1, Hfs. subst s1. cbn. rewrite R0, P0, T0, F0.
  conjs; reflexivity.
Qed.

End Steps.

(** C10 on a run: no target, a history file that does not exist yet. *)
Lemma rolling_deploy_no_targets_witness :
  (forall w, fs_error Script.calm w = false)
  /\ exists s' record,
       rolling_deploy Script.calm [] "img:2" 15 300 true true true Script.fresh
       = (s', Ok record)
       /\ trace s' = trace Script.fresh
       /\ status record = COMPLETED
       /\ pod_count record = 0
       /\ pod_ids record = []
       /\ error record = ""
       /\ history_file s'
          = Some (match history_file Script.fresh with
                  | Some c => c
                  | None => ""
                  end ++ json_dumps Script.calm record ++ newline).
Proof.
  split; [reflexivity | ].
  apply (rolling_deploy_no_targets Script.calm Script.fresh "img:2" 15 300
           true true true).
  reflexivity.
Defined.
Section HealthCheck.

Context {W : Type}.
Variable host : Host W.

Lemma poll_events_in (pid : string) (evs : list Event) (ev : Event) :
  poll_events pid evs -> In ev evs ->
  ev = EvSleep 5 \/ exists r, ev = EvGet pid r.
Proof.
  induction 1 as [ | r | r evs _ IH]; simpl.
  - tauto.
  - intros [<- | []]. right. now exists r.
  - intros [<- | [<- | Hin]]; [right; now exists r | now left | now apply IH].
Qed.

Lemma _wait_for_healthy_run (pod_id : string) (timeout : Z) (s : St W) :
  exists s' res evs,
    _wait_for_healthy host pod_id timeout s = (s', res)
    /\ res <> OutOfFuel
    /\ advances s s' evs
    /\ poll_events pod_id evs
    /\ ((0 < polls evs)%nat -> 5 * (Z.of_nat (polls evs) - 1) < timeout)
    /\ (res = Ok true ->
        exists evs0 pod,
          evs = (evs0 ++ [EvGet pod_id (inr pod)])%list
          /\ is_healthy pod = true)
    /\ (never_healthy host -> res = Ok false)
    /\ (res = Ok false -> _deploy_cancelled s' = false ->
        timeout <= 5 * Z.of_nat (polls evs)).
Proof.
  unfold _wait_for_healthy.
  destruct (wait_loop_run host pod_id timeout (S (Z.to_nat timeout)) 0 s
              ltac:(lia))
    as (s' & res & evs & H).
  exists s', res, evs. exact H.
Qed.

Lemma try_create_run (args : CreateArgs.t) (s : St W) :
  try_except
    (bind (client_create_pod host args) (fun new_pod => ret (inr new_pod)))
    (fun e => ret (inl e)) s
  = (resumed host (fst (create_pod host args (world s)))
       [EvCreate args (snd (create_pod host args (world s)))] s,
     Ok (snd (create_pod host args (world s)))).
Proof.
  unfold try_except, bind, client_create_pod, ret.
  destruct (create_pod host args (world s)) as [w [e | p]]; reflexivity.
Qed.



Lemma try_except_ok {A} (c : M A) (h : exn -> M A) (s s' : St W) (a : A) :
  c s = (s', Ok a) -> try_except c h s = (s', Ok a).
Proof. unfold try_except. now intros ->. Qed.



End HealthCheck.



(** ** Rolling deploy: cancellation *)

Section Cancellation.

Context {W : Type}.
Variable host : Host W.

Lemma bind_inv {A B} (c : M A) (k : A -> M B) (s s' : St W) (b : B) :
  bind c k s = (s', Ok b) ->
  exists s1 a, c s = (s1, Ok a) /\ k a s1 = (s', Ok b).
Proof.
  unfold bind. destruct (c s) as [s1 [a | e | ]]; intro H.
  - now exists s1, a.
  - discriminate H.
  - discriminate H.
Qed.

Ltac inv_bind H :=
  let s1 := fresh "s" in
  let a := fresh "a" in
  let H1 := fresh H in
  apply bind_inv in H; destruct H as (s1 & a & H1 & H).

Ltac inv_bind_as H a :=
  let s1 := fresh "s" in
  let H1 := fresh H in
  apply bind_inv in H; destruct H as (s1 & a & H1 & H).

Lemma terminate_any (pid : string) (s s' : St W) (res : Res unit) :
  pass_RunPodError (client_terminate_pod host pid) s = (s', res) ->
  exists r, advances s s' [EvTerminate pid r].
Proof.
  unfold pass_RunPodError, client_terminate_pod.
  destruct (terminate_pod host pid (world s)) as [w r].
  intro H. exists r.
  assert (s' = resumed host w [EvTerminate pid r] s) as ->.
  { destruct r as [[m | m] | []]; simpl in H; now injection H as <- _. }
  apply advances_resumed.
Qed.

(** The loop over [pre ++ rest] is the loop over [rest] started where the
    iterations over [pre] leave, when none of them leaves the loop. *)
Lemma deploy_loop_split (deploy_id new_image : string)
    (hct grace total : Z) (osc op oc : bool) (rest : list Pod.t)
    (pre : list Pod.t) :
  forall (s sk : St W),
    deploy_prefix host deploy_id new_image hct grace total osc op oc pre s
    = (sk, Ok Continue) ->
    deploy_loop host deploy_id new_image hct grace total osc op oc
      (pre ++ rest) s
    = deploy_loop host deploy_id new_image hct grace total osc op oc rest sk.
Proof.
  induction pre as [ | p pre IH]; intros s sk H.
  - injection H as <-. reflexivity.
  - simpl in H. rewrite <- app_comm_cons. cbn [deploy_loop].
    unfold bind in H |- *.
    destruct (deploy_iteration host deploy_id new_image hct grace total osc op
                oc p s) as [s1 [[ | ] | e | ]]; try discriminate H.
    now apply IH.
Qed.


Lemma about_when_state (b : bool) (old st new other : string) :
  Forall (about old other)
    (if b then [EvStateChange old st new] else []).
Proof.
  destruct b; constructor; [ | constructor].
  intros pid Ht. left. symmetry. exact Ht.
Qed.

Lemma about_idle (a b : string) (evs : list Event) :
  Forall idle evs -> Forall (about a b) evs.
Proof.
  intro H. eapply Forall_impl; [ | exact H].
  intros ev Hidle pid Ht. destruct ev; simpl in *; contradiction.
Qed.

Lemma about_polls (a b : string) (evs : list Event) :
  poll_events b evs -> Forall (about a b) evs.
Proof.
  intro H. apply Forall_forall. intros ev Hin pid Ht.
  destruct (poll_events_in _ _ _ H Hin) as [-> | [r ->]]; simpl in Ht.
  - contradiction.
  - right. symmetry. exact Ht.
Qed.

Lemma created_in_app (e1 e2 : list Event) :
  created_in (e1 ++ e2) = (created_in e1 ++ created_in e2)%list.
Proof. unfold created_in. apply flat_map_app. Qed.

Lemma create_attempts_app (e1 e2 : list Event) :
  create_attempts (e1 ++ e2)
  = (create_attempts e1 ++ create_attempts e2)%list.
Proof. unfold create_attempts. apply flat_map_app. Qed.

Lemma no_create_when (b : bool) (old st new : string) :
  created_in (if b then [EvStateChange old st new] else []) = []
  /\ create_attempts (if b then [EvStateChange old st new] else []) = [].
Proof. destruct b; split; reflexivity. Qed.

Lemma no_create_polls (pid : string) (evs : list Event) :
  poll_events pid evs -> created_in evs = [] /\ create_attempts evs = [].
Proof.
  induction 1 as [ | r | r evs _ [IH1 IH2]]; split; try reflexivity.
  - exact IH1.
  - exact IH2.
Qed.

Lemma no_create_idle (evs : list Event) :
  Forall idle evs -> created_in evs = [] /\ create_attempts evs = [].
Proof.
  induction 1 as [ | ev evs Hev _ [IH1 IH2]]; [split; reflexivity | ].
  destruct ev; simpl in Hev; try contradiction; split; assumption.
Qed.

(** An iteration that gets to the end of its grace-period wait created
    exactly one pod, its replacement, and touched no other pod than the old
    one and the replacement. *)
Lemma iteration_head_reached (deploy_id new_image : string)
    (hct grace : Z) (osc oc : bool) (old_pod new_pod : Pod.t)
    (s sg : St W) :
  iteration_head host deploy_id new_image hct grace osc oc old_pod s
  = (sg, Ok (Some new_pod)) ->
  exists evs,
    advances s sg evs
    /\ created_in evs = [new_pod]
    /\ List.length (create_attempts evs) = 1%nat
    /\ Forall (about (Pod.id old_pod) (Pod.id new_pod)) evs.
Proof.
  unfold iteration_head. intro H.
  inv_bind H. unfold get_cancelled in H0. injection H0 as <- <-.
  destruct (_deploy_cancelled s).
  { repeat inv_bind H. discriminate H. }
  inv_bind H.
  destruct (when_emit_run osc (EvStateChange (Pod.id old_pod) "CREATE_NEW" "") s)
    as (s1 & H1 & A1 & _ & W1).
  rewrite H1 in H0. injection H0 as <- _.
  inv_bind H. rewrite try_create_run in H0. injection H0 as <- <-.
  set (args := replacement_args deploy_id new_image old_pod) in *.
  destruct (create_pod host args (world s1)) as [w [e | p]]; cbn [fst snd] in *.
  { repeat inv_bind H. discriminate H. }
  set (s2 := resumed host w [EvCreate args (inr p)] s1) in *.
  assert (A2 : advances s1 s2 [EvCreate args (inr p)])
    by apply advances_resumed.
  inv_bind H.
  destruct (when_emit_run osc
              (EvStateChange (Pod.id old_pod) "HEALTH_CHECK" (Pod.id p)) s2)
    as (s3 & H3 & A3 & _ & _).
  rewrite H3 in H0. injection H0 as <- _.
  inv_bind_as H healthy.
  destruct (_wait_for_healthy_run host (Pod.id p) hct s3)
    as (s4 & res & polls4 & H4 & _ & A4 & Hpoll & _ & _ & _).
  rewrite H4 in H0. injection H0 as <- ->.
  destruct healthy; cbn [negb] in H.
  2:{ repeat inv_bind H. discriminate H. }
  inv_bind H.
  destruct (when_emit_run osc
              (EvStateChange (Pod.id old_pod) "DRAINING" (Pod.id p)) s4)
    as (s5 & H5 & A5 & _ & _).
  rewrite H5 in H0. injection H0 as <- _.
  inv_bind H.
  destruct (grace_loop_run host oc (S (Z.to_nat grace)) grace s5 ltac:(lia))
    as (s6 & evs6 & H6 & A6 & Hidle).
  rewrite H6 in H0. injection H0 as <- _.
  inv_bind H.
  destruct (when_emit_run oc (EvCountdown 0) s6) as (s7 & H7 & A7 & _ & _).
  rewrite H7 in H0. injection H0 as <- _.
  injection H as <- <-.
  exists ((if osc then [EvStateChange (Pod.id old_pod) "CREATE_NEW" ""] else [])
          ++ [EvCreate args (inr p)]
          ++ (if osc
              then [EvStateChange (Pod.id old_pod) "HEALTH_CHECK" (Pod.id p)]
              else [])
          ++ polls4
          ++ (if osc
              then [EvStateChange (Pod.id old_pod) "DRAINING" (Pod.id p)]
              else [])
          ++ evs6
          ++ (if oc then [EvCountdown 0] else []))%list.
  assert (Hc0 : Forall idle (if oc then [EvCountdown 0] else []))
    by (destruct oc; repeat constructor).
  split; [ | split; [ | split]].
  - repeat (eapply advances_trans; [eassumption | ]). exact A7.
  - rewrite !created_in_app.
    rewrite (proj1 (no_create_when osc _ _ _)),
      (proj1 (no_create_when osc _ _ _)), (proj1 (no_create_when osc _ _ _)),
      (proj1 (no_create_polls _ _ Hpoll)), (proj1 (no_create_idle _ Hidle)),
      (proj1 (no_create_idle _ Hc0)).
    reflexivity.
  - rewrite !create_attempts_app.
    rewrite (proj2 (no_create_when osc _ _ _)),
      (proj2 (no_create_when osc _ _ _)), (proj2 (no_create_when osc _ _ _)),
      (proj2 (no_create_polls _ _ Hpoll)), (proj2 (no_create_idle _ Hidle)),
      (proj2 (no_create_idle _ Hc0)).
    reflexivity.
  - repeat (apply Forall_app; split);
      try apply about_when_state;
      try (apply about_idle; assumption);
      try (apply about_polls; assumption).
    constructor; [ | constructor]. intros pid [].
Qed.

(** The rest of an iteration that completes its pair. *)
Lemma iteration_tail_completed (total : Z) (osc op : bool)
    (old_pod new_pod : Pod.t) (s s' : St W) :
  iteration_tail host total osc op old_pod new_pod s = (s', Ok Continue) ->
  exists evs,
    trace s' = (trace s ++ evs)%list
    /\ record_cell s' = record_cell s
    /\ completed_pairs s' = (completed_pairs s ++ [(old_pod, new_pod)])%list
    /\ history_file s' = history_file s
    /\ created_in evs = []
    /\ create_attempts evs = []
    /\ Forall (about (Pod.id old_pod) (Pod.id new_pod)) evs.
Proof.
  unfold iteration_tail. intro H.
  inv_bind H. unfold get_cancelled in H0. injection H0 as <- <-.
  destruct (_deploy_cancelled s).
  { repeat inv_bind H. discriminate H. }
  inv_bind H.
  destruct (when_emit_run osc
              (EvStateChange (Pod.id old_pod) "TERMINATE_OLD" (Pod.id new_pod)) s)
    as (s1 & H1 & A1 & _ & _).
  rewrite H1 in H0. injection H0 as <- _.
  inv_bind H. destruct (terminate_any _ _ _ _ H0) as [rt A2]. clear H0.
  inv_bind H. unfold get_pairs in H0. injection H0 as <- <-.
  inv_bind H. unfold set_pairs in H0. injection H0 as <- _.
  inv_bind H.
  match type of H0 with when _ _ ?st = _ => set (s3 := st) in * end.
  destruct (when_emit_run osc
              (EvStateChange (Pod.id old_pod) "COMPLETED" (Pod.id new_pod)) s3)
    as (s4 & H4 & A4 & _ & _).
  rewrite H4 in H0. injection H0 as <- _.
  inv_bind H. unfold get_pairs in H0. injection H0 as <- <-.
  inv_bind H.
  destruct (when_emit_run op
              (EvProgress (Z.of_nat (List.length (completed_pairs s4))) total) s4)
    as (s5 & H5 & A5 & _ & _).
  rewrite H5 in H0. injection H0 as <- _.
  injection H as <-.
  destruct A1 as (T1 & R1 & P1 & F1 & _), A2 as (T2 & R2 & P2 & F2 & _),
    A4 as (T4 & R4 & P4 & F4 & _), A5 as (T5 & R5 & P5 & F5 & _).
  subst s3. simpl in T4, R4, P4, F4.
  exists ((if osc
           then [EvStateChange (Pod.id old_pod) "TERMINATE_OLD" (Pod.id new_pod)]
           else [])
          ++ [EvTerminate (Pod.id old_pod) rt]
          ++ (if osc
              then [EvStateChange (Pod.id old_pod) "COMPLETED" (Pod.id new_pod)]
              else [])
          ++ (if op
              then [EvProgress (Z.of_nat (List.length (completed_pairs s4))) total]
              else []))%list.
  conjs.
  - rewrite T5, T4, T2, T1, <- !app_assoc. reflexivity.
  - congruence.
  - rewrite P5, P4, P2, P1. reflexivity.
  - congruence.
  - destruct osc, op; reflexivity.
  - destruct osc, op; reflexivity.
  - repeat (apply Forall_app; split); try apply about_when_state.
    + constructor; [ | constructor]. intros pid Ht. left. symmetry. exact Ht.
    + destruct op; constructor; [ | constructor]. intros pid [].
Qed.

(** An iteration that completes its pair. *)
Lemma deploy_iteration_completed (deploy_id new_image : string)
    (hct grace total : Z) (osc op oc : bool) (old_pod : Pod.t)
    (s s' : St W) :
  deploy_iteration host deploy_id new_image hct grace total osc op oc old_pod s
  = (s', Ok Continue) ->
  exists new_pod evs,
    trace s' = (trace s ++ evs)%list
    /\ record_cell s' = record_cell s
    /\ completed_pairs s' = (completed_pairs s ++ [(old_pod, new_pod)])%list
    /\ history_file s' = history_file s
    /\ created_in evs = [new_pod]
    /\ List.length (create_attempts evs) = 1%nat
    /\ Forall (about (Pod.id old_pod) (Pod.id new_pod)) evs.
Proof.
  unfold deploy_iteration. intro H. inv_bind_as H reached.
  destruct reached as [new_pod | ]; [ | discriminate H].
  destruct (iteration_head_reached _ _ _ _ _ _ _ _ _ _ H0)
    as (evs1 & A1 & C1 & N1 & K1).
  destruct (iteration_tail_completed _ _ _ _ _ _ _ H)
    as (evs2 & T2 & R2 & P2 & F2 & C2 & N2 & K2).
  destruct A1 as (T1 & R1 & P1 & F1 & _).
  exists new_pod, (evs1 ++ evs2)%list. conjs.
  - rewrite T2, T1, app_assoc. reflexivity.
  - congruence.
  - congruence.
  - congruence.
  - rewrite created_in_app, C1, C2. reflexivity.
  - rewrite create_attempts_app, length_app, N1, N2. reflexivity.
  - apply Forall_app. split; assumption.
Qed.


Lemma within_mono (ids ids' : list string) (evs : list Event) :
  incl ids ids' -> Forall (within ids) evs -> Forall (within ids') evs.
Proof.
  intros Hincl H. eapply Forall_impl; [ | exact H].
  intros ev Hev pid Ht. apply Hincl. now apply Hev.
Qed.

Lemma about_within (a b : string) (ids : list string) (evs : list Event) :
  In a ids -> In b ids -> Forall (about a b) evs -> Forall (within ids) evs.
Proof.
  intros Ha Hb H. eapply Forall_impl; [ | exact H].
  intros ev Hev pid Ht. destruct (Hev pid Ht) as [-> | ->]; assumption.
Qed.

(** Iterations that all complete their pairs: one pod is created for each
    target, the pairs are the targets with their replacements, in order, and
    no other pod is touched. *)
Lemma deploy_prefix_completed (deploy_id new_image : string)
    (hct grace total : Z) (osc op oc : bool) (pre : list Pod.t) :
  forall (s sk : St W),
    deploy_prefix host deploy_id new_image hct grace total osc op oc pre s
    = (sk, Ok Continue) ->
    exists evs pairs,
      trace sk = (trace s ++ evs)%list
      /\ record_cell sk = record_cell s
      /\ completed_pairs sk = (completed_pairs s ++ pairs)%list
      /\ history_file sk = history_file s
      /\ map fst pairs = pre
      /\ created_in evs = map snd pairs
      /\ List.length (create_attempts evs) = List.length pre
      /\ Forall (within (map Pod.id pre ++ map Pod.id (created_in evs))) evs.
Proof.
  induction pre as [ | p pre IH]; intros s sk H.
  - injection H as <-. exists [], []. rewrite !app_nil_r.
    conjs; try reflexivity. constructor.
  - simpl in H. inv_bind_as H f. destruct f; [ | discriminate H].
    destruct (deploy_iteration_completed _ _ _ _ _ _ _ _ _ _ _ H0)
      as (new_pod & evs1 & T1 & R1 & P1 & F1 & C1 & N1 & K1).
    destruct (IH _ _ H) as (evs2 & pairs & T2 & R2 & P2 & F2 & Hfst & C2 & N2 & K2).
    exists (evs1 ++ evs2)%list, ((p, new_pod) :: pairs). conjs.
    + rewrite T2, T1, app_assoc. reflexivity.
    + congruence.
    + rewrite P2, P1, <- app_assoc. reflexivity.
    + congruence.
    + simpl. now rewrite Hfst.
    + rewrite created_in_app, C1, C2. reflexivity.
    + rewrite create_attempts_app, length_app, N1, N2. reflexivity.
    + rewrite created_in_app, C1. apply Forall_app. split.
      * eapply about_within; [ | | exact K1].
        -- simpl. now left.
        -- apply in_or_app. right. simpl. now left.
      * eapply within_mono; [ | exact K2].
        intros pid Hin. apply in_app_or in Hin. apply in_or_app.
        destruct Hin as [Hin | Hin].
        -- left. simpl. now right.
        -- right. rewrite map_app. apply in_or_app. now right.
Qed.


(** Cancellation seen after the grace-period wait. *)
Lemma iteration_tail_cancelled (total : Z) (osc op : bool)
    (old_pod new_pod : Pod.t) (s : St W) :
  soft_failures host ->
  _deploy_cancelled s = true ->
  exists s' rt rb,
    iteration_tail host total osc op old_pod new_pod s = (s', Ok Break)
    /\ moves (fun r => set_error cancelled_in_grace
                         (set_status ROLLED_BACK (set_status ROLLING_BACK r)))
         s s' (EvTerminate (Pod.id new_pod) rt :: rb)
    /\ rollback_events (completed_pairs s) rb.
Proof.
  intros Hsoft Hc. unfold iteration_tail.
  unfold bind at 1. unfold get_cancelled. rewrite Hc.
  destruct (terminate_soft host (Pod.id new_pod) s Hsoft) as (s1 & rt & H1 & A1).
  rewrite (bind_ok _ _ _ _ _ H1).
  destruct (_rollback_deploy_run host s1 Hsoft) as (s2 & rb & H2 & M2 & Hrb).
  rewrite (bind_ok _ _ _ _ _ H2).
  destruct (modify_record_run (set_status ROLLED_BACK) s2) as (s3 & H3 & M3).
  rewrite (bind_ok _ _ _ _ _ H3).
  destruct (modify_record_run (set_error cancelled_in_grace) s3)
    as (s4 & H4 & M4).
  unfold cancelled_in_grace in H4. rewrite (bind_ok _ _ _ _ _ H4).
  exists s4, rt, rb. split; [reflexivity | ]. split.
  - pose proof (advances_moves _ _ _ _ _ _ A1
                  (moves_moves _ _ _ _ _ _ _
                     (moves_moves _ _ _ _ _ _ _ M2 M3) M4)) as M.
    cbv beta in M. rewrite !app_nil_r in M. exact M.
  - destruct A1 as (_ & _ & <- & _). exact Hrb.
Qed.

(** Cancellation seen at the top of an iteration. *)
Lemma iteration_head_cancelled (deploy_id new_image : string)
    (hct grace : Z) (osc oc : bool) (old_pod : Pod.t) (s : St W) :
  soft_failures host ->
  _deploy_cancelled s = true ->
  exists s' rb,
    iteration_head host deploy_id new_image hct grace osc oc old_pod s
    = (s', Ok None)
    /\ moves (fun r => set_error cancelled_at_top
                         (set_status ROLLED_BACK (set_status ROLLING_BACK r)))
         s s' rb
    /\ rollback_events (completed_pairs s) rb.
Proof.
  intros Hsoft Hc. unfold iteration_head.
  unfold bind at 1. unfold get_cancelled. rewrite Hc.
  destruct (_rollback_deploy_run host s Hsoft) as (s2 & rb & H2 & M2 & Hrb).
  rewrite (bind_ok _ _ _ _ _ H2).
  destruct (modify_record_run (set_status ROLLED_BACK) s2) as (s3 & H3 & M3).
  rewrite (bind_ok _ _ _ _ _ H3).
  destruct (modify_record_run (set_error cancelled_at_top) s3)
    as (s4 & H4 & M4).
  unfold cancelled_at_top in H4. rewrite (bind_ok _ _ _ _ _ H4).
  exists s4, rb. split; [reflexivity | ]. split; [ | exact Hrb].
  pose proof (moves_moves _ _ _ _ _ _ _
                (moves_moves _ _ _ _ _ _ _ M2 M3) M4) as M.
  cbv beta in M. rewrite !app_nil_r in M. exact M.
Qed.


Lemma within_untouched (targets : list Pod.t) (known : list string)
    (evs : list Event) :
  Forall (within known) evs -> untouched targets known evs.
Proof.
  intros H q _ Hq ev Hin Ht. rewrite Forall_forall in H.
  apply Hq. exact (H ev Hin _ Ht).
Qed.

Lemma rollback_events_quiet (pairs : list (Pod.t * Pod.t)) (rb : list Event) :
  rollback_events pairs rb ->
  created_in rb = []
  /\ create_attempts rb = []
  /\ Forall (within (map Pod.id (map fst pairs)
                       ++ map Pod.id (map snd pairs))) rb.
Proof.
  induction 1 as [ | old_pod new_pod rt rr pairs evs _ (IH1 & IH2 & IH3)].
  - conjs; try reflexivity. constructor.
  - conjs; try assumption.
    constructor; [ | constructor].
    + intros pid Ht. simpl in Ht. subst pid.
      apply in_or_app. right. simpl. now left.
    + intros pid Ht. simpl in Ht. subst pid.
      apply in_or_app. left. simpl. now left.
    + eapply within_mono; [ | exact IH3].
      intros pid Hin. apply in_app_or in Hin. apply in_or_app.
      destruct Hin as [Hin | Hin]; [left | right]; simpl; now right.
Qed.

Lemma deploy_begin_inv (target_pods : list Pod.t) (new_image : string)
    (s s0 : St W) (did : string) (start : Z) :
  deploy_begin host target_pods new_image s = (s0, Ok (did, start)) ->
  trace s0 = trace s /\ completed_pairs s0 = [].
Proof.
  intro H.
  destruct (uuid4_hex8 host (world s)) as [w1 did'] eqn:Hu.
  destruct (now host w1) as [w2 start'] eqn:Hn.
  destruct (deploy_begin_run host target_pods new_image s w1 w2 did' start'
              Hu Hn) as (s0' & H0 & _ & T0 & _ & _ & P0 & _).
  rewrite H0 in H. injection H as <- _ _. now split.
Qed.

(** C2 (amended): let [terminate_pod] and [resume_pod] fail with nothing
    but [RunPodError], and let the targets before [old_pod] have completed
    their pairs.
    (1) If the grace-period wait of [old_pod] ends with cancellation
    requested, then the replacement just created is terminated, after which
    each completed pair, in order, has its new pod terminated and its old pod
    resumed at its own GPU count (failures of these calls being ignored); the
    record returned has status rolled_back and the note "Cancelled by user
    during grace period"; one pod was created per target up to [old_pod] and
    none after, and no later target is touched.
    (2) If cancellation is requested when the iteration on [old_pod] starts,
    the same rollback is done, with status rolled_back and the note
    "Cancelled by user", and neither [old_pod] nor a later target is
    touched. *)
Theorem cancellation_rolls_back (s s0 sk : St W)
    (pre : list Pod.t) (old_pod : Pod.t) (post : list Pod.t)
    (new_image : string) (grace_period_minutes health_check_timeout : Z)
    (on_state_change on_progress on_countdown : bool)
    (did : string) (start : Z) :
  soft_failures host ->
  deploy_begin host (pre ++ old_pod :: post) new_image s
  = (s0, Ok (did, start)) ->
  deploy_prefix host did new_image health_check_timeout
    (grace_period_minutes * 60)
    (Z.of_nat (List.length (pre ++ old_pod :: post)))
    on_state_change on_progress on_countdown pre s0 = (sk, Ok Continue) ->
  (forall (sg : St W) (new_pod : Pod.t),
     iteration_head host did new_image health_check_timeout
       (grace_period_minutes * 60) on_state_change on_countdown old_pod sk
     = (sg, Ok (Some new_pod)) ->
     _deploy_cancelled sg = true ->
     exists s' record rt rb evs,
       rolling_deploy host (pre ++ old_pod :: post) new_image
         grace_period_minutes health_check_timeout
         on_state_change on_progress on_countdown s = (s', Ok record)
       /\ trace s' = (trace sg ++ EvTerminate (Pod.id new_pod) rt :: rb)%list
       /\ rollback_events (completed_pairs sk) rb
       /\ map fst (completed_pairs sk) = pre
       /\ status record = ROLLED_BACK
       /\ error record = cancelled_in_grace
       /\ trace s' = (trace s ++ evs)%list
       /\ created_in evs = (map snd (completed_pairs sk) ++ [new_pod])%list
       /\ List.length (create_attempts evs) = S (List.length pre)
       /\ untouched post
            (map Pod.id (pre ++ [old_pod]) ++ map Pod.id (created_in evs)) evs)
  /\ (_deploy_cancelled sk = true ->
      exists s' record rb evs,
        rolling_deploy host (pre ++ old_pod :: post) new_image
          grace_period_minutes health_check_timeout
          on_state_change on_progress on_countdown s = (s', Ok record)
        /\ trace s' = (trace sk ++ rb)%list
        /\ rollback_events (completed_pairs sk) rb
        /\ map fst (completed_pairs sk) = pre
        /\ status record = ROLLED_BACK
        /\ error record = cancelled_at_top
        /\ trace s' = (trace s ++ evs)%list
        /\ created_in evs = map snd (completed_pairs sk)
        /\ List.length (create_attempts evs) = List.length pre
        /\ untouched (old_pod :: post)
             (map Pod.id pre ++ map Pod.id (created_in evs)) evs).
Proof.
  intros Hsoft Hbegin Hpre.
  destruct (deploy_begin_inv _ _ _ _ _ _ Hbegin) as [T0 P0].
  destruct (deploy_prefix_completed _ _ _ _ _ _ _ _ _ _ _ Hpre)
    as (evs1 & pairs & T1 & R1 & P1 & F1 & Hfst & C1 & N1 & K1).
  rewrite P0 in P1. simpl in P1.
  split.
  - intros sg new_pod Hhead Hc.
    destruct (iteration_head_reached _ _ _ _ _ _ _ _ _ _ Hhead)
      as (evs2 & A2 & C2 & N2 & K2).
    destruct (iteration_tail_cancelled
                (Z.of_nat (List.length (pre ++ old_pod :: post)))
                on_state_change on_progress old_pod new_pod sg Hsoft Hc)
      as (s4 & rt & rb & H4 & M4 & Hrb).
    destruct (deploy_end_run host start s4) as (s' & finish & H5 & T5 & _).
    assert (Hpairs : completed_pairs sg = completed_pairs sk)
      by apply A2.
    rewrite Hpairs in Hrb.
    destruct (rollback_events_quiet _ _ Hrb) as (C3 & N3 & K3).
    exists s', (set_duration_seconds (finish - start) (record_cell s4)), rt, rb,
      (evs1 ++ evs2 ++ EvTerminate (Pod.id new_pod) rt :: rb)%list.
    assert (Hcreated :
              created_in (evs1 ++ evs2 ++ EvTerminate (Pod.id new_pod) rt :: rb)
              = (map snd (completed_pairs sk) ++ [new_pod])%list).
    { rewrite !created_in_app, C1, C2, P1.
      change (created_in (EvTerminate (Pod.id new_pod) rt :: rb))
        with (created_in rb).
      rewrite C3, app_nil_r. reflexivity. }
    conjs.
    + unfold rolling_deploy. rewrite (bind_ok _ _ _ _ _ Hbegin). cbn [fst snd].
      erewrite bind_ok; [exact H5 | ].
      apply try_except_ok.
      rewrite (deploy_loop_split _ _ _ _ _ _ _ _ _ _ _ _ Hpre).
      cbn [deploy_loop].
      erewrite bind_ok; cycle 1.
      { unfold deploy_iteration. rewrite (bind_ok _ _ _ _ _ Hhead). exact H4. }
      reflexivity.
    + rewrite T5. apply M4.
    + exact Hrb.
    + rewrite P1. exact Hfst.
    + destruct M4 as (_ & -> & _). reflexivity.
    + destruct M4 as (_ & -> & _). reflexivity.
    + rewrite T5. destruct M4 as (-> & _). destruct A2 as (-> & _).
      rewrite T1, T0, <- !app_assoc. reflexivity.
    + exact Hcreated.
    + rewrite !create_attempts_app, !length_app, N1, N2.
      change (create_attempts (EvTerminate (Pod.id new_pod) rt :: rb))
        with (create_attempts rb).
      rewrite N3. simpl. lia.
    + apply within_untouched. rewrite Hcreated, P1.
      repeat (apply Forall_app; split).
      * eapply within_mono; [ | exact K1].
        rewrite C1. intros pid Hin. rewrite !map_app, !in_app_iff in *. tauto.
      * eapply about_within; [ | | exact K2].
        -- rewrite !map_app, !in_app_iff. left. right. simpl. now left.
        -- rewrite !map_app, !in_app_iff. right. right. simpl. now left.
      * constructor.
        -- intros pid Ht. simpl in Ht. subst pid.
           rewrite !map_app, !in_app_iff. right. right. simpl. now left.
        -- eapply within_mono; [ | exact K3].
           rewrite P1, Hfst. intros pid Hin.
           rewrite !map_app, !in_app_iff in *. tauto.
  - intro Hc.
    destruct (iteration_head_cancelled did new_image health_check_timeout
                (grace_period_minutes * 60) on_state_change on_countdown
                old_pod sk Hsoft Hc)
      as (s4 & rb & H4 & M4 & Hrb).
    destruct (deploy_end_run host start s4) as (s' & finish & H5 & T5 & _).
    destruct (rollback_events_quiet _ _ Hrb) as (C3 & N3 & K3).
    exists s', (set_duration_seconds (finish - start) (record_cell s4)), rb,
      (evs1 ++ rb)%list.
    assert (Hcreated : created_in (evs1 ++ rb) = map snd (completed_pairs sk)).
    { rewrite created_in_app, C1, C3, P1, app_nil_r. reflexivity. }
    conjs.
    + unfold rolling_deploy. rewrite (bind_ok _ _ _ _ _ Hbegin). cbn [fst snd].
      erewrite bind_ok; [exact H5 | ].
      apply try_except_ok.
      rewrite (deploy_loop_split _ _ _ _ _ _ _ _ _ _ _ _ Hpre).
      cbn [deploy_loop].
      erewrite bind_ok; cycle 1.
      { unfold deploy_iteration. rewrite (bind_ok _ _ _ _ _ H4). reflexivity. }
      reflexivity.
    + rewrite T5. apply M4.
    + exact Hrb.
    + rewrite P1. exact Hfst.
    + destruct M4 as (_ & -> & _). reflexivity.
    + destruct M4 as (_ & -> & _). reflexivity.
    + rewrite T5. destruct M4 as (-> & _).
      rewrite T1, T0, <- !app_assoc. reflexivity.
    + exact Hcreated.
    + rewrite create_attempts_app, length_app, N1, N3. simpl. lia.
    + apply within_untouched. rewrite Hcreated, P1.
      apply Forall_app; split.
      * rewrite <- C1. exact K1.
      * eapply within_mono; [ | exact K3].
        rewrite P1, Hfst. intros pid Hin. exact Hin.
Qed.

End Cancellation.

(** The scenario of the specification: three targets, a grace period of one
    minute, and a cancellation during the grace period of the second. What
    is done after the wait: the replacement of the second pod is terminated,
    then the first pair is rolled back; the third pod is never named. *)
Example cancel_during_second_grace :
  let run := rolling_deploy (Script.cancelling 70) Script.three_pods "img:2"
               1 10 true true false Script.fresh in
  option_map status
    (match snd run with Ok r => Some r | _ => None end) = Some ROLLED_BACK
  /\ skipn 79 (trace (fst run))
     = [EvTerminate "r63" (inr tt); EvTerminate "r0" (inr tt);
        EvResume "p1" 2 (inr tt)]
  /\ forallb (fun ev => match ev with
                        | EvStateChange "p3" _ _ => false
                        | EvGet "p3" _ => false
                        | EvTerminate "p3" _ => false
                        | EvResume "p3" _ _ => false
                        | EvStop "p3" _ => false
                        | _ => true
                        end) (trace (fst run)) = true.
Proof. vm_compute. repeat split. Qed.

(** The same targets with the cancellation requested while the first old
    pod is being terminated: it is seen at the top of the second iteration,
    before any work on the second pod. *)
Example cancel_before_second_pod :
  let run := rolling_deploy (Script.cancelling 63) Script.three_pods "img:2"
               1 10 true true false Script.fresh in
  match snd run with
  | Ok r => status r = ROLLED_BACK /\ error r = "Cancelled by user"
  | _ => False
  end
  /\ skipn 69 (trace (fst run))
     = [EvTerminate "r0" (inr tt); EvResume "p1" 2 (inr tt)]
  /\ List.length (create_attempts (trace (fst run))) = 1%nat.
Proof. vm_compute. repeat split. Qed.

(** The amended C2 on the run cancelled during the second grace period. *)
Lemma cancellation_witness :
  let h := Script.cancelling 70 in
  let p2 := Script.pod "p2" "RUNNING" (Some 120) in
  let new_pod := Script.pod "r63" "RUNNING" None in
  let s0 := fst (deploy_begin h Script.three_pods "img:2" Script.fresh) in
  let sk := fst (deploy_prefix h "0a1b2c3d" "img:2" 10 60 3 true true true
                   [Script.pod "p1" "RUNNING" (Some 120)] s0) in
  let sg := fst (iteration_head h "0a1b2c3d" "img:2" 10 60 true true p2 sk) in
  soft_failures h
  /\ _deploy_cancelled sg = true
  /\ exists s' record rt rb evs,
       rolling_deploy h Script.three_pods "img:2" 1 10 true true true
         Script.fresh = (s', Ok record)
       /\ trace s' = (trace sg ++ EvTerminate "r63" rt :: rb)%list
       /\ rollback_events (completed_pairs sk) rb
       /\ map fst (completed_pairs sk) = [Script.pod "p1" "RUNNING" (Some 120)]
       /\ status record = ROLLED_BACK
       /\ error record = cancelled_in_grace
       /\ trace s' = (trace Script.fresh ++ evs)%list
       /\ created_in evs = (map snd (completed_pairs sk) ++ [new_pod])%list
       /\ List.length (create_attempts evs) = 2%nat
       /\ untouched [Script.pod "p3" "RUNNING" (Some 120)]
            (["p1"; "p2"] ++ map Pod.id (created_in evs)) evs.
Proof.
  intros h p2 new_pod s0 sk sg.
  assert (Hs : soft_failures h) by (split; intros; discriminate).
  split; [exact Hs | ].
  split; [vm_compute; reflexivity | ].
  refine (proj1 (cancellation_rolls_back h Script.fresh s0 sk
                   [Script.pod "p1" "RUNNING" (Some 120)] p2
                   [Script.pod "p3" "RUNNING" (Some 120)] "img:2" 1 10
                   true true true "0a1b2c3d" 0 Hs _ _) sg new_pod _ _);
    vm_compute; reflexivity.
Defined.

(** C2, as stated, fails on runs where a terminate or resume call raises an
    exception that is no [RunPodError], as [RunPodClient] does on an HTTP
    error status. Three targets, a grace period of one minute, and a
    cancellation during the grace period of the second target, whose
    replacement is [r63]; the pair of the first target is ([p1], [r0]).
    On the first run the terminate call of [r63] raises: the pair is rolled
    back, but the status returned is rolling_back, not rolled_back, and the
    error is the text of the exception, not a cancellation note. On the
    second run the resume call of [p1] raises: [rolling_deploy] raises
    itself, so no record is returned, none is written to the history, and
    the deploy stays the active one. *)
Lemma cancellation_exception_not_rolled_back :
  let run1 := rolling_deploy (cancelling_but "r63" 0 70) Script.three_pods
                "img:2" 1 10 true true false Script.fresh in
  let run2 := rolling_deploy (cancelling_but "p1" 64 70) Script.three_pods
                "img:2" 1 10 true true false Script.fresh in
  (skipn 79 (trace (fst run1))
   = [EvTerminate "r63" (inl bad_gateway); EvTerminate "r0" (inr tt);
      EvResume "p1" 2 (inr tt)]
   /\ exists record,
        snd run1 = Ok record
        /\ status record = ROLLING_BACK
        /\ status record <> ROLLED_BACK
        /\ error record = str_exn bad_gateway
        /\ error record <> cancelled_in_grace)
  /\ (skipn 79 (trace (fst run2))
      = [EvTerminate "r63" (inr tt); EvTerminate "r0" (inr tt);
         EvResume "p1" 2 (inl bad_gateway); EvTerminate "r0" (inr tt);
         EvResume "p1" 2 (inl bad_gateway)]
      /\ snd run2 = Raise bad_gateway
      /\ (forall record, snd run2 <> Ok record)
      /\ history_file (fst run2) = None
      /\ _active_deploy (fst run2) <> None).
Proof.
  cbv zeta. split.
  - split; [vm_compute; reflexivity | ].
    eexists. split; [vm_compute; reflexivity | ].
    split; [reflexivity | ]. split; [discriminate | ].
    split; [reflexivity | ]. vm_compute. discriminate.
  - split; [vm_compute; reflexivity | ].
    assert (H : snd (rolling_deploy (cancelling_but "p1" 64 70)
                       Script.three_pods "img:2" 1 10 true true false
                       Script.fresh) = Raise bad_gateway)
      by (vm_compute; reflexivity).
    split; [exact H | ]. split.
    + intros record. rewrite H. discriminate.
    + split; [vm_compute; reflexivity | vm_compute; discriminate].
Qed.

(** ** Scale up *)

Section ScaleUp.

Context {W : Type}.
Variable host : Host W.




Lemma _record_deploy_trace (record : DeployRecord) (s : St W) :
  exists s', _record_deploy host record s = (s', Ok tt) /\ trace s' = trace s.
Proof.
  unfold _record_deploy. destruct (fs_error host (world s)).
  - now exists s.
  - eexists. split; reflexivity.
Qed.

Lemma new_deploy_id_run (s : St W) :
  exists s' d, new_deploy_id host s = (s', Ok d) /\ trace s' = trace s.
Proof.
  unfold new_deploy_id. destruct (uuid4_hex8 host (world s)) as [w d].
  eexists; exists d. split; reflexivity.
Qed.

Lemma datetime_now_run (s : St W) :
  exists s' t, datetime_now host s = (s', Ok t) /\ trace s' = trace s.
Proof.
  unfold datetime_now. destruct (now host (world s)) as [w t].
  eexists; exists t. split; reflexivity.
Qed.








End ScaleUp.

(** The search for the capacity message ignores letter case. *)
Example capacity_message_any_case :
  is_capacity_error
    (RunPodError "There are NO LONGER ANY Instances Available in this region")
  = true
  /\ is_capacity_error (RunPodError "quota exceeded") = false.
Proof. split; reflexivity. Qed.

(** The two scale-up examples of the specification. Five pods asked for,
    the third creation failing for lack of capacity: two pods, status
    completed, and both the failure and the note in the error field. *)
Example scale_up_stops_at_third :
  let h := Script.host (Script.create_but 2 Script.no_capacity) Script.up
             Script.always_ok Script.never Script.first_done in
  let run := scale_up h 5 "w" "img:2" "NVIDIA A40" 1 "ALL" 20 20 "8888/http"
               "/workspace" None None true Script.fresh in
  match snd run with
  | Ok r =>
      pod_count r = 2 /\ pod_ids r = ["r0"; "r1"] /\ status r = COMPLETED
      /\ error r
         = "Pod 3: There are no longer any instances available with the requested specifications.; Stopped after 2/5 — no GPUs available"
  | _ => False
  end
  /\ List.length (create_attempts (trace (fst run))) = 3%nat.
Proof. vm_compute. repeat split. Qed.

(** Three pods asked for, every creation failing for another reason: no
    pod, status failed. *)
Example scale_up_all_fail :
  let h := Script.host (Script.create_never (RunPodError "quota exceeded"))
             Script.up Script.always_ok Script.never Script.first_done in
  let run := scale_up h 3 "w" "img:2" "NVIDIA A40" 1 "ALL" 20 20 "8888/http"
               "/workspace" None None true Script.fresh in
  match snd run with
  | Ok r =>
      pod_count r = 0 /\ pod_ids r = [] /\ status r = FAILED
      /\ error r
         = "Pod 1: quota exceeded; Pod 2: quota exceeded; Pod 3: quota exceeded"
  | _ => False
  end
  /\ List.length (create_attempts (trace (fst run))) = 3%nat.
Proof. vm_compute. repeat split. Qed.

(** ** Scale down *)

Section ScaleDown.

Context {W : Type}.
Variable host : Host W.

Lemma _stop_one_run (action : string) (on_progress : bool) (total : Z)
    (pod_id : string) (index : nat) (s : St W) :
  exists s' r,
    _stop_one host action on_progress total pod_id index s
    = (s', Ok (task_result pod_id r))
    /\ advances s s' (task_events action on_progress total pod_id index r)
    /\ stop_calls (task_events action on_progress total pod_id index r)
       = [(pod_id, r)].
Proof.
  unfold _stop_one, try_except, task_events.
  unfold bind at 1.
  destruct (String.eqb action "terminate").
  - unfold client_terminate_pod.
    destruct (terminate_pod host pod_id (world s)) as [w r].
    set (s1 := resumed host w [EvTerminate pod_id r] s).
    assert (A1 : advances s s1 [EvTerminate pod_id r])
      by apply advances_resumed.
    destruct r as [e | []]; cbn [of_result].
    + exists s1, (inl e). split; [reflexivity | ]. split; [exact A1 | reflexivity].
    + destruct (when_emit_run on_progress
                  (EvProgress (Z.of_nat index + 1) total) s1)
        as (s2 & H2 & A2 & _ & _).
      rewrite (bind_ok _ _ _ _ _ H2). unfold ret.
      exists s2, (inr tt). split; [reflexivity | ]. split.
      * exact (advances_trans _ _ _ _ _ A1 A2).
      * destruct on_progress; reflexivity.
  - unfold client_stop_pod.
    destruct (stop_pod host pod_id (world s)) as [w r].
    set (s1 := resumed host w [EvStop pod_id r] s).
    assert (A1 : advances s s1 [EvStop pod_id r])
      by apply advances_resumed.
    destruct r as [e | []]; cbn [of_result].
    + exists s1, (inl e). split; [reflexivity | ]. split; [exact A1 | reflexivity].
    + destruct (when_emit_run on_progress
                  (EvProgress (Z.of_nat index + 1) total) s1)
        as (s2 & H2 & A2 & _ & _).
      rewrite (bind_ok _ _ _ _ _ H2). unfold ret.
      exists s2, (inr tt). split; [reflexivity | ]. split.
      * exact (advances_trans _ _ _ _ _ A1 A2).
      * destruct on_progress; reflexivity.
Qed.

Lemma pending_from_length (tasks : list task) :
  forall b, List.length (pending_from b tasks) = npending tasks.
Proof.
  unfold npending.
  induction tasks as [ | [pid [r | ]] tasks IH]; intro b; simpl.
  - reflexivity.
  - apply IH.
  - now rewrite IH.
Qed.

(** An index in flight splits the tasks at a task without result. *)
Lemma pending_from_split (tasks : list task) :
  forall b i,
    In i (pending_from b tasks) ->
    exists l1 pid l2,
      tasks = (l1 ++ (pid, None) :: l2)%list
      /\ i = (b + List.length l1)%nat.
Proof.
  induction tasks as [ | [pid [r | ]] tasks IH]; intros b i Hin; simpl in Hin.
  - contradiction.
  - destruct (IH _ _ Hin) as (l1 & pid' & l2 & -> & ->).
    exists ((pid, Some r) :: l1), pid', l2. split; [reflexivity | simpl; lia].
  - destruct Hin as [<- | Hin].
    + exists [], pid, tasks. split; [reflexivity | simpl; lia].
    + destruct (IH _ _ Hin) as (l1 & pid' & l2 & -> & ->).
      exists ((pid, None) :: l1), pid', l2. split; [reflexivity | simpl; lia].
Qed.

Lemma set_nth_middle {A} (l1 l2 : list A) (x y : A) :
  set_nth (List.length l1) y (l1 ++ x :: l2) = (l1 ++ y :: l2)%list.
Proof.
  induction l1 as [ | a l1 IH]; simpl; [reflexivity | now rewrite IH].
Qed.

Lemma nth_middle_task (l1 l2 : list task) (x d : task) :
  nth (List.length l1) (l1 ++ x :: l2) d = x.
Proof.
  induction l1 as [ | a l1 IH]; simpl; [reflexivity | exact IH].
Qed.

Lemma npending_middle (l1 l2 : list task) (pid : string)
    (o : option (result string)) :
  npending (l1 ++ (pid, o) :: l2)
  = (npending l1 + match o with Some _ => 0 | None => 1 end
     + npending l2)%nat.
Proof.
  unfold npending. rewrite filter_app, length_app. simpl.
  destruct o; simpl; lia.
Qed.

Lemma done_calls_app (l1 l2 : list task) :
  done_calls (l1 ++ l2) = (done_calls l1 ++ done_calls l2)%list.
Proof. unfold done_calls. apply flat_map_app. Qed.

Lemma stop_calls_app (e1 e2 : list Event) :
  stop_calls (e1 ++ e2) = (stop_calls e1 ++ stop_calls e2)%list.
Proof. unfold stop_calls. apply flat_map_app. Qed.

(** The [gather]: every task in flight is resumed once, in the order the
    host chooses, and none is left in flight. *)
Lemma gather_run (action : string) (on_progress : bool) (total : Z)
    (rounds : nat) :
  forall (tasks : list task) (s : St W),
    (npending tasks <= rounds)%nat ->
    exists s' tasks' evs,
      gather host rounds action on_progress total tasks s = (s', Ok tasks')
      /\ advances s s' evs
      /\ map fst tasks' = map fst tasks
      /\ npending tasks' = 0%nat
      /\ Permutation (done_calls tasks')
           (done_calls tasks ++ stop_calls evs)
      /\ Forall (fun ev => exists pid index r,
                             In ev (task_events action on_progress total
                                      pid index r)) evs.
Proof.
  induction rounds as [ | rounds IH]; intros tasks s Hle.
  - exists s, tasks, []. simpl. rewrite app_nil_r.
    conjs; try reflexivity.
    + apply advances_refl.
    + lia.
    + constructor.
  - cbn [gather].
    destruct (pending tasks) as [ | p ps] eqn:Hp.
    + exists s, tasks, []. simpl. rewrite app_nil_r.
      conjs; try reflexivity.
      * apply advances_refl.
      * unfold pending in Hp. rewrite <- (pending_from_length tasks 0), Hp.
        reflexivity.
      * constructor.
    + set (k := Nat.modulo _ _).
      set (index := nth k (p :: ps) p).
      assert (Hin : In index (pending_from 0 tasks)).
      { fold (pending tasks). rewrite Hp. apply nth_In.
        apply Nat.mod_upper_bound. discriminate. }
      destruct (pending_from_split _ _ _ Hin) as (l1 & pid & l2 & Htasks & Hidx).
      simpl in Hidx. rewrite Htasks, Hidx, nth_middle_task. cbn [fst].
      destruct (_stop_one_run action on_progress total pid (List.length l1) s)
        as (s1 & r & H1 & A1 & Hcalls).
      rewrite (bind_ok _ _ _ _ _ H1), set_nth_middle.
      rewrite Htasks, npending_middle in Hle.
      destruct (IH (l1 ++ (pid, Some (task_result pid r)) :: l2)%list s1)
        as (s' & tasks' & evs & Hrun & A2 & Hfst & Hnone & Hperm & Hev).
      { rewrite npending_middle. lia. }
      exists s', tasks',
        (task_events action on_progress total pid (List.length l1) r ++ evs)%list.
      conjs.
      * exact Hrun.
      * exact (advances_trans _ _ _ _ _ A1 A2).
      * rewrite Hfst, !map_app. reflexivity.
      * exact Hnone.
      * rewrite Hperm, stop_calls_app, Hcalls, !done_calls_app. simpl.
        assert (Hout : call_outcome (task_result pid r) = r)
          by (destruct r as [e | []]; reflexivity).
        rewrite Hout, <- !app_assoc. apply Permutation_app_head. simpl.
        apply Permutation_cons_app, Permutation_refl.
      * apply Forall_app. split; [ | exact Hev].
        apply Forall_forall. intros ev Hin'. now exists pid, (List.length l1), r.
Qed.

Lemma all_returned (tasks : list task) :
  npending tasks = 0%nat ->
  exists outcomes,
    List.length outcomes = List.length tasks
    /\ done_calls tasks = combine (map fst tasks) outcomes
    /\ result_errors (gather_results tasks) = failure_messages outcomes.
Proof.
  unfold npending.
  induction tasks as [ | [pid [r | ]] tasks IH]; simpl; intro H.
  - exists []. now conjs.
  - destruct (IH H) as (outcomes & Hlen & Hcalls & Herr).
    exists (call_outcome r :: outcomes). simpl. conjs.
    + now rewrite Hlen.
    + unfold done_calls in *. simpl. now rewrite Hcalls.
    + unfold gather_results, result_errors, failure_messages in *. simpl.
      rewrite Herr. destruct r; reflexivity.
  - discriminate H.
Qed.

Lemma fresh_tasks (pod_ids : list string) :
  let tasks := map (fun pid => (pid, @None (result string))) pod_ids in
  npending tasks = List.length pod_ids
  /\ done_calls tasks = []
  /\ map fst tasks = pod_ids.
Proof.
  induction pod_ids as [ | pid pod_ids (IH1 & IH2 & IH3)]; simpl.
  - now conjs.
  - unfold npending, done_calls in *. simpl. conjs.
    + now rewrite IH1.
    + exact IH2.
    + now rewrite IH3.
Qed.

(** C5: [scale_down] always returns a record, whose pod count and pod ids
    are those asked for. Every pod id gets exactly one stop (or terminate,
    when that is the action) call, whatever the outcomes of the other calls:
    the calls of the trace are the pod ids paired with a list of outcomes, up
    to the order of completion. The status is failed exactly when one of
    these outcomes is an exception, completed otherwise, and the error field
    is the messages of the exceptions, in the order of the pod ids, joined by
    "; ". *)
Theorem scale_down_outcome (requested : list string) (action : string)
    (on_progress : bool) (s : St W) :
  exists s' record evs outcomes,
    scale_down host requested action on_progress s = (s', Ok record)
    /\ trace s' = (trace s ++ evs)%list
    /\ pod_count record = Z.of_nat (List.length requested)
    /\ pod_ids record = requested
    /\ List.length outcomes = List.length requested
    /\ Permutation (combine requested outcomes) (stop_calls evs)
    /\ (forall pid r, In (EvTerminate pid r) evs -> action = "terminate")
    /\ (forall pid r, In (EvStop pid r) evs -> action <> "terminate")
    /\ (status record = FAILED <-> exists e, In (inl e) outcomes)
    /\ (status record <> FAILED -> status record = COMPLETED)
    /\ error record = PyStr.join "; " (failure_messages outcomes).
Proof.
  unfold scale_down.
  destruct (new_deploy_id_run host s) as (s1 & did & H1 & T1).
  rewrite (bind_ok _ _ _ _ _ H1).
  destruct (datetime_now_run host s1) as (s2 & start & H2 & T2).
  rewrite (bind_ok _ _ _ _ _ H2).
  destruct (fresh_tasks requested) as (Hn0 & Hd0 & Hf0).
  destruct (gather_run action on_progress (Z.of_nat (List.length requested))
              (List.length requested)
              (map (fun pid => (pid, None)) requested) s2 ltac:(lia))
    as (s3 & tasks & evs & Hrun & A3 & Hfst & Hnone & Hperm & Hkinds).
  rewrite (bind_ok _ _ _ _ _ Hrun).
  destruct (all_returned tasks Hnone) as (outcomes & Hlen & Hcalls & Herrs).
  rewrite Herrs.
  destruct (datetime_now_run host s3) as (s4 & finish & H4 & T4).
  rewrite (bind_ok _ _ _ _ _ H4).
  match goal with
  | |- context [_record_deploy host ?r] => set (record := r)
  end.
  destruct (_record_deploy_trace host record s4) as (s5 & H5 & T5).
  rewrite (bind_ok _ _ _ _ _ H5). unfold ret.
  exists s5, record, evs, outcomes. split; [reflexivity | ].
  rewrite Hd0 in Hperm. simpl in Hperm.
  rewrite Hcalls, Hfst, Hf0 in Hperm.
  assert (Hfail : (exists e, In (@inl exn unit e) outcomes)
                  <-> failure_messages outcomes <> []).
  { clear. induction outcomes as [ | [e | u] outcomes IH]; simpl.
    - split; [intros [e []] | intro H; now contradiction H].
    - split; [discriminate | ]. intros _. exists e. now left.
    - unfold failure_messages in IH. rewrite <- IH. split.
      + intros [e [He | He]]; [discriminate He | now exists e].
      + intros [e He]. exists e. now right. }
  conjs.
  - rewrite T5, T4, <- T1, <- T2. apply A3.
  - subst record. destruct (failure_messages outcomes); reflexivity.
  - subst record. destruct (failure_messages outcomes); reflexivity.
  - pose proof (f_equal (@List.length _) Hfst) as Hl.
    rewrite !length_map in Hl. rewrite Hlen. exact Hl.
  - exact Hperm.
  - intros pid r Hin. rewrite Forall_forall in Hkinds.
    destruct (Hkinds _ Hin) as (pid' & index & r' & Hin').
    unfold task_events in Hin'.
    destruct (String.eqb_spec action "terminate") as [-> | Hne];
      [reflexivity | ].
    destruct Hin' as [E | Hin']; [discriminate E | ].
    destruct r' as [e | u]; [contradiction | ].
    destruct on_progress; [ | contradiction].
    destruct Hin' as [E | []]. discriminate E.
  - intros pid r Hin. rewrite Forall_forall in Hkinds.
    destruct (Hkinds _ Hin) as (pid' & index & r' & Hin').
    unfold task_events in Hin'.
    destruct (String.eqb_spec action "terminate") as [-> | Hne];
      [ | exact Hne].
    destruct Hin' as [E | Hin']; [discriminate E | ].
    destruct r' as [e | u]; [contradiction | ].
    destruct on_progress; [ | contradiction].
    destruct Hin' as [E | []]. discriminate E.
  - subst record.
    destruct (failure_messages outcomes) as [ | m ms] eqn:Hm; simpl.
    + split; [discriminate | ]. intro H. exfalso.
      now apply (proj1 Hfail H).
    + split; [ | reflexivity]. intros _. apply Hfail. discriminate.
  - subst record. destruct (failure_messages outcomes); simpl.
    + reflexivity.
    + intro H. now contradiction H.
  - subst record. destruct (failure_messages outcomes); reflexivity.
Qed.

End ScaleDown.

(** The scale-down example of the specification: four pod ids, the stop of
    one of them failing. *)
Example scale_down_partial_failure :
  let stops := fun (pid : string) (_ : nat) =>
                 if String.eqb pid "c" then inl (RunPodError "pod not found")
                 else inr tt in
  let h := Script.host Script.create_ok Script.up stops Script.never
             Script.first_done in
  let run := scale_down h ["a"; "b"; "c"; "d"] "stop" true Script.fresh in
  match snd run with
  | Ok r =>
      status r = FAILED /\ error r = "pod not found" /\ pod_count r = 4
      /\ pod_ids r = ["a"; "b"; "c"; "d"]
  | _ => False
  end
  /\ stop_calls (trace (fst run))
     = [("a", inr tt); ("b", inr tt); ("c", inl (RunPodError "pod not found"));
        ("d", inr tt)].
Proof. vm_compute. repeat split. Qed.

(** C6 on two pod ids whose calls both succeed, the call on the second being
    answered first: [on_progress] is invoked after each call, in the order of
    completion, but its first argument is the position of the pod in the
    request plus one, not the number of calls completed: it is 2 when one
    call has completed, and 1 when both have. *)
Theorem scale_down_progress_reports_position :
  let h := Script.host Script.create_ok Script.up Script.always_ok Script.never
             Script.last_done in
  let run := scale_down h ["a"; "b"] "stop" true Script.fresh in
  trace (fst run)
  = [EvStop "b" (inr tt); EvProgress 2 2; EvStop "a" (inr tt); EvProgress 1 2].
Proof. vm_compute. reflexivity. Qed.

(* ================================================================== *)
(** * Further properties *)

(** ** Environment variables of a creation request *)

Module EnvFacts.

Lemma split_once_some (sep : ascii) (s : string) :
  forall k v,
    Text.split_once sep s = Some (k, v) ->
    s = k ++ String sep v /\ ~ In sep (list_ascii_of_string k).
Proof.
  induction s as [ | c t IH]; intros k v H; simpl in H; [discriminate H | ].
  destruct (Ascii.eqb_spec c sep) as [-> | Hne].
  - injection H as <- <-. split; [reflexivity | intros []].
  - destruct (Text.split_once sep t) as [[k' v'] | ]; [ | discriminate H].
    injection H as <- <-. destruct (IH _ _ eq_refl) as [-> Hk].
    split; [reflexivity | ]. simpl. intros [E | Hin]; [now apply Hne | now apply Hk].
Qed.

Lemma split_once_none (sep : ascii) (s : string) :
  Text.split_once sep s = None <-> ~ In sep (list_ascii_of_string s).
Proof.
  induction s as [ | c t IH]; simpl.
  - split; [intros _ [] | reflexivity].
  - destruct (Ascii.eqb_spec c sep) as [-> | Hne].
    + split; [discriminate | ]. intro H. exfalso. apply H. now left.
    + destruct (Text.split_once sep t) as [[k' v'] | ].
      * split; [discriminate | ]. intro H. exfalso.
        assert (Hn : @None (string * string) = None) by reflexivity.
        destruct IH as [_ IH]. 
        assert (Ht : ~ In sep (list_ascii_of_string t))
          by (intro Hin; apply H; now right).
        specialize (IH Ht). discriminate IH.
      * split; [ | reflexivity]. intros _ [E | Hin]; [now apply Hne | ].
        now apply (proj1 IH eq_refl).
Qed.

Lemma split_once_join (sep : ascii) (k v : string) :
  ~ In sep (list_ascii_of_string k) ->
  Text.split_once sep (k ++ String sep v) = Some (k, v).
Proof.
  induction k as [ | c k IH]; simpl; intro H.
  - now rewrite Ascii.eqb_refl.
  - destruct (Ascii.eqb_spec c sep) as [-> | Hne].
    + exfalso. apply H. now left.
    + rewrite IH; [reflexivity | ]. intro Hin. apply H. now right.
Qed.

(** X1: the key of the variable built from an item never contains "=";
    an item with an "=" is its key, an "=" and its value (the split is at
    the first "="), and an item without one is a key with an empty value. *)
Theorem env_input_splits_at_first_equals (item : string) :
  let key := fst (env_input item) in
  let value := snd (env_input item) in
  ~ In equals_sign (list_ascii_of_string key)
  /\ (In equals_sign (list_ascii_of_string item) -> item = key ++ "=" ++ value)
  /\ (~ In equals_sign (list_ascii_of_string item) ->
      key = item /\ value = "").
Proof.
  unfold env_input.
  destruct (Text.split_once equals_sign item) as [[k v] | ] eqn:Hs; simpl.
  - destruct (split_once_some _ _ _ _ Hs) as [-> Hk].
    split; [exact Hk | ]. split; [reflexivity | ].
    intro H. exfalso. apply (split_once_none equals_sign (k ++ String equals_sign v)) in H.
    rewrite H in Hs. discriminate Hs.
  - apply split_once_none in Hs. split; [exact Hs | ].
    split; [intro H; now contradiction Hs | tauto].
Qed.

(** X2: the environment of a template survives the two conversions: the
    items ["k=v"] that the scale screen builds from the pairs of a non-empty
    environment are turned back into the same pairs by [create_pod],
    provided no key contains "=" (a value may). *)
Theorem env_round_trip (pairs : list (string * string)) :
  pairs <> [] ->
  (forall kv, In kv pairs ->
              ~ In equals_sign (list_ascii_of_string (fst kv))) ->
  env_inputs (Some (env_items pairs)) = Some pairs.
Proof.
  intros Hne Hkeys.
  assert (Hmap : map env_input (env_items pairs) = pairs).
  { clear Hne. induction pairs as [ | [k v] pairs IH]; [reflexivity | ].
    simpl. unfold env_input at 1.
    change (k ++ "=" ++ v) with (k ++ String equals_sign v).
    rewrite split_once_join by (apply (Hkeys (k, v)); now left).
    f_equal. apply IH. intros kv Hin. apply Hkeys. now right. }
  destruct pairs as [ | kv pairs]; [now contradiction Hne | ].
  change (env_inputs (Some (env_items (kv :: pairs))))
    with (Some (map env_input (env_items (kv :: pairs)))).
  now rewrite Hmap.
Qed.

Lemma env_round_trip_witness :
  env_inputs (Some (env_items [("HF_TOKEN", "abc"); ("ARGS", "--k=v")]))
  = Some [("HF_TOKEN", "abc"); ("ARGS", "--k=v")].
Proof.
  apply env_round_trip.
  - discriminate.
  - intros kv [<- | [<- | []]]; simpl; intro H;
      repeat (destruct H as [H | H]; [discriminate H | ]); exact H.
Defined.

End EnvFacts.

(** ** Display properties of a pod *)

Module PodFacts.

Ltac fin :=
  repeat split; intros;
  repeat match goal with
         | H : _ /\ _ |- _ => destruct H
         | H : _ \/ _ |- _ => destruct H
         end;
  try discriminate; try congruence; try tauto.

(** X3: the colour of a pod is green exactly when the health check of a
    rolling deploy would accept it; it is yellow exactly when the pod is
    wanted running and is not healthy, red exactly when its desired status is
    EXITED or STOPPED, and dim otherwise. *)
Theorem status_color_follows_health (pod : Pod.t) :
  (status_color pod = "green" <-> is_healthy pod = true)
  /\ (status_color pod = "yellow"
      <-> Pod.desired_status pod = "RUNNING" /\ is_healthy pod = false)
  /\ (status_color pod = "red"
      <-> Pod.desired_status pod = "EXITED"
          \/ Pod.desired_status pod = "STOPPED")
  /\ (status_color pod = "dim"
      <-> Pod.desired_status pod <> "RUNNING"
          /\ Pod.desired_status pod <> "EXITED"
          /\ Pod.desired_status pod <> "STOPPED").
Proof.
  unfold status_color, is_healthy.
  destruct (String.eqb_spec (Pod.desired_status pod) "RUNNING") as [Hr | Hr];
    cbn [andb].
  - destruct (match Pod.runtime pod with
              | Some rt => uptime_seconds rt >? 0
              | None => false
              end); fin.
  - destruct (String.eqb_spec (Pod.desired_status pod) "EXITED") as [He | He];
      cbn [orb]; [fin | ].
    destruct (String.eqb_spec (Pod.desired_status pod) "STOPPED")
      as [Hs | Hs]; fin.
Qed.

(** X4: a pod with a positive uptime is shown with the whole hours and the
    whole minutes of its uptime, minutes below 60, and with the hours only
    when there is at least one; a pod with no runtime or with an uptime of 0
    is shown as "--". *)
Theorem uptime_display_whole_minutes (pod : Pod.t) :
  (Pod.runtime pod = None -> uptime_display pod = "--")
  /\ (forall rt, Pod.runtime pod = Some rt -> uptime_seconds rt = 0 ->
                 uptime_display pod = "--")
  /\ (forall rt,
        Pod.runtime pod = Some rt -> 0 < uptime_seconds rt ->
        exists hours minutes,
          0 <= hours /\ 0 <= minutes < 60
          /\ hours * 3600 + minutes * 60 <= uptime_seconds rt
             < hours * 3600 + minutes * 60 + 60
          /\ uptime_display pod
             = if 3600 <=? uptime_seconds rt
               then PyStr.str_int hours ++ "h " ++ PyStr.str_int minutes ++ "m"
               else PyStr.str_int minutes ++ "m").
Proof.
  unfold uptime_display. split; [ | split].
  - now intros ->.
  - intros rt -> ->. reflexivity.
  - intros rt -> Hpos.
    destruct (Z.eqb_spec (uptime_seconds rt) 0) as [E | _]; [lia | ].
    set (secs := uptime_seconds rt) in *.
    exists (secs / 3600), (secs mod 3600 / 60).
    pose proof (Z.div_mod secs 3600 ltac:(lia)) as Hdm.
    pose proof (Z.mod_pos_bound secs 3600 ltac:(lia)) as Hm.
    pose proof (Z.div_mod (secs mod 3600) 60 ltac:(lia)) as Hdm2.
    pose proof (Z.mod_pos_bound (secs mod 3600) 60 ltac:(lia)) as Hm2.
    assert (Hh : 0 <= secs / 3600) by (apply Z.div_pos; lia).
    assert (Hmin : 0 <= secs mod 3600 / 60 < 60).
    { split; [apply Z.div_pos; lia | apply Z.div_lt_upper_bound; lia]. }
    split; [exact Hh | ]. split; [exact Hmin | ]. split; [lia | ].
    destruct (Z.leb_spec 3600 secs) as [Hge | Hlt].
    + assert (H1 : 1 <= secs / 3600) by (apply Z.div_le_lower_bound; lia).
      destruct (Z.gtb_spec (secs / 3600) 0) as [_ | H]; [reflexivity | lia].
    + rewrite (Z.div_small secs 3600) by lia. reflexivity.
Qed.

Lemma uptime_display_witness :
  uptime_display (Script.pod "p" "RUNNING" (Some 7384)) = "2h 3m"
  /\ exists hours minutes,
       0 <= hours /\ 0 <= minutes < 60
       /\ hours * 3600 + minutes * 60 <= 7384
          < hours * 3600 + minutes * 60 + 60
       /\ uptime_display (Script.pod "p" "RUNNING" (Some 7384))
          = if 3600 <=? 7384
            then PyStr.str_int hours ++ "h " ++ PyStr.str_int minutes ++ "m"
            else PyStr.str_int minutes ++ "m".
Proof.
  split; [reflexivity | ].
  apply (proj2 (proj2 (uptime_display_whole_minutes
                         (Script.pod "p" "RUNNING" (Some 7384))))
           {| uptime_seconds := 7384 |}).
  - reflexivity.
  - simpl. lia.
Defined.

End PodFacts.

(** ** Lines of the history file *)

Module LineFacts.

Lemma append_nil_r (s : string) : s ++ "" = s.
Proof. induction s as [ | c s IH]; simpl; [reflexivity | now rewrite IH]. Qed.

Lemma append_assoc (s1 s2 s3 : string) : (s1 ++ s2) ++ s3 = s1 ++ s2 ++ s3.
Proof. induction s1 as [ | c s1 IH]; simpl; [reflexivity | now rewrite IH]. Qed.

Lemma string_of_list_ascii_app (l1 l2 : list ascii) :
  string_of_list_ascii (l1 ++ l2)
  = string_of_list_ascii l1 ++ string_of_list_ascii l2.
Proof. induction l1 as [ | c l1 IH]; simpl; [reflexivity | now rewrite IH]. Qed.

Lemma clean_rev (cur : list ascii) : clean cur -> clean (rev cur).
Proof. unfold clean. apply Forall_rev. Qed.

(** Reading a line that ends with a line feed. *)
Lemma readlines_aux_line (rest : string) (body : list ascii) :
  clean body ->
  forall cur,
    PyStr.readlines_aux (string_of_list_ascii (body ++ [PyStr.nl]) ++ rest) cur
    = PyStr.string_of_rev (PyStr.nl :: rev body ++ cur)
        :: PyStr.readlines_aux rest [].
Proof.
  induction 1 as [ | c body [Hnl Hcr] _ IH]; intro cur.
  - simpl. reflexivity.
  - simpl. apply Ascii.eqb_neq in Hnl, Hcr. rewrite Hnl, Hcr, IH.
    rewrite <- app_assoc. reflexivity.
Qed.

(** Reading a last line that lacks its line feed. *)
Lemma readlines_aux_partial (body : list ascii) :
  clean body ->
  forall cur,
    body <> [] \/ cur <> [] ->
    PyStr.readlines_aux (string_of_list_ascii body) cur
    = [PyStr.string_of_rev (rev body ++ cur)].
Proof.
  induction 1 as [ | c body [Hnl Hcr] _ IH]; intros cur Hne.
  - simpl. destruct cur as [ | a cur]; [ | reflexivity].
    destruct Hne as [H | H]; now contradiction H.
  - simpl. apply Ascii.eqb_neq in Hnl, Hcr. rewrite Hnl, Hcr, IH.
    + rewrite <- app_assoc. reflexivity.
    + right. discriminate.
Qed.

(** Lines of the shape of [lines_ok] are read back as they are. *)
Lemma readlines_writelines (lines : list string) :
  lines_ok lines -> PyStr.readlines (PyStr.writelines lines) = lines.
Proof.
  unfold PyStr.readlines, PyStr.writelines.
  induction 1 as [ | c body Hclean | body rest Hclean Hrest IH].
  - reflexivity.
  - cbn [String.concat].
    rewrite (readlines_aux_partial (c :: body) Hclean [])
      by (left; discriminate).
    unfold PyStr.string_of_rev. now rewrite app_nil_r, rev_involutive.
  - assert (Hcat : String.concat "" (string_of_list_ascii (body ++ [PyStr.nl])
                                       :: rest)
                   = string_of_list_ascii (body ++ [PyStr.nl])
                     ++ String.concat "" rest).
    { destruct rest as [ | l rest]; simpl; [now rewrite append_nil_r | reflexivity]. }
    rewrite Hcat, readlines_aux_line by exact Hclean. rewrite IH.
    unfold PyStr.string_of_rev. rewrite app_nil_r.
    change (PyStr.nl :: rev body) with (rev [PyStr.nl] ++ rev body)%list.
    now rewrite <- rev_app_distr, rev_involutive.
Qed.

(** What [readlines] returns has that shape. *)
Lemma readlines_aux_ok (n : nat) :
  forall (s : string) (cur : list ascii),
    (String.length s <= n)%nat -> clean cur ->
    lines_ok (PyStr.readlines_aux s cur).
Proof.
  assert (Hline : forall cur rest,
            clean cur -> lines_ok rest ->
            lines_ok (PyStr.string_of_rev (PyStr.nl :: cur) :: rest)).
  { intros cur rest Hc Hr. unfold PyStr.string_of_rev. simpl rev.
    apply lines_ok_cons; [now apply clean_rev | exact Hr]. }
  induction n as [ | n IH]; intros s cur Hlen Hclean.
  - destruct s; [ | simpl in Hlen; lia].
    simpl. destruct cur as [ | a cur]; [constructor | ].
    unfold PyStr.string_of_rev.
    pose proof (clean_rev _ Hclean) as Hr.
    destruct (rev (a :: cur)) as [ | c body] eqn:E.
    + apply (f_equal (@List.length _)) in E. rewrite length_rev in E.
      discriminate E.
    + now constructor.
  - destruct s as [ | c t].
    + simpl. destruct cur as [ | a cur]; [constructor | ].
      unfold PyStr.string_of_rev.
      pose proof (clean_rev _ Hclean) as Hr.
      destruct (rev (a :: cur)) as [ | c body] eqn:E.
      * apply (f_equal (@List.length _)) in E. rewrite length_rev in E.
        discriminate E.
      * now constructor.
    + simpl in Hlen. cbn [PyStr.readlines_aux].
      destruct (Ascii.eqb_spec c PyStr.nl) as [_ | Hnl].
      { apply Hline; [exact Hclean | ]. apply IH; [lia | constructor]. }
      destruct (Ascii.eqb_spec c PyStr.cr) as [_ | Hcr].
      * destruct t as [ | c' t'].
        -- apply Hline; [exact Hclean | constructor].
        -- simpl in Hlen. destruct (Ascii.eqb c' PyStr.nl).
           ++ apply Hline; [exact Hclean | ]. apply IH; [lia | constructor].
           ++ apply Hline; [exact Hclean | ].
              apply IH; [simpl; lia | constructor].
      * apply IH; [lia | ]. constructor; [now split | exact Hclean].
Qed.

Lemma readlines_ok (content : string) : lines_ok (PyStr.readlines content).
Proof.
  apply (readlines_aux_ok (String.length content)); [lia | constructor].
Qed.

Lemma lines_ok_skipn (lines : list string) :
  lines_ok lines -> forall n, lines_ok (skipn n lines).
Proof.
  induction 1 as [ | c body Hclean | body rest Hclean Hrest IH]; intro n.
  - rewrite skipn_nil. constructor.
  - destruct n as [ | n]; simpl; [now constructor | ].
    rewrite skipn_nil. constructor.
  - destruct n as [ | n]; simpl; [now constructor | apply IH].
Qed.

(** Text put after a line feed is read as lines of its own. *)
Lemma readlines_aux_after_newline (t : string) (n : nat) :
  forall (s : string) (cur : list ascii),
    (String.length s <= n)%nat ->
    PyStr.readlines_aux (s ++ String PyStr.nl t) cur
    = (PyStr.readlines_aux (s ++ String PyStr.nl "") cur
         ++ PyStr.readlines_aux t [])%list.
Proof.
  induction n as [ | n IH]; intros s cur Hlen.
  - destruct s; [reflexivity | simpl in Hlen; lia].
  - destruct s as [ | c r]; [reflexivity | ].
    simpl in Hlen. cbn [append PyStr.readlines_aux].
    destruct (Ascii.eqb c PyStr.nl).
    { rewrite IH by lia. reflexivity. }
    destruct (Ascii.eqb c PyStr.cr).
    + destruct r as [ | c' r']; cbn [append].
      * simpl. reflexivity.
      * simpl in Hlen. destruct (Ascii.eqb c' PyStr.nl).
        -- rewrite IH by lia. reflexivity.
        -- rewrite (IH (String c' r')) by (simpl; lia). reflexivity.
    + apply IH. lia.
Qed.

End LineFacts.

(** ** Reading and compacting the history *)

Section HistoryFacts.

Context {W : Type}.
Variable host : Host W.
Variable decode : string -> decoded.

Lemma slice_to_firstn {A} (k : Z) (xs : list A) :
  0 <= k -> Text.slice_to k xs = firstn (Z.to_nat k) xs.
Proof.
  intro Hk. unfold Text.slice_to.
  destruct (Z.ltb_spec k 0) as [H | _]; [lia | ].
  destruct (Z.le_ge_cases k (Z.of_nat (List.length xs))) as [Hle | Hge].
  - now rewrite Z.min_l.
  - rewrite Z.min_r by lia. rewrite Nat2Z.id.
    rewrite !firstn_all2; [reflexivity | lia | lia].
Qed.

Lemma load_lines_app (l1 l2 : list string) :
  forall records,
    load_lines decode (l1 ++ l2) records
    = match load_lines decode l1 records with
      | inr records' => load_lines decode l2 records'
      | inl e => inl e
      end.
Proof.
  induction l1 as [ | line l1 IH]; intro records; simpl; [reflexivity | ].
  destruct (String.eqb (Text.strip line) ""); [apply IH | ].
  destruct (decode (Text.strip line)); [apply IH | apply IH | reflexivity].
Qed.

Lemma load_lines_kept (lines : list string) :
  (forall line e, In line lines -> decode (Text.strip line) <> DecodeFails e) ->
  forall records,
    load_lines decode lines records
    = inr (records ++ kept_records decode lines)%list.
Proof.
  induction lines as [ | line lines IH]; intros Hok records; simpl.
  - now rewrite app_nil_r.
  - assert (Hrest : forall l e, In l lines ->
                                decode (Text.strip l) <> DecodeFails e)
      by (intros l e Hin; apply Hok; now right).
    destruct (String.eqb (Text.strip line) ""); [now apply IH | ].
    destruct (decode (Text.strip line)) as [r | | e] eqn:Hd.
    + rewrite IH by exact Hrest. now rewrite <- app_assoc.
    + now apply IH.
    + exfalso. exact (Hok line e (or_introl eq_refl) Hd).
Qed.

(** X5: [load_history] never changes the state, returns no record when the
    history file is missing or cannot be opened and, when no line makes the
    decoder fail otherwise than by a JSON error, returns the records of the
    lines that are neither blank nor malformed, the most recent first, cut
    to [limit] of them for a [limit] that is not negative. *)
Theorem load_history_most_recent_first (limit : Z) (s : St W) :
  fst (load_history host decode limit s) = s
  /\ (history_file s = None -> snd (load_history host decode limit s) = Ok [])
  /\ (fs_error host (world s) = true ->
      snd (load_history host decode limit s) = Ok [])
  /\ (forall content,
        history_file s = Some content ->
        fs_error host (world s) = false ->
        (forall line e, In line (PyStr.readlines content) ->
                        decode (Text.strip line) <> DecodeFails e) ->
        0 <= limit ->
        exists records,
          snd (load_history host decode limit s) = Ok records
          /\ records
             = firstn (Z.to_nat limit)
                 (rev (kept_records decode (PyStr.readlines content)))
          /\ Z.of_nat (List.length records) <= limit).
Proof.
  unfold load_history. split; [ | split; [ | split]].
  - destruct (history_file s); [ | reflexivity].
    destruct (fs_error host (world s)); [reflexivity | ].
    destruct (load_lines decode (PyStr.readlines s0) []); reflexivity.
  - now intros ->.
  - intros ->. destruct (history_file s); reflexivity.
  - intros content -> -> Hok Hlimit.
    rewrite load_lines_kept by exact Hok. cbn [app snd].
    eexists. split; [reflexivity | ].
    rewrite slice_to_firstn by exact Hlimit. split; [reflexivity | ].
    pose proof (firstn_le_length (Z.to_nat limit)
                  (rev (kept_records decode (PyStr.readlines content)))).
    lia.
Qed.

(** X6: only JSON errors are skipped: when the decoder fails in another
    way on a line that is not blank, and on none before it, [load_history]
    raises that exception instead of returning records. *)
Theorem load_history_raises (limit : Z) (s : St W) (content : string)
    (before after : list string) (line : string) (e : exn) :
  history_file s = Some content ->
  fs_error host (world s) = false ->
  PyStr.readlines content = (before ++ line :: after)%list ->
  (forall l e', In l before -> decode (Text.strip l) <> DecodeFails e') ->
  Text.strip line <> "" ->
  decode (Text.strip line) = DecodeFails e ->
  load_history host decode limit s = (s, Raise e).
Proof.
  intros Hh Hfs Hlines Hbefore Hblank Hfail.
  unfold load_history. rewrite Hh, Hfs, Hlines, load_lines_app.
  rewrite load_lines_kept by exact Hbefore. simpl.
  apply String.eqb_neq in Hblank. rewrite Hblank, Hfail. reflexivity.
Qed.

(** Lines of a text that is empty or ends with a line feed, followed by one
    more line. *)
Lemma readlines_append_line (old : string) (body : list ascii) :
  old = "" \/ (exists s', old = s' ++ newline) ->
  clean body ->
  PyStr.readlines (old ++ string_of_list_ascii body ++ newline)
  = (PyStr.readlines old ++ [(string_of_list_ascii body ++ newline)%string])%list.
Proof.
  intros Hold Hclean.
  assert (Hone : PyStr.readlines (string_of_list_ascii body ++ newline)
                 = [string_of_list_ascii body ++ newline]).
  { unfold PyStr.readlines, newline.
    change (String PyStr.nl "") with (string_of_list_ascii [PyStr.nl]).
    rewrite <- LineFacts.string_of_list_ascii_app.
    rewrite <- (LineFacts.append_nil_r (string_of_list_ascii (body ++ [PyStr.nl]))).
    rewrite LineFacts.readlines_aux_line by exact Hclean.
    unfold PyStr.string_of_rev. rewrite app_nil_r.
    change (PyStr.nl :: rev body) with (rev [PyStr.nl] ++ rev body)%list.
    rewrite <- rev_app_distr, rev_involutive, LineFacts.append_nil_r.
    reflexivity. }
  destruct Hold as [-> | [s' ->]].
  - simpl append at 1. exact Hone.
  - unfold newline at 1 3. rewrite LineFacts.append_assoc.
    cbn [append]. unfold PyStr.readlines.
    rewrite (LineFacts.readlines_aux_after_newline _ (String.length s'))
      by lia.
    f_equal. exact Hone.
Qed.

(** X7: a record journaled is the first that [load_history] returns: after
    [_record_deploy] on a history file that is absent, empty or ended by a
    line feed, whose lines could be loaded, [load_history] with a limit of at
    least 1 returns the record followed by the [limit - 1] most recent of
    the records loaded before; this for a line of the record that the
    library writes on one line and decodes back to it. *)
Theorem journaled_record_is_loaded_first (record : DeployRecord) (limit : Z)
    (s : St W) (earlier : list DeployRecord) :
  fs_error host (world s) = false ->
  faithful_line host decode record ->
  (forall old, history_file s = Some old ->
               old = "" \/ exists s', old = s' ++ newline) ->
  load_lines decode
    (PyStr.readlines (match history_file s with Some c => c | None => "" end))
    [] = inr earlier ->
  1 <= limit ->
  snd (load_history host decode limit
         (fst (_record_deploy host record s)))
  = Ok (record :: firstn (Z.to_nat (limit - 1)) (rev earlier)).
Proof.
  intros Hfs (Hclean & Hstrip & Hne & Hdec) Hold Hearlier Hlimit.
  unfold _record_deploy. rewrite Hfs. cbn [fst].
  unfold load_history. cbn [history_file set_history world]. rewrite Hfs.
  set (old := match history_file s with Some c => c | None => "" end) in *.
  assert (Hold' : old = "" \/ exists s', old = s' ++ newline).
  { subst old. destruct (history_file s) as [c | ]; [now apply Hold | now left]. }
  rewrite <- (string_of_list_ascii_of_string (json_dumps host record)) at 1.
  rewrite (readlines_append_line old _ Hold' Hclean).
  rewrite string_of_list_ascii_of_string.
  rewrite load_lines_app, Hearlier. cbn [load_lines].
  rewrite Hstrip. apply String.eqb_neq in Hne. rewrite Hne, Hdec.
  cbn [snd]. rewrite slice_to_firstn by lia.
  rewrite rev_app_distr. simpl rev. cbn [app].
  replace (Z.to_nat limit) with (S (Z.to_nat (limit - 1))) by lia.
  reflexivity.
Qed.

(** X8: compaction is idempotent: for a [keep] that is not negative,
    compacting a second time changes nothing. *)
Theorem truncate_history_idempotent (keep : Z) (s : St W) :
  0 <= keep ->
  let s1 := fst (truncate_history host keep s) in
  fst (truncate_history host keep s1) = s1.
Proof.
  intro Hkeep. unfold truncate_history.
  destruct (history_file s) as [content | ] eqn:Hh; cbn [fst].
  2:{ rewrite Hh. reflexivity. }
  destruct (fs_error host (world s)) eqn:Hfs; cbn [fst].
  { rewrite Hh, Hfs. reflexivity. }
  set (lines := PyStr.readlines content).
  destruct (Z.of_nat (List.length lines) >? keep * 2) eqn:Hlong; cbn [fst].
  2:{ rewrite Hh, Hfs. fold lines. rewrite Hlong. reflexivity. }
  cbn [history_file set_history world]. rewrite Hfs.
  assert (Hok : lines_ok (PyStr.slice_from_neg keep lines)).
  { unfold PyStr.slice_from_neg. apply LineFacts.lines_ok_skipn.
    apply LineFacts.readlines_ok. }
  rewrite (LineFacts.readlines_writelines _ Hok).
  destruct (Z.of_nat (List.length (PyStr.slice_from_neg keep lines))
            >? keep * 2) eqn:Hlong2; [ | reflexivity].
  cbn [fst]. unfold set_history. cbn. f_equal. f_equal. f_equal.
  apply Z.gtb_lt in Hlong, Hlong2.
  unfold PyStr.slice_from_neg in *.
  destruct (Z.ltb_spec (- keep) 0) as [Hneg | Hzero].
  - rewrite length_skipn in Hlong2. lia.
  - assert (keep = 0) as -> by lia. change (- 0) with 0.
    rewrite !Z.min_l by lia. reflexivity.
Qed.

Lemma kept_records_skipn (lines : list string) :
  (forall line, In line lines ->
                Text.strip line <> ""
                /\ exists r, decode (Text.strip line) = Decoded r) ->
  List.length (kept_records decode lines) = List.length lines
  /\ forall n, kept_records decode (skipn n lines)
               = skipn n (kept_records decode lines).
Proof.
  induction lines as [ | line lines IH]; intro Hall.
  - split; [reflexivity | ]. intro n. now destruct n.
  - destruct (Hall line (or_introl eq_refl)) as (Hne & r & Hr).
    destruct IH as [IHlen IHskip]; [intros l Hin; apply Hall; now right | ].
    apply String.eqb_neq in Hne.
    assert (Hhead : kept_records decode (line :: lines)
                    = r :: kept_records decode lines).
    { unfold kept_records. cbn [flat_map]. now rewrite Hne, Hr. }
    split.
    + rewrite Hhead. simpl. now rewrite IHlen.
    + intros [ | n]; [reflexivity | ]. rewrite Hhead. simpl. apply IHskip.
Qed.

(** X9: compaction does not change what is loaded: when every line of the
    history file holds a record, [load_history] with a limit between 0 and
    [keep] returns the same records after [truncate_history keep] as
    before. *)
Theorem truncate_history_preserves_recent (keep limit : Z) (s : St W) :
  (forall content line,
      history_file s = Some content ->
      In line (PyStr.readlines content) ->
      Text.strip line <> ""
      /\ exists r, decode (Text.strip line) = Decoded r) ->
  0 <= limit <= keep ->
  snd (load_history host decode limit (fst (truncate_history host keep s)))
  = snd (load_history host decode limit s).
Proof.
  intros Hall Hlimit. unfold truncate_history.
  destruct (history_file s) as [content | ] eqn:Hh; [ | reflexivity].
  destruct (fs_error host (world s)) eqn:Hfs; [reflexivity | ].
  specialize (Hall content).
  set (lines := PyStr.readlines content) in *.
  destruct (Z.of_nat (List.length lines) >? keep * 2) eqn:Hlong;
    [ | reflexivity].
  cbn [fst]. unfold load_history.
  cbn [history_file set_history world]. rewrite Hh, Hfs. fold lines.
  assert (Hok : lines_ok (PyStr.slice_from_neg keep lines)).
  { unfold PyStr.slice_from_neg. apply LineFacts.lines_ok_skipn.
    apply LineFacts.readlines_ok. }
  rewrite (LineFacts.readlines_writelines _ Hok).
  assert (Hall' : forall line, In line lines ->
                    Text.strip line <> ""
                    /\ exists r, decode (Text.strip line) = Decoded r)
    by (intros line Hin; now apply Hall).
  destruct (kept_records_skipn lines Hall') as [Hlen Hskip].
  assert (Hno : forall l, (forall line, In line l -> In line lines) ->
                  forall line e, In line l ->
                                 decode (Text.strip line) <> DecodeFails e).
  { intros l Hsub line e Hin Hd.
    destruct (Hall' line (Hsub line Hin)) as (_ & r & Hr). congruence. }
  apply Z.gtb_lt in Hlong.
  unfold PyStr.slice_from_neg.
  set (n := Z.to_nat _).
  rewrite (load_lines_kept (skipn n lines)).
  2:{ apply Hno. intros line Hin.
      rewrite <- (firstn_skipn n lines). apply in_or_app. now right. }
  rewrite (load_lines_kept lines) by (apply Hno; auto).
  cbn [app snd]. f_equal. rewrite !slice_to_firstn by lia.
  rewrite Hskip.
  set (recs := kept_records decode lines) in *.
  destruct (Z.ltb_spec (- keep) 0) as [Hneg | Hzero].
  - assert (Hn : n = (List.length recs - Z.to_nat keep)%nat)
      by (subst n; rewrite Hlen; lia).
    rewrite Hn, <- firstn_rev, firstn_firstn.
    now rewrite Nat.min_l by lia.
  - assert (n = O) as -> by (subst n; lia). reflexivity.
Qed.


End HistoryFacts.

Lemma truncate_history_idempotent_witness :
  let s := Script.with_history ("a" ++ newline ++ "b" ++ newline ++ "c" ++ newline) in
  let s1 := fst (truncate_history Script.calm 1 s) in
  history_file s1 = Some ("c" ++ newline)
  /\ fst (truncate_history Script.calm 1 s1) = s1.
Proof.
  split; [reflexivity | ].
  apply (truncate_history_idempotent Script.calm 1). lia.
Defined.

Lemma load_history_raises_witness :
  load_history Script.calm sample_decode 200
    (Script.with_history
       ("0a1b2c3d completed" ++ newline ++ "[1]" ++ newline))
  = (Script.with_history
       ("0a1b2c3d completed" ++ newline ++ "[1]" ++ newline),
     Raise (OtherError "'list' object has no attribute 'get'")).
Proof.
  apply (load_history_raises Script.calm sample_decode 200 _
           ("0a1b2c3d completed" ++ newline ++ "[1]" ++ newline)
           ["0a1b2c3d completed" ++ newline] [] ("[1]" ++ newline)).
  - reflexivity.
  - reflexivity.
  - reflexivity.
  - intros l e' [<- | []]. vm_compute. discriminate.
  - vm_compute. discriminate.
  - reflexivity.
Defined.

Lemma journaled_record_witness :
  snd (load_history Script.calm sample_decode 2
         (fst (_record_deploy Script.calm sample_record
                 (Script.with_history ("0a1b2c3d completed" ++ newline)))))
  = Ok [sample_record; sample_record].
Proof.
  apply (journaled_record_is_loaded_first Script.calm sample_decode
           sample_record 2 _ [sample_record]).
  - reflexivity.
  - split; [ | split; [ | split]].
    + vm_compute. repeat constructor; discriminate.
    + reflexivity.
    + discriminate.
    + reflexivity.
  - intros old Hold. right. exists "0a1b2c3d completed".
    now injection Hold as <-.
  - reflexivity.
  - lia.
Defined.

Lemma truncate_history_preserves_recent_witness :
  let s := Script.with_history
             ("0a1b2c3d completed" ++ newline ++ "0a1b2c3d completed" ++ newline
              ++ "0a1b2c3d completed" ++ newline) in
  history_file (fst (truncate_history Script.calm 1 s))
  = Some ("0a1b2c3d completed" ++ newline)
  /\ snd (load_history Script.calm sample_decode 1
            (fst (truncate_history Script.calm 1 s)))
     = snd (load_history Script.calm sample_decode 1 s).
Proof.
  split; [reflexivity | ].
  apply (truncate_history_preserves_recent Script.calm sample_decode 1 1).
  - intros content line Hc Hin. injection Hc as <-.
    vm_compute in Hin.
    destruct Hin as [<- | [<- | [<- | []]]];
      (split; [vm_compute; discriminate | eexists; reflexivity]).
  - lia.
Defined.

(** ** Scale up: progress reports and journal *)

Section ScaleUpReports.

Context {W : Type}.
Variable host : Host W.

Lemma progress_calls_app (e1 e2 : list Event) :
  progress_calls (e1 ++ e2) = (progress_calls e1 ++ progress_calls e2)%list.
Proof. unfold progress_calls. apply flat_map_app. Qed.

Lemma progress_of_length (count : Z) (attempts : list (CreateArgs.t * result Pod.t)) :
  forall i,
    List.length (progress_of count i attempts)
    = List.length (successes attempts).
Proof.
  induction attempts as [ | [a [e | p]] attempts IH]; intro i; simpl.
  - reflexivity.
  - apply IH.
  - now rewrite IH.
Qed.

Lemma progress_of_bounds (mk_args : nat -> CreateArgs.t) (count : Z)
    (i n : nat) (attempts : list (CreateArgs.t * result Pod.t)) :
  attempts_shape mk_args i n attempts ->
  Forall (fun dt => Z.of_nat i + 1 <= fst dt <= Z.of_nat (i + n)
                    /\ snd dt = count)
    (progress_of count i attempts).
Proof.
  induction 1 as [i | i n p rest _ IH | i n e rest _ _ IH | i n e _]; simpl.
  - constructor.
  - constructor; [simpl; lia | ].
    eapply Forall_impl; [ | exact IH]. simpl. intros dt [Hb Ht]. split; [lia | exact Ht].
  - eapply Forall_impl; [ | exact IH]. simpl. intros dt [Hb Ht]. split; [lia | exact Ht].
  - constructor.
Qed.

Lemma progress_of_sorted (mk_args : nat -> CreateArgs.t) (count : Z)
    (i n : nat) (attempts : list (CreateArgs.t * result Pod.t)) :
  attempts_shape mk_args i n attempts ->
  StronglySorted (fun a b => fst a < fst b) (progress_of count i attempts).
Proof.
  induction 1 as [i | i n p rest Hshape IH | i n e rest _ _ IH | i n e _]; simpl.
  - constructor.
  - constructor; [exact IH | ].
    eapply Forall_impl; [ | exact (progress_of_bounds _ count _ _ _ Hshape)].
    simpl. intros dt [Hb _]. lia.
  - exact IH.
  - constructor.
Qed.

Lemma progress_of_all_created (count : Z)
    (attempts : list (CreateArgs.t * result Pod.t)) :
  (forall a e, ~ In (a, inl e) attempts) ->
  forall i,
    progress_of count i attempts = counting count i (List.length attempts).
Proof.
  unfold counting.
  induction attempts as [ | [a [e | p]] attempts IH]; intros Hno i; simpl.
  - reflexivity.
  - exfalso. apply (Hno a e). now left.
  - f_equal. apply IH. intros a' e' Hin. apply (Hno a' e'). now right.
Qed.

Lemma no_failed_attempt (evs : list Event) :
  create_failures evs = [] ->
  forall a e, ~ In (a, inl e) (create_attempts evs).
Proof.
  induction evs as [ | ev evs IH]; intros Hnone a e; [intros [] | ].
  destruct ev as [a' [e' | p] | | | | | | | | ]; simpl in *;
    try (now apply IH).
  - discriminate Hnone.
  - intros [E | Hin]; [discriminate E | ]. now apply (IH Hnone a e).
Qed.

Lemma successes_all (attempts : list (CreateArgs.t * result Pod.t)) :
  (forall a e, ~ In (a, inl e) attempts) ->
  List.length (successes attempts) = List.length attempts.
Proof.
  induction attempts as [ | [a [e | p]] attempts IH]; intro Hno; simpl.
  - reflexivity.
  - exfalso. apply (Hno a e). now left.
  - f_equal. apply IH. intros a' e' Hin. apply (Hno a' e'). now right.
Qed.

(** What the loop of [scale_up] reports and what it leaves alone. *)
Lemma scale_up_loop_reports (mk_args : nat -> CreateArgs.t) (count : Z)
    (on_progress : bool) (n : nat) :
  forall (i : nat) (created : list Pod.t) (errors : list string) (s : St W),
    exists s' evs,
      scale_up_loop host mk_args count on_progress (seq i n) created errors s
      = (s', Ok ((created ++ successes (create_attempts evs))%list,
                 (errors
                    ++ error_lines count i (List.length created)
                         (create_attempts evs))%list))
      /\ advances s s' evs
      /\ attempts_shape mk_args i n (create_attempts evs)
      /\ progress_calls evs
         = (if on_progress then progress_of count i (create_attempts evs)
            else [])
      /\ (n = O -> evs = []).
Proof.
  induction n as [ | n IH]; intros i created errors s.
  - exists s, []. simpl. rewrite !app_nil_r.
    conjs; try reflexivity; [apply advances_refl | constructor | ].
    now destruct on_progress.
  - cbn [seq scale_up_loop].
    unfold bind at 1. unfold try_except, bind at 1. unfold client_create_pod.
    destruct (create_pod host (mk_args i) (world s)) as [w r].
    set (s1 := resumed host w [EvCreate (mk_args i) r] s).
    assert (A1 : advances s s1 [EvCreate (mk_args i) r])
      by apply advances_resumed.
    destruct r as [e | p]; cbn [of_result].
    + unfold ret at 1. cbv beta iota.
      destruct (is_capacity_error e) eqn:Hcap.
      * exists s1, [EvCreate (mk_args i) (inl e)]. simpl. rewrite Hcap.
        rewrite app_nil_r, <- app_assoc.
        conjs; [reflexivity | exact A1 | now constructor | | discriminate].
        now destruct on_progress.
      * destruct (IH (S i) created (errors ++ [pod_error_line i e])%list s1)
          as (s' & evs & Hrun & A2 & Hshape & Hprog & _).
        exists s', (EvCreate (mk_args i) (inl e) :: evs). simpl. rewrite Hcap.
        rewrite Hrun, <- app_assoc.
        conjs; [reflexivity | | now constructor | exact Hprog | discriminate].
        exact (advances_trans _ _ _ _ _ A1 A2).
    + destruct (when_emit_run on_progress
                  (EvProgress (Z.of_nat i + 1) count) s1)
        as (s2 & H2 & A2 & _ & _).
      rewrite (bind_ok _ _ _ _ _ H2). unfold ret at 1. cbv beta iota.
      destruct (IH (S i) (created ++ [p])%list errors s2)
        as (s' & evs & Hrun & A3 & Hshape & Hprog & _).
      exists s', ([EvCreate (mk_args i) (inr p)]
                   ++ (if on_progress
                       then [EvProgress (Z.of_nat i + 1) count] else [])
                   ++ evs)%list.
      assert (Hatt : create_attempts
                       ([EvCreate (mk_args i) (inr p)]
                          ++ (if on_progress
                              then [EvProgress (Z.of_nat i + 1) count] else [])
                          ++ evs)
                     = (mk_args i, inr p) :: create_attempts evs)
        by (destruct on_progress; reflexivity).
      rewrite Hatt, Hrun. simpl.
      rewrite <- app_assoc, length_app, Nat.add_1_r.
      conjs; [reflexivity | | now constructor | | discriminate].
      * exact (advances_trans _ _ _ _ _ A1 (advances_trans _ _ _ _ _ A2 A3)).
      * rewrite progress_calls_app, Hprog. now destruct on_progress.
Qed.

Lemma _record_deploy_run (record : DeployRecord) (s : St W) :
  exists s',
    _record_deploy host record s = (s', Ok tt)
    /\ trace s' = trace s
    /\ world s' = world s
    /\ record_cell s' = record_cell s
    /\ completed_pairs s' = completed_pairs s
    /\ _active_deploy s' = _active_deploy s
    /\ history_file s'
       = (if fs_error host (world s) then history_file s
          else journaled host (history_file s) record).
Proof.
  unfold _record_deploy. destruct (fs_error host (world s)).
  - exists s. now conjs.
  - eexists. conjs; reflexivity.
Qed.

Lemma clock_run (s : St W) :
  (exists s' d,
      new_deploy_id host s = (s', Ok d) /\ advances s s' [])
  /\ (exists s' t,
        datetime_now host s = (s', Ok t) /\ advances s s' []).
Proof.
  unfold new_deploy_id, datetime_now, advances. split.
  - destruct (uuid4_hex8 host (world s)) as [w d].
    eexists; exists d. simpl. rewrite app_nil_r. now conjs.
  - destruct (now host (world s)) as [w t].
    eexists; exists t. simpl. rewrite app_nil_r. now conjs.
Qed.

(** A run of [scale_up], with what it reports and what it writes. *)
Lemma scale_up_reports (count : Z) (name_prefix image_name gpu_type_id : string)
    (gpu_count : Z) (cloud_type : string)
    (volume_in_gb container_disk_in_gb : Z) (ports volume_mount_path : string)
    (env : option (list string)) (template_id : option string)
    (on_progress : bool) (s : St W) :
  exists s' record evs,
    scale_up host count name_prefix image_name gpu_type_id gpu_count
      cloud_type volume_in_gb container_disk_in_gb ports volume_mount_path
      env template_id on_progress s = (s', Ok record)
    /\ advances
         (set_history (history_file s') s) s' evs
    /\ attempts_shape
         (scale_up_args name_prefix (deploy_id record) image_name gpu_type_id
            gpu_count cloud_type volume_in_gb container_disk_in_gb ports
            volume_mount_path env template_id)
         0 (Z.to_nat count) (create_attempts evs)
    /\ progress_calls evs
       = (if on_progress then progress_of count 0 (create_attempts evs)
          else [])
    /\ pod_ids record = map Pod.id (successes (create_attempts evs))
    /\ pod_count record
       = Z.of_nat (List.length (successes (create_attempts evs)))
    /\ (count <= 0 ->
        evs = [] /\ status record = COMPLETED /\ error record = "")
    /\ history_file s'
       = (if fs_error host (world s') then history_file s
          else journaled host (history_file s) record).
Proof.
  unfold scale_up.
  destruct (proj1 (clock_run s)) as (s1 & did & H1 & A1).
  rewrite (bind_ok _ _ _ _ _ H1).
  destruct (proj2 (clock_run s1)) as (s2 & start & H2 & A2).
  rewrite (bind_ok _ _ _ _ _ H2).
  set (mk := scale_up_args name_prefix did image_name gpu_type_id gpu_count
               cloud_type volume_in_gb container_disk_in_gb ports
               volume_mount_path env template_id).
  destruct (scale_up_loop_reports mk count on_progress (Z.to_nat count)
              0 [] [] s2)
    as (s3 & evs & Hrun & A3 & Hshape & Hprog & Hnil).
  rewrite (bind_ok _ _ _ _ _ Hrun). cbn [fst snd app List.length].
  destruct (proj2 (clock_run s3)) as (s4 & finish & H4 & A4).
  rewrite (bind_ok _ _ _ _ _ H4).
  match goal with
  | |- context [_record_deploy host ?r] => set (record := r)
  end.
  destruct (_record_deploy_run record s4)
    as (s5 & H5 & T5 & W5 & R5 & P5 & D5 & F5).
  rewrite (bind_ok _ _ _ _ _ H5). unfold ret.
  exists s5, record, evs. split; [reflexivity | ].
  assert (Hid : deploy_id record = did).
  { subst record.
    destruct (error_lines count 0 0 (create_attempts evs));
      destruct (successes (create_attempts evs)); reflexivity. }
  rewrite Hid.
  pose proof (advances_trans _ _ _ _ _ A1
                (advances_trans _ _ _ _ _ A2
                   (advances_trans _ _ _ _ _ A3 A4))) as A.
  simpl in A. rewrite app_nil_r in A.
  destruct A as (At & Ar & Ap & Ah & Ad & Ac).
  assert (Hhist : history_file s5
                  = (if fs_error host (world s5) then history_file s
                     else journaled host (history_file s) record))
    by (rewrite F5, W5, Ah; reflexivity).
  conjs.
  - unfold advances, set_history. simpl. conjs.
    + now rewrite T5.
    + now rewrite R5.
    + now rewrite P5.
    + reflexivity.
    + now rewrite D5.
    + intro Hc. apply Ac in Hc. clear - Hc H5.
      unfold _record_deploy in H5.
      destruct (fs_error host (world s4)); injection H5 as <-; exact Hc.
  - exact Hshape.
  - exact Hprog.
  - subst record.
    destruct (error_lines count 0 0 (create_attempts evs)); reflexivity.
  - subst record.
    destruct (error_lines count 0 0 (create_attempts evs)); reflexivity.
  - intro Hle. assert (Hz : Z.to_nat count = O) by lia.
    specialize (Hnil Hz). subst evs. subst record. now conjs.
  - exact Hhist.
Qed.

(** X10: the progress reports of [scale_up]: none without a callback;
    with one, exactly one call per pod created, made with the index of the
    attempt plus one (not with the number of pods created so far) and with
    [count]; the numbers reported lie between 1 and [count] and increase
    strictly; when no attempt failed they are 1, 2, ... up to the number of
    pods created. *)
Theorem scale_up_progress_reports (count : Z)
    (name_prefix image_name gpu_type_id : string)
    (gpu_count : Z) (cloud_type : string)
    (volume_in_gb container_disk_in_gb : Z) (ports volume_mount_path : string)
    (env : option (list string)) (template_id : option string)
    (on_progress : bool) (s : St W) :
  exists s' record evs,
    scale_up host count name_prefix image_name gpu_type_id gpu_count
      cloud_type volume_in_gb container_disk_in_gb ports volume_mount_path
      env template_id on_progress s = (s', Ok record)
    /\ trace s' = (trace s ++ evs)%list
    /\ (on_progress = false -> progress_calls evs = [])
    /\ (on_progress = true ->
        progress_calls evs = progress_of count 0 (create_attempts evs)
        /\ List.length (progress_calls evs) = List.length (pod_ids record)
        /\ Forall (fun dt => 1 <= fst dt <= count /\ snd dt = count)
             (progress_calls evs)
        /\ StronglySorted (fun a b => fst a < fst b) (progress_calls evs)
        /\ (create_failures evs = [] ->
            progress_calls evs
            = counting count 0 (List.length (pod_ids record)))).
Proof.
  destruct (scale_up_reports count name_prefix image_name gpu_type_id
              gpu_count cloud_type volume_in_gb container_disk_in_gb ports
              volume_mount_path env template_id on_progress s)
    as (s' & record & evs & Hrun & A & Hshape & Hprog & Hids & _ & _ & _).
  exists s', record, evs. conjs.
  - exact Hrun.
  - apply A.
  - intros ->. exact Hprog.
  - intros ->. rewrite Hprog, Hids, length_map. conjs.
    + reflexivity.
    + apply progress_of_length.
    + eapply Forall_impl;
        [ | exact (progress_of_bounds _ count _ _ _ Hshape)].
      simpl. intros dt [Hb Ht]. split; [lia | exact Ht].
    + exact (progress_of_sorted _ count _ _ _ Hshape).
    + intro Hnone. pose proof (no_failed_attempt evs Hnone) as Hno.
      rewrite (successes_all _ Hno). now apply progress_of_all_created.
Qed.

(** X11: [scale_up] appends to the history file the line of the record it
    returns, and nothing else, when the file can be opened, and leaves the
    file as it was otherwise; it does not touch the record, the completed
    pairs or the active-deploy slot of a rolling deploy. *)
Theorem scale_up_journals_its_record (count : Z)
    (name_prefix image_name gpu_type_id : string)
    (gpu_count : Z) (cloud_type : string)
    (volume_in_gb container_disk_in_gb : Z) (ports volume_mount_path : string)
    (env : option (list string)) (template_id : option string)
    (on_progress : bool) (s : St W) :
  exists s' record,
    scale_up host count name_prefix image_name gpu_type_id gpu_count
      cloud_type volume_in_gb container_disk_in_gb ports volume_mount_path
      env template_id on_progress s = (s', Ok record)
    /\ history_file s'
       = (if fs_error host (world s') then history_file s
          else Some (match history_file s with Some c => c | None => "" end
                     ++ json_dumps host record ++ newline))
    /\ record_cell s' = record_cell s
    /\ completed_pairs s' = completed_pairs s
    /\ _active_deploy s' = _active_deploy s.
Proof.
  destruct (scale_up_reports count name_prefix image_name gpu_type_id
              gpu_count cloud_type volume_in_gb container_disk_in_gb ports
              volume_mount_path env template_id on_progress s)
    as (s' & record & evs & Hrun & A & _ & _ & _ & _ & _ & Hhist).
  exists s', record. destruct A as (_ & Ar & Ap & _ & Ad & _).
  conjs; [exact Hrun | exact Hhist | exact Ar | exact Ap | exact Ad].
Qed.

(** X12: a [count] of zero or less: [scale_up] makes no client call and no
    report, and returns a completed record with no pod, a pod count of 0 and
    no error. *)
Theorem scale_up_nothing_to_create (count : Z)
    (name_prefix image_name gpu_type_id : string)
    (gpu_count : Z) (cloud_type : string)
    (volume_in_gb container_disk_in_gb : Z) (ports volume_mount_path : string)
    (env : option (list string)) (template_id : option string)
    (on_progress : bool) (s : St W) :
  count <= 0 ->
  exists s' record,
    scale_up host count name_prefix image_name gpu_type_id gpu_count
      cloud_type volume_in_gb container_disk_in_gb ports volume_mount_path
      env template_id on_progress s = (s', Ok record)
    /\ trace s' = trace s
    /\ status record = COMPLETED
    /\ pod_ids record = []
    /\ pod_count record = 0
    /\ error record = "".
Proof.
  intro Hle.
  destruct (scale_up_reports count name_prefix image_name gpu_type_id
              gpu_count cloud_type volume_in_gb container_disk_in_gb ports
              volume_mount_path env template_id on_progress s)
    as (s' & record & evs & Hrun & A & _ & _ & Hids & Hcount & Hedge & _).
  destruct (Hedge Hle) as (-> & Hst & Herr).
  exists s', record. conjs; try assumption.
  destruct A as (At & _). simpl in At. now rewrite app_nil_r in At.
Qed.

End ScaleUpReports.

(** A failed attempt makes the reports skip a number: of three attempts the
    second fails, and the reports are 1 and 3 of 3 for two pods created. *)
Example scale_up_progress_skips :
  let h := Script.host (Script.create_but 1 (RunPodError "quota exceeded"))
             Script.up Script.always_ok Script.never Script.first_done in
  let run := scale_up h 3 "w" "img:2" "NVIDIA A40" 1 "ALL" 20 20 "8888/http"
               "/workspace" None None true Script.fresh in
  progress_calls (trace (fst run)) = [(1, 3); (3, 3)]
  /\ option_map pod_count
       (match snd run with Ok r => Some r | _ => None end) = Some 2.
Proof. split; reflexivity. Qed.

Lemma scale_up_nothing_to_create_witness :
  exists s' record,
    scale_up Script.calm (-2) "w" "img:2" "NVIDIA A40" 1 "ALL" 20 20
      "8888/http" "/workspace" None None true Script.fresh = (s', Ok record)
    /\ trace s' = trace Script.fresh
    /\ status record = COMPLETED
    /\ pod_ids record = []
    /\ pod_count record = 0
    /\ error record = "".
Proof.
  apply (scale_up_nothing_to_create Script.calm (-2)). lia.
Defined.

(** ** Scale down: progress reports and journal *)

Section ScaleDownReports.

Context {W : Type}.
Variable host : Host W.

Lemma done_progress_app (total : Z) (l1 l2 : list task) :
  forall i,
    done_progress total i (l1 ++ l2)
    = (done_progress total i l1
         ++ done_progress total (i + List.length l1) l2)%list.
Proof.
  induction l1 as [ | [pid [[e | p] | ]] l1 IH]; intro i; simpl.
  - now rewrite Nat.add_0_r.
  - rewrite IH. now rewrite Nat.add_succ_r.
  - rewrite IH. now rewrite Nat.add_succ_r.
  - rewrite IH. now rewrite Nat.add_succ_r.
Qed.

Lemma task_events_progress (action : string) (on_progress : bool) (total : Z)
    (pod_id : string) (index : nat) (r : result unit) :
  progress_calls (task_events action on_progress total pod_id index r)
  = match r with
    | inr _ => if on_progress then [(Z.of_nat index + 1, total)] else []
    | inl _ => []
    end.
Proof.
  unfold task_events.
  destruct (String.eqb action "terminate"), r as [e | u], on_progress;
    reflexivity.
Qed.

(** The [gather] of [scale_down], with what its tasks report. *)
Lemma gather_reports (action : string) (on_progress : bool) (total : Z)
    (rounds : nat) :
  forall (tasks : list task) (s : St W),
    (npending tasks <= rounds)%nat ->
    exists s' tasks' evs,
      gather host rounds action on_progress total tasks s = (s', Ok tasks')
      /\ advances s s' evs
      /\ map fst tasks' = map fst tasks
      /\ npending tasks' = 0%nat
      /\ Permutation (done_calls tasks')
           (done_calls tasks ++ stop_calls evs)
      /\ (if on_progress
          then Permutation (done_progress total 0 tasks')
                 (done_progress total 0 tasks ++ progress_calls evs)
          else progress_calls evs = [])
      /\ (npending tasks = 0%nat -> evs = []).
Proof.
  induction rounds as [ | rounds IH]; intros tasks s Hle.
  - exists s, tasks, []. simpl. rewrite !app_nil_r.
    conjs; try reflexivity.
    + apply advances_refl.
    + lia.
    + destruct on_progress; reflexivity.
  - cbn [gather].
    destruct (pending tasks) as [ | p ps] eqn:Hp.
    + exists s, tasks, []. simpl. rewrite !app_nil_r.
      conjs; try reflexivity.
      * apply advances_refl.
      * unfold pending in Hp. rewrite <- (pending_from_length tasks 0), Hp.
        reflexivity.
      * destruct on_progress; reflexivity.
    + set (k := Nat.modulo _ _).
      set (index := nth k (p :: ps) p).
      assert (Hin : In index (pending_from 0 tasks)).
      { fold (pending tasks). rewrite Hp. apply nth_In.
        apply Nat.mod_upper_bound. discriminate. }
      destruct (pending_from_split _ _ _ Hin) as (l1 & pid & l2 & Htasks & Hidx).
      simpl in Hidx. rewrite Htasks, Hidx, nth_middle_task. cbn [fst].
      destruct (_stop_one_run host action on_progress total pid
                  (List.length l1) s)
        as (s1 & r & H1 & A1 & Hcalls).
      rewrite (bind_ok _ _ _ _ _ H1), set_nth_middle.
      rewrite Htasks, npending_middle in Hle.
      destruct (IH (l1 ++ (pid, Some (task_result pid r)) :: l2)%list s1)
        as (s' & tasks' & evs & Hrun & A2 & Hfst & Hnone & Hperm & Hprog & _).
      { rewrite npending_middle. lia. }
      exists s', tasks',
        (task_events action on_progress total pid (List.length l1) r ++ evs)%list.
      conjs.
      * exact Hrun.
      * exact (advances_trans _ _ _ _ _ A1 A2).
      * rewrite Hfst, !map_app. reflexivity.
      * exact Hnone.
      * rewrite Hperm, stop_calls_app, Hcalls, !done_calls_app. simpl.
        assert (Hout : call_outcome (task_result pid r) = r)
          by (destruct r as [e | []]; reflexivity).
        rewrite Hout, <- !app_assoc. apply Permutation_app_head. simpl.
        apply Permutation_cons_app, Permutation_refl.
      * rewrite progress_calls_app, task_events_progress.
        destruct on_progress.
        -- etransitivity; [exact Hprog | ].
           rewrite !done_progress_app. simpl. rewrite <- !app_assoc.
           apply Permutation_app_head.
           destruct r as [e | u]; simpl.
           ++ apply Permutation_refl.
           ++ apply Permutation_cons_app, Permutation_refl.
        -- rewrite Hprog. now destruct r.
      * rewrite npending_middle. intro H. lia.
Qed.

Lemma all_returned_reports (total : Z) (tasks : list task) :
  npending tasks = 0%nat ->
  exists outcomes,
    List.length outcomes = List.length tasks
    /\ done_calls tasks = combine (map fst tasks) outcomes
    /\ result_errors (gather_results tasks) = failure_messages outcomes
    /\ forall i, done_progress total i tasks
                 = success_positions total i outcomes.
Proof.
  unfold npending.
  induction tasks as [ | [pid [r | ]] tasks IH]; simpl; intro H.
  - exists []. now conjs.
  - destruct (IH H) as (outcomes & Hlen & Hcalls & Herr & Hpos).
    exists (call_outcome r :: outcomes). simpl. conjs.
    + now rewrite Hlen.
    + unfold done_calls in *. simpl. now rewrite Hcalls.
    + unfold gather_results, result_errors, failure_messages in *. simpl.
      rewrite Herr. destruct r; reflexivity.
    + intro i. destruct r as [e | p]; simpl; now rewrite Hpos.
  - discriminate H.
Qed.

Lemma success_positions_bounds (total : Z) (outcomes : list (result unit)) :
  forall i,
    Forall (fun dt => Z.of_nat i + 1 <= fst dt
                                     <= Z.of_nat (i + List.length outcomes)
                      /\ snd dt = total)
      (success_positions total i outcomes).
Proof.
  induction outcomes as [ | [e | u] outcomes IH]; intro i; simpl.
  - constructor.
  - eapply Forall_impl; [ | exact (IH (S i))]. simpl.
    intros dt [Hb Ht]. split; [lia | exact Ht].
  - constructor; [simpl; lia | ].
    eapply Forall_impl; [ | exact (IH (S i))]. simpl.
    intros dt [Hb Ht]. split; [lia | exact Ht].
Qed.

Lemma success_positions_nodup (total : Z) (outcomes : list (result unit)) :
  forall i, NoDup (map fst (success_positions total i outcomes)).
Proof.
  induction outcomes as [ | [e | u] outcomes IH]; intro i; simpl.
  - constructor.
  - apply IH.
  - constructor; [ | apply IH].
    intro Hin. apply in_map_iff in Hin. destruct Hin as (dt & Hfst & Hin).
    pose proof (success_positions_bounds total outcomes (S i)) as Hb.
    rewrite Forall_forall in Hb. destruct (Hb dt Hin) as [Hlow _]. lia.
Qed.

Lemma success_positions_all (total : Z) (outcomes : list (result unit)) :
  failure_messages outcomes = [] ->
  forall i,
    success_positions total i outcomes
    = counting total i (List.length outcomes).
Proof.
  unfold counting.
  induction outcomes as [ | [e | u] outcomes IH]; intros Hnone i; simpl.
  - reflexivity.
  - discriminate Hnone.
  - f_equal. now apply IH.
Qed.

(** A run of [scale_down], with what it reports and what it writes. *)
Lemma scale_down_reports (requested : list string) (action : string)
    (on_progress : bool) (s : St W) :
  exists s' record evs outcomes,
    scale_down host requested action on_progress s = (s', Ok record)
    /\ advances (set_history (history_file s') s) s' evs
    /\ List.length outcomes = List.length requested
    /\ Permutation (combine requested outcomes) (stop_calls evs)
    /\ (if on_progress
        then Permutation (progress_calls evs)
               (success_positions (Z.of_nat (List.length requested)) 0
                  outcomes)
        else progress_calls evs = [])
    /\ error record = PyStr.join "; " (failure_messages outcomes)
    /\ status record
       = match failure_messages outcomes with
         | [] => COMPLETED
         | _ :: _ => FAILED
         end
    /\ (requested = [] -> evs = [])
    /\ history_file s'
       = (if fs_error host (world s') then history_file s
          else journaled host (history_file s) record).
Proof.
  unfold scale_down.
  destruct (proj1 (clock_run host s)) as (s1 & did & H1 & A1).
  rewrite (bind_ok _ _ _ _ _ H1).
  destruct (proj2 (clock_run host s1)) as (s2 & start & H2 & A2).
  rewrite (bind_ok _ _ _ _ _ H2).
  destruct (fresh_tasks requested) as (Hn0 & Hd0 & Hf0).
  set (total := Z.of_nat (List.length requested)).
  destruct (gather_reports action on_progress total (List.length requested)
              (map (fun pid => (pid, None)) requested) s2 ltac:(lia))
    as (s3 & tasks & evs & Hrun & A3 & Hfst & Hnone & Hperm & Hprog & Hnil).
  rewrite (bind_ok _ _ _ _ _ Hrun).
  destruct (all_returned_reports total tasks Hnone)
    as (outcomes & Hlen & Hcalls & Herrs & Hpos).
  rewrite Herrs.
  destruct (proj2 (clock_run host s3)) as (s4 & finish & H4 & A4).
  rewrite (bind_ok _ _ _ _ _ H4).
  match goal with
  | |- context [_record_deploy host ?r] => set (record := r)
  end.
  destruct (_record_deploy_run host record s4)
    as (s5 & H5 & T5 & W5 & R5 & P5 & D5 & F5).
  rewrite (bind_ok _ _ _ _ _ H5). unfold ret.
  exists s5, record, evs, outcomes. split; [reflexivity | ].
  rewrite Hd0 in Hperm. simpl in Hperm.
  rewrite Hcalls, Hfst, Hf0 in Hperm.
  pose proof (advances_trans _ _ _ _ _ A1
                (advances_trans _ _ _ _ _ A2
                   (advances_trans _ _ _ _ _ A3 A4))) as A.
  simpl in A. rewrite app_nil_r in A.
  destruct A as (At & Ar & Ap & Ah & Ad & Ac).
  conjs.
  - unfold advances, set_history. simpl. conjs.
    + now rewrite T5.
    + now rewrite R5.
    + now rewrite P5.
    + reflexivity.
    + now rewrite D5.
    + intro Hc. apply Ac in Hc. clear - Hc H5.
      unfold _record_deploy in H5.
      destruct (fs_error host (world s4)); injection H5 as <-; exact Hc.
  - pose proof (f_equal (@List.length _) Hfst) as Hl.
    rewrite !length_map in Hl. rewrite Hlen. exact Hl.
  - exact Hperm.
  - destruct on_progress; [ | exact Hprog].
    rewrite <- Hpos.
    assert (H0 : done_progress total 0
                   (map (fun pid => (pid, @None (result string))) requested)
                 = []).
    { generalize total. clear. intro t. generalize 0%nat.
      induction requested as [ | pid l IH]; intro i; simpl;
        [reflexivity | apply IH]. }
    rewrite H0 in Hprog. simpl in Hprog. now symmetry.
  - subst record. destruct (failure_messages outcomes); reflexivity.
  - subst record. destruct (failure_messages outcomes); reflexivity.
  - intros ->. apply Hnil. reflexivity.
  - rewrite F5, W5, Ah. reflexivity.
Qed.

Lemma pending_from_app (l1 l2 : list task) :
  forall b,
    pending_from b (l1 ++ l2)
    = (pending_from b l1 ++ pending_from (b + List.length l1) l2)%list.
Proof.
  induction l1 as [ | [pid [r | ]] l1 IH]; intro b; simpl.
  - now rewrite Nat.add_0_r.
  - rewrite IH. now rewrite Nat.add_succ_r.
  - rewrite IH. now rewrite Nat.add_succ_r.
Qed.

Lemma pending_from_fresh (pod_ids : list string) :
  forall b,
    pending_from b (map (fun pid => (pid, @None (result string))) pod_ids)
    = seq b (List.length pod_ids).
Proof.
  induction pod_ids as [ | pid pod_ids IH]; intro b; simpl;
    [reflexivity | now rewrite IH].
Qed.

(** The [gather] of [scale_down], with the order in which its tasks
    return: the trace grows by the events of each task as it returns, and
    every task in flight returns once. *)
Lemma gather_order (action : string) (on_progress : bool) (total : Z)
    (rounds : nat) :
  forall (tasks : list task) (s : St W),
    (npending tasks <= rounds)%nat ->
    exists s' tasks' returned,
      gather host rounds action on_progress total tasks s = (s', Ok tasks')
      /\ trace s'
         = (trace s
            ++ flat_map (fun ir => task_events action on_progress total
                                     (nth (fst ir) (map fst tasks) "")
                                     (fst ir) (snd ir)) returned)%list
      /\ Permutation (map fst returned) (pending tasks).
Proof.
  induction rounds as [ | rounds IH]; intros tasks s Hle.
  - exists s, tasks, []. simpl. rewrite app_nil_r.
    conjs; try reflexivity.
    unfold pending.
    destruct (pending_from 0 tasks) as [ | p ps] eqn:Hp; [constructor | ].
    pose proof (pending_from_length tasks 0) as Hl. rewrite Hp in Hl.
    simpl in Hl. lia.
  - cbn [gather].
    destruct (pending tasks) as [ | p ps] eqn:Hp.
    + exists s, tasks, []. simpl. rewrite app_nil_r.
      conjs; reflexivity.
    + set (k := Nat.modulo _ _).
      set (index := nth k (p :: ps) p).
      assert (Hin : In index (pending_from 0 tasks)).
      { fold (pending tasks). rewrite Hp. apply nth_In.
        apply Nat.mod_upper_bound. discriminate. }
      destruct (pending_from_split _ _ _ Hin) as (l1 & pid & l2 & Htasks & Hidx).
      simpl in Hidx. rewrite Htasks, Hidx, nth_middle_task. cbn [fst].
      destruct (_stop_one_run host action on_progress total pid
                  (List.length l1) s)
        as (s1 & r & H1 & A1 & _).
      rewrite (bind_ok _ _ _ _ _ H1), set_nth_middle.
      rewrite Htasks, npending_middle in Hle.
      destruct (IH (l1 ++ (pid, Some (task_result pid r)) :: l2)%list s1)
        as (s' & tasks' & returned & Hrun & Htrace & Hperm).
      { rewrite npending_middle. lia. }
      exists s', tasks', ((List.length l1, r) :: returned).
      conjs.
      * exact Hrun.
      * rewrite Htrace. destruct A1 as (-> & _).
        rewrite <- app_assoc. f_equal. cbn [flat_map fst snd].
        assert (Hfst : map fst (l1 ++ (pid, Some (task_result pid r)) :: l2)
                       = map fst (l1 ++ (pid, @None (result string)) :: l2))
          by (rewrite !map_app; reflexivity).
        rewrite Hfst. f_equal.
        rewrite map_app. cbn [map fst].
        assert (Hnth : nth (List.length l1) (map fst l1 ++ pid :: map fst l2) ""
                       = pid)
          by (rewrite <- (length_map fst l1); apply nth_middle).
        now rewrite Hnth.
      * cbn [map fst]. rewrite Htasks in Hp. rewrite <- Hp.
        unfold pending in *.
        rewrite pending_from_app in Hperm. rewrite pending_from_app.
        cbn [pending_from] in *. simpl in *.
        apply Permutation_cons_app. exact Hperm.
Qed.

Lemma completion_events_calls (action : string) (on_progress : bool)
    (requested : list string) (returned : list (nat * result unit)) :
  stop_calls (completion_events action on_progress requested returned)
  = completion_calls requested returned.
Proof.
  unfold completion_events, completion_calls.
  induction returned as [ | [i r] returned IH]; [reflexivity | ].
  cbn [flat_map map fst snd]. rewrite stop_calls_app, IH.
  unfold task_events.
  destruct (String.eqb action "terminate"), r as [e | u], on_progress;
    reflexivity.
Qed.

Lemma completion_events_reports (action : string) (on_progress : bool)
    (requested : list string) (returned : list (nat * result unit)) :
  progress_calls (completion_events action on_progress requested returned)
  = if on_progress
    then completion_reports (Z.of_nat (List.length requested)) returned
    else [].
Proof.
  unfold completion_events, completion_reports.
  induction returned as [ | [i r] returned IH].
  - now destruct on_progress.
  - cbn [flat_map fst snd].
    rewrite progress_calls_app, IH, task_events_progress.
    destruct r as [e | u], on_progress; reflexivity.
Qed.

(** A run of [scale_down], with the order in which its calls return. *)
Lemma scale_down_order (requested : list string) (action : string)
    (on_progress : bool) (s : St W) :
  exists s' record returned,
    scale_down host requested action on_progress s = (s', Ok record)
    /\ trace s'
       = (trace s ++ completion_events action on_progress requested returned)%list
    /\ Permutation (map fst returned) (seq 0 (List.length requested)).
Proof.
  unfold scale_down.
  destruct (proj1 (clock_run host s)) as (s1 & did & H1 & A1).
  rewrite (bind_ok _ _ _ _ _ H1).
  destruct (proj2 (clock_run host s1)) as (s2 & start & H2 & A2).
  rewrite (bind_ok _ _ _ _ _ H2).
  destruct (fresh_tasks requested) as (Hn0 & _ & Hf0).
  set (total := Z.of_nat (List.length requested)).
  destruct (gather_order action on_progress total (List.length requested)
              (map (fun pid => (pid, None)) requested) s2 ltac:(lia))
    as (s3 & tasks & returned & Hrun & Htrace & Hperm).
  rewrite (bind_ok _ _ _ _ _ Hrun).
  destruct (proj2 (clock_run host s3)) as (s4 & finish & H4 & A4).
  rewrite (bind_ok _ _ _ _ _ H4).
  match goal with
  | |- context [_record_deploy host ?r] => set (record := r)
  end.
  destruct (_record_deploy_run host record s4)
    as (s5 & H5 & T5 & _).
  rewrite (bind_ok _ _ _ _ _ H5). unfold ret.
  exists s5, record, returned. split; [reflexivity | ].
  split.
  - destruct A1 as (T1 & _), A2 as (T2 & _), A4 as (T4 & _).
    rewrite T5, T4, Htrace, T2, T1, !app_nil_r, Hf0. reflexivity.
  - unfold pending in Hperm. now rewrite pending_from_fresh in Hperm.
Qed.

(** X13: the progress reports of [scale_down]. The calls return in an
    order of their own, in which every position of the request occurs
    once; the events of the run are, for each call in that order, the call
    and then, when it did not fail and a callback is given, its report:
    there is no report without a callback, and with one the reports are
    those of the calls that did not fail, in the order in which the calls
    return, each with the position of its pod in the request (counted from
    1) and the number of pods requested; the numbers reported are distinct
    and lie between 1 and that number, and when no call failed they are
    the numbers 1 to that number in some order. *)
Theorem scale_down_progress_reports (requested : list string)
    (action : string) (on_progress : bool) (s : St W) :
  exists s' record evs outcomes returned,
    scale_down host requested action on_progress s = (s', Ok record)
    /\ trace s' = (trace s ++ evs)%list
    /\ List.length outcomes = List.length requested
    /\ Permutation (combine requested outcomes) (stop_calls evs)
    /\ Permutation (map fst returned) (seq 0 (List.length requested))
    /\ evs = completion_events action on_progress requested returned
    /\ stop_calls evs = completion_calls requested returned
    /\ (on_progress = false -> progress_calls evs = [])
    /\ (on_progress = true ->
        progress_calls evs = completion_reports (pod_count record) returned
        /\ Permutation (progress_calls evs)
             (success_positions (pod_count record) 0 outcomes)
        /\ NoDup (map fst (progress_calls evs))
        /\ Forall (fun dt => 1 <= fst dt <= pod_count record
                             /\ snd dt = pod_count record)
             (progress_calls evs)
        /\ (status record = COMPLETED ->
            Permutation (progress_calls evs)
              (counting (pod_count record) 0 (List.length requested)))).
Proof.
  destruct (scale_down_reports requested action on_progress s)
    as (s' & record & evs & outcomes & Hrun & A & Hlen & Hperm & Hprog
        & _ & Hst & _ & _).
  destruct (scale_down_order requested action on_progress s)
    as (s'' & record' & returned & Hrun' & Htrace & Horder).
  rewrite Hrun in Hrun'. injection Hrun' as <- <-.
  assert (Hevs : evs = completion_events action on_progress requested returned).
  { destruct A as (At & _). simpl in At. rewrite At in Htrace.
    now apply app_inv_head in Htrace. }
  assert (Hcount : pod_count record = Z.of_nat (List.length requested)).
  { clear - Hrun. unfold scale_down in Hrun.
    destruct (proj1 (clock_run host s)) as (s1 & did & H1 & _).
    rewrite (bind_ok _ _ _ _ _ H1) in Hrun.
    destruct (proj2 (clock_run host s1)) as (s2 & start & H2 & _).
    rewrite (bind_ok _ _ _ _ _ H2) in Hrun.
    apply bind_inv in Hrun. destruct Hrun as (s3 & tasks & _ & Hrun).
    apply bind_inv in Hrun. destruct Hrun as (s4 & finish & _ & Hrun).
    apply bind_inv in Hrun. destruct Hrun as (s5 & [] & _ & Hrun).
    injection Hrun as _ <-.
    destruct (result_errors (gather_results tasks)); reflexivity. }
  exists s', record, evs, outcomes, returned. conjs.
  - exact Hrun.
  - apply A.
  - exact Hlen.
  - exact Hperm.
  - exact Horder.
  - exact Hevs.
  - rewrite Hevs. apply completion_events_calls.
  - intros ->. exact Hprog.
  - intros ->. rewrite Hcount. conjs.
    + rewrite Hevs. apply completion_events_reports.
    + exact Hprog.
    + eapply Permutation_NoDup;
        [apply Permutation_map, Permutation_sym, Hprog | ].
      apply success_positions_nodup.
    + eapply Permutation_Forall; [apply Permutation_sym, Hprog | ].
      eapply Forall_impl; [ | apply success_positions_bounds].
      simpl. intros dt [Hb Ht]. split; [lia | exact Ht].
    + intro Hdone. rewrite Hdone in Hst.
      destruct (failure_messages outcomes) eqn:Hnone; [ | discriminate Hst].
      rewrite <- Hlen at 2.
      rewrite <- (success_positions_all _ _ Hnone). exact Hprog.
Qed.

(** X14: [scale_down] appends to the history file the line of the record it
    returns, and nothing else, when the file can be opened, and leaves the
    file as it was otherwise; it does not touch the record, the completed
    pairs or the active-deploy slot of a rolling deploy; for an empty list
    of pod ids it makes no call and returns a completed record. *)
Theorem scale_down_journals_its_record (requested : list string)
    (action : string) (on_progress : bool) (s : St W) :
  exists s' record evs,
    scale_down host requested action on_progress s = (s', Ok record)
    /\ trace s' = (trace s ++ evs)%list
    /\ history_file s'
       = (if fs_error host (world s') then history_file s
          else Some (match history_file s with Some c => c | None => "" end
                     ++ json_dumps host record ++ newline))
    /\ record_cell s' = record_cell s
    /\ completed_pairs s' = completed_pairs s
    /\ _active_deploy s' = _active_deploy s
    /\ (requested = [] ->
        evs = [] /\ status record = COMPLETED /\ error record = "").
Proof.
  destruct (scale_down_reports requested action on_progress s)
    as (s' & record & evs & outcomes & Hrun & A & Hlen & _ & _
        & Herr & Hst & Hnil & Hhist).
  exists s', record, evs. destruct A as (At & Ar & Ap & _ & Ad & _).
  conjs; try assumption.
  intros ->. destruct outcomes; [ | discriminate Hlen].
  conjs; [now apply Hnil | exact Hst | exact Herr].
Qed.

End ScaleDownReports.

(** The calls of a scale-down return in an order of their own: with three
    pods stopped, the last one first, the reports are 3, 2 and 1 of 3. *)
Example scale_down_progress_order :
  let h := Script.host Script.create_ok Script.up Script.always_ok Script.never
             Script.last_done in
  progress_calls
    (trace (fst (scale_down h ["a"; "b"; "c"] "terminate" true Script.fresh)))
  = [(3, 3); (2, 3); (1, 3)].
Proof. reflexivity. Qed.

(** ** Rolling deploy: the run without incident *)

Section CleanDeploy.

Context {W : Type}.
Variable host : Host W.

Hypothesis Hsoft : soft_failures host.
Hypothesis Hcalm : never_cancelled host.













End CleanDeploy.


(** The run of the witness: two pods replaced, a grace period of one
    minute each. *)
Example rolling_deploy_two_pods :
  let run := rolling_deploy steady
               [Script.pod "p1" "RUNNING" (Some 120);
                Script.pod "p2" "RUNNING" (Some 120)]
               "img:2" 1 300 true true false Script.fresh in
  option_map pod_ids (match snd run with Ok r => Some r | _ => None end)
  = Some ["r0"; "r63"]
  /\ stop_calls (trace (fst run)) = [("p1", inr tt); ("p2", inr tt)]
  /\ progress_calls (trace (fst run)) = [(1, 2); (2, 2)]
  /\ List.length (filter (fun ev => match ev with
                                    | EvSleep 1 => true
                                    | _ => false
                                    end) (trace (fst run))) = 120%nat.
Proof. vm_compute. repeat split. Qed.

(** ** Rolling deploy: incidents after a completed prefix *)

Section DeployIncidents.

Context {W : Type}.
Variable host : Host W.

Hypothesis Hsoft : soft_failures host.

(** What [deploy_begin] leaves. *)
Lemma deploy_begin_record (target_pods : list Pod.t) (new_image : string)
    (s s0 : St W) (did : string) (start : Z) :
  deploy_begin host target_pods new_image s = (s0, Ok (did, start)) ->
  record_cell s0 = initial_record host did start target_pods new_image
  /\ _deploy_cancelled s0 = false
  /\ trace s0 = trace s
  /\ completed_pairs s0 = []
  /\ history_file s0 = history_file s.
Proof.
  intro Hbegin.
  destruct (uuid4_hex8 host (world s)) as [w1 did'] eqn:Hu.
  destruct (now host w1) as [w2 start'] eqn:Hn.
  destruct (deploy_begin_run host target_pods new_image s w1 w2 did' start'
              Hu Hn) as (s0' & H0' & _ & T0 & C0 & R0 & P0 & F0).
  rewrite Hbegin in H0'. injection H0' as <- <- <-. now conjs.
Qed.

(** The deploy when the iteration of [old_pod] leaves the loop. *)
Lemma rolling_deploy_breaks (s s0 sk s4 : St W)
    (pre : list Pod.t) (old_pod : Pod.t) (post : list Pod.t)
    (new_image : string) (gpm hct : Z) (osc op oc : bool)
    (did : string) (start : Z) :
  deploy_begin host (pre ++ old_pod :: post) new_image s
  = (s0, Ok (did, start)) ->
  deploy_prefix host did new_image hct (gpm * 60)
    (Z.of_nat (List.length (pre ++ old_pod :: post))) osc op oc pre s0
  = (sk, Ok Continue) ->
  iteration_head host did new_image hct (gpm * 60) osc oc old_pod sk
  = (s4, Ok None) ->
  exists s' finish,
    rolling_deploy host (pre ++ old_pod :: post) new_image gpm hct osc op oc s
    = (s', Ok (set_duration_seconds (finish - start) (record_cell s4)))
    /\ trace s' = trace s4
    /\ completed_pairs s' = completed_pairs s4
    /\ _active_deploy s' = None.
Proof.
  intros Hbegin Hpre Hhead.
  destruct (deploy_end_run host start s4) as (s' & finish & H5 & T5 & P5 & D5 & _).
  exists s', finish. split; [ | now conjs].
  unfold rolling_deploy. rewrite (bind_ok _ _ _ _ _ Hbegin). cbn [fst snd].
  erewrite bind_ok; [exact H5 | ].
  apply try_except_ok.
  rewrite (deploy_loop_split host _ _ _ _ _ _ _ _ _ _ _ _ Hpre).
  cbn [deploy_loop].
  erewrite bind_ok; cycle 1.
  { unfold deploy_iteration. rewrite (bind_ok _ _ _ _ _ Hhead). reflexivity. }
  reflexivity.
Qed.

(** The deploy when an exception escapes the iteration of [old_pod]. *)
Lemma rolling_deploy_escapes (s s0 sk s4 : St W)
    (pre : list Pod.t) (old_pod : Pod.t) (post : list Pod.t)
    (new_image : string) (gpm hct : Z) (osc op oc : bool)
    (did : string) (start : Z) (e : exn) :
  deploy_begin host (pre ++ old_pod :: post) new_image s
  = (s0, Ok (did, start)) ->
  deploy_prefix host did new_image hct (gpm * 60)
    (Z.of_nat (List.length (pre ++ old_pod :: post))) osc op oc pre s0
  = (sk, Ok Continue) ->
  iteration_head host did new_image hct (gpm * 60) osc oc old_pod sk
  = (s4, Raise e) ->
  exists s' finish rb,
    rolling_deploy host (pre ++ old_pod :: post) new_image gpm hct osc op oc s
    = (s', Ok (set_duration_seconds (finish - start)
                 (set_status ROLLING_BACK
                    (set_error (str_exn e)
                       (set_status FAILED (record_cell s4))))))
    /\ trace s' = (trace s4 ++ rb)%list
    /\ rollback_events (completed_pairs s4) rb
    /\ _active_deploy s' = None.
Proof.
  intros Hbegin Hpre Hhead.
  destruct (modify_record_run (set_status FAILED) s4) as (s5 & H5 & M5).
  destruct (modify_record_run (set_error (str_exn e)) s5) as (s6 & H6 & M6).
  destruct (_rollback_deploy_run host s6 Hsoft) as (s7 & rb & H7 & M7 & Hrb).
  destruct (deploy_end_run host start s7) as (s' & finish & H8 & T8 & _ & D8 & _).
  pose proof (moves_moves _ _ _ _ _ _ _ (moves_moves _ _ _ _ _ _ _ M5 M6) M7)
    as (Tm & Rm & Pm & _).
  simpl in Tm.
  assert (P6 : completed_pairs s6 = completed_pairs s4).
  { destruct M5 as (_ & _ & P5 & _). destruct M6 as (_ & _ & P6 & _).
    now rewrite P6. }
  exists s', finish, rb. conjs.
  - unfold rolling_deploy. rewrite (bind_ok _ _ _ _ _ Hbegin). cbn [fst snd].
    erewrite bind_ok; [rewrite H8, Rm; reflexivity | ].
    unfold try_except.
    rewrite (deploy_loop_split host _ _ _ _ _ _ _ _ _ _ _ _ Hpre).
    cbn [deploy_loop].
    erewrite bind_raise; cycle 1.
    { unfold deploy_iteration. apply bind_raise. exact Hhead. }
    rewrite (bind_ok _ _ _ _ _ H5), (bind_ok _ _ _ _ _ H6). exact H7.
  - now rewrite T8.
  - now rewrite <- P6.
  - exact D8.
Qed.

(** The iteration of [old_pod] when [create_pod] raises. *)
Lemma iteration_head_create_fails (deploy_id new_image : string)
    (hct grace : Z) (osc oc : bool) (old_pod : Pod.t) (s : St W)
    (w : W) (e : exn) :
  _deploy_cancelled s = false ->
  create_pod host (replacement_args deploy_id new_image old_pod) (world s)
  = (w, inl e) ->
  exists s' rb,
    iteration_head host deploy_id new_image hct grace osc oc old_pod s
    = (s', Ok None)
    /\ moves (fun r => set_error (creation_error old_pod e)
                         (set_status FAILED (set_status ROLLING_BACK r)))
         s s'
         (say osc (EvStateChange (Pod.id old_pod) "CREATE_NEW" "")
            ++ [EvCreate (replacement_args deploy_id new_image old_pod)
                  (inl e)]
            ++ say osc (EvStateChange (Pod.id old_pod) "FAILED" (str_exn e))
            ++ rb)
    /\ rollback_events (completed_pairs s) rb.
Proof.
  intros Hflag Hcreate. unfold iteration_head.
  unfold bind at 1. unfold get_cancelled at 1. rewrite Hflag.
  destruct (when_emit_run osc
              (EvStateChange (Pod.id old_pod) "CREATE_NEW" "") s)
    as (s1 & H1 & A1 & _ & W1).
  rewrite (bind_ok _ _ _ _ _ H1).
  unfold bind at 1. rewrite try_create_run, W1, Hcreate. cbn [fst snd].
  set (args := replacement_args deploy_id new_image old_pod).
  set (s2 := resumed host w [EvCreate args (inl e)] s1).
  assert (A2 : advances s1 s2 [EvCreate args (inl e)])
    by apply advances_resumed.
  destruct (when_emit_run osc
              (EvStateChange (Pod.id old_pod) "FAILED" (str_exn e)) s2)
    as (s3 & H3 & A3 & _ & _).
  rewrite (bind_ok _ _ _ _ _ H3).
  destruct (_rollback_deploy_run host s3 Hsoft) as (s4 & rb & H4 & M4 & Hrb).
  rewrite (bind_ok _ _ _ _ _ H4).
  destruct (modify_record_run (set_status FAILED) s4) as (s5 & H5 & M5).
  rewrite (bind_ok _ _ _ _ _ H5).
  destruct (modify_record_run (set_error (creation_error old_pod e)) s5)
    as (s6 & H6 & M6).
  unfold creation_error in H6. rewrite (bind_ok _ _ _ _ _ H6).
  exists s6, rb. split; [reflexivity | ].
  pose proof (advances_trans _ _ _ _ _ A1 (advances_trans _ _ _ _ _ A2 A3))
    as A13.
  pose proof (moves_moves _ _ _ _ _ _ _ (moves_moves _ _ _ _ _ _ _ M4 M5) M6)
    as M46.
  pose proof (advances_moves _ _ _ _ _ _ A13 M46) as M.
  rewrite !app_nil_r, <- !app_assoc in M.
  split; [exact M | ].
  destruct A13 as (_ & _ & <- & _). exact Hrb.
Qed.

(** The iteration of [old_pod], once its replacement is created, by the
    verdict of the health check. *)
Lemma iteration_head_verdict (deploy_id new_image : string)
    (hct grace : Z) (osc oc : bool) (old_pod new_pod : Pod.t) (s : St W)
    (w : W) :
  _deploy_cancelled s = false ->
  create_pod host (replacement_args deploy_id new_image old_pod) (world s)
  = (w, inr new_pod) ->
  exists s3,
    advances s s3 (creation_events deploy_id new_image osc old_pod new_pod)
    /\ world s3 = w
    /\ _deploy_cancelled s3 = cancel_pressed host w
    /\ (forall s4,
          _wait_for_healthy host (Pod.id new_pod) hct s3 = (s4, Ok false) ->
          exists s' rt rb,
            iteration_head host deploy_id new_image hct grace osc oc old_pod s
            = (s', Ok None)
            /\ moves (fun r => set_error (health_error new_pod)
                                 (set_status FAILED
                                    (set_status ROLLING_BACK r)))
                 s4 s'
                 (say osc (EvStateChange (Pod.id old_pod) "ROLLING_BACK"
                             (Pod.id new_pod))
                    ++ [EvTerminate (Pod.id new_pod) rt] ++ rb)
            /\ rollback_events (completed_pairs s4) rb)
    /\ (forall s4 e,
          _wait_for_healthy host (Pod.id new_pod) hct s3 = (s4, Raise e) ->
          iteration_head host deploy_id new_image hct grace osc oc old_pod s
          = (s4, Raise e))
    /\ (forall s4,
          _wait_for_healthy host (Pod.id new_pod) hct s3 = (s4, Ok true) ->
          exists s' evs,
            iteration_head host deploy_id new_image hct grace osc oc old_pod s
            = (s', Ok (Some new_pod))
            /\ advances s4 s' evs
            /\ Forall harmless evs).
Proof.
  intros Hflag Hcreate.
  destruct (when_emit_run osc
              (EvStateChange (Pod.id old_pod) "CREATE_NEW" "") s)
    as (s1 & H1 & A1 & F1 & W1).
  set (args := replacement_args deploy_id new_image old_pod) in *.
  set (s2 := resumed host w [EvCreate args (inr new_pod)] s1).
  assert (A2 : advances s1 s2 [EvCreate args (inr new_pod)])
    by apply advances_resumed.
  destruct (when_emit_run osc
              (EvStateChange (Pod.id old_pod) "HEALTH_CHECK" (Pod.id new_pod))
              s2)
    as (s3 & H3 & A3 & F3 & W3).
  exists s3. conjs.
  - exact (advances_trans _ _ _ _ _ A1 (advances_trans _ _ _ _ _ A2 A3)).
  - rewrite W3. reflexivity.
  - rewrite F3. subst s2. simpl. now rewrite F1, Hflag.
  - intros s4 H4. unfold iteration_head.
    unfold bind at 1. unfold get_cancelled at 1. rewrite Hflag.
    rewrite (bind_ok _ _ _ _ _ H1).
    unfold bind at 1. rewrite try_create_run, W1. fold args.
    rewrite Hcreate. cbn [fst snd]. fold s2.
    rewrite (bind_ok _ _ _ _ _ H3).
    rewrite (bind_ok _ _ _ _ _ H4). cbn [negb].
    destruct (when_emit_run osc
                (EvStateChange (Pod.id old_pod) "ROLLING_BACK"
                   (Pod.id new_pod)) s4)
      as (s5 & H5 & A5 & _ & _).
    rewrite (bind_ok _ _ _ _ _ H5).
    destruct (terminate_soft host (Pod.id new_pod) s5 Hsoft)
      as (s6 & rt & H6 & A6).
    rewrite (bind_ok _ _ _ _ _ H6).
    destruct (_rollback_deploy_run host s6 Hsoft) as (s7 & rb & H7 & M7 & Hrb).
    rewrite (bind_ok _ _ _ _ _ H7).
    destruct (modify_record_run (set_status FAILED) s7) as (s8 & H8 & M8).
    rewrite (bind_ok _ _ _ _ _ H8).
    destruct (modify_record_run (set_error (health_error new_pod)) s8)
      as (s9 & H9 & M9).
    unfold health_error in H9. rewrite (bind_ok _ _ _ _ _ H9).
    exists s9, rt, rb. split; [reflexivity | ].
    pose proof (advances_trans _ _ _ _ _ A5 A6) as A56.
    pose proof (moves_moves _ _ _ _ _ _ _
                  (moves_moves _ _ _ _ _ _ _ M7 M8) M9) as M79.
    pose proof (advances_moves _ _ _ _ _ _ A56 M79) as M.
    rewrite !app_nil_r, <- !app_assoc in M.
    split; [exact M | ].
    destruct A56 as (_ & _ & <- & _). exact Hrb.
  - intros s4 e H4. unfold iteration_head.
    unfold bind at 1. unfold get_cancelled at 1. rewrite Hflag.
    rewrite (bind_ok _ _ _ _ _ H1).
    unfold bind at 1. rewrite try_create_run, W1. fold args.
    rewrite Hcreate. cbn [fst snd]. fold s2.
    rewrite (bind_ok _ _ _ _ _ H3).
    apply bind_raise. exact H4.
  - intros s4 H4. unfold iteration_head.
    unfold bind at 1. unfold get_cancelled at 1. rewrite Hflag.
    rewrite (bind_ok _ _ _ _ _ H1).
    unfold bind at 1. rewrite try_create_run, W1. fold args.
    rewrite Hcreate. cbn [fst snd]. fold s2.
    rewrite (bind_ok _ _ _ _ _ H3).
    rewrite (bind_ok _ _ _ _ _ H4). cbn [negb].
    destruct (when_emit_run osc
                (EvStateChange (Pod.id old_pod) "DRAINING" (Pod.id new_pod))
                s4)
      as (s5 & H5 & A5 & _ & _).
    rewrite (bind_ok _ _ _ _ _ H5).
    destruct (grace_loop_run host oc (S (Z.to_nat grace)) grace s5
                ltac:(lia)) as (s6 & evs & H6 & A6 & Hidle).
    rewrite (bind_ok _ _ _ _ _ H6).
    destruct (when_emit_run oc (EvCountdown 0) s6) as (s7 & H7 & A7 & _ & _).
    rewrite (bind_ok _ _ _ _ _ H7). unfold ret.
    eexists; eexists. split; [reflexivity | ]. split.
    + exact (advances_trans _ _ _ _ _ A5 (advances_trans _ _ _ _ _ A6 A7)).
    + repeat (apply Forall_app; split).
      * destruct osc; repeat constructor.
      * eapply Forall_impl; [ | exact Hidle].
        intros [ ] Hev; try contradiction; exact I.
      * destruct oc; repeat constructor.
Qed.

(** The health check leaves the completed pairs alone. *)
Lemma _wait_for_healthy_pairs (pod_id : string) (timeout : Z) (s s' : St W)
    (res : Res bool) :
  _wait_for_healthy host pod_id timeout s = (s', res) ->
  exists evs,
    advances s s' evs /\ poll_events pod_id evs.
Proof.
  intro H.
  destruct (_wait_for_healthy_run host pod_id timeout s)
    as (s1 & res1 & evs & H1 & _ & A & Hp & _).
  rewrite H in H1. injection H1 as -> _. now exists evs.
Qed.

(** X16: a replacement that cannot be created. When the iterations of the
    pods before [old_pod] completed their pairs and [create_pod] raises for
    the replacement of [old_pod], whatever the exception, [rolling_deploy]
    makes no other call about [old_pod]: it rolls back the completed pairs
    (terminating each replacement and resuming each old pod), and returns a
    record with status failed and the error "Failed to create replacement
    for", the id of [old_pod] and the text of the exception; the record
    holds no pod id. *)
Theorem creation_failure_fails_deploy (s s0 sk : St W)
    (pre : list Pod.t) (old_pod : Pod.t) (post : list Pod.t)
    (new_image : string) (grace_period_minutes health_check_timeout : Z)
    (on_state_change on_progress on_countdown : bool)
    (did : string) (start : Z) (w : W) (e : exn) :
  deploy_begin host (pre ++ old_pod :: post) new_image s
  = (s0, Ok (did, start)) ->
  deploy_prefix host did new_image health_check_timeout
    (grace_period_minutes * 60)
    (Z.of_nat (List.length (pre ++ old_pod :: post)))
    on_state_change on_progress on_countdown pre s0 = (sk, Ok Continue) ->
  _deploy_cancelled sk = false ->
  create_pod host (replacement_args did new_image old_pod) (world sk)
  = (w, inl e) ->
  exists s' record rb,
    rolling_deploy host (pre ++ old_pod :: post) new_image
      grace_period_minutes health_check_timeout
      on_state_change on_progress on_countdown s = (s', Ok record)
    /\ trace s'
       = (trace sk
            ++ say on_state_change
                 (EvStateChange (Pod.id old_pod) "CREATE_NEW" "")
            ++ [EvCreate (replacement_args did new_image old_pod) (inl e)]
            ++ say on_state_change
                 (EvStateChange (Pod.id old_pod) "FAILED" (str_exn e))
            ++ rb)%list
    /\ rollback_events (completed_pairs sk) rb
    /\ map fst (completed_pairs sk) = pre
    /\ status record = FAILED
    /\ error record = creation_error old_pod e
    /\ pod_ids record = []
    /\ _active_deploy s' = None.
Proof.
  intros Hbegin Hpre Hflag Hcreate.
  destruct (deploy_begin_inv host _ _ _ _ _ _ Hbegin) as [T0 P0].
  destruct (deploy_prefix_completed host _ _ _ _ _ _ _ _ _ _ _ Hpre)
    as (evs1 & pairs & T1 & R1 & P1 & F1 & Hfst & _).
  rewrite P0 in P1. simpl in P1.
  destruct (iteration_head_create_fails did new_image health_check_timeout
              (grace_period_minutes * 60) on_state_change on_countdown
              old_pod sk w e Hflag Hcreate)
    as (s4 & rb & H4 & M4 & Hrb).
  destruct (rolling_deploy_breaks s s0 sk s4 pre old_pod post new_image
              grace_period_minutes health_check_timeout on_state_change
              on_progress on_countdown did start Hbegin Hpre H4)
    as (s' & finish & Hrun & T & _ & D).
  exists s', (set_duration_seconds (finish - start) (record_cell s4)), rb.
  destruct M4 as (T4 & R4 & _).
  destruct (deploy_begin_record _ _ _ _ _ _ Hbegin) as (R0 & _).
  assert (Hids : pod_ids (record_cell sk) = [])
    by (rewrite R1, R0; reflexivity).
  conjs.
  - exact Hrun.
  - now rewrite T, T4.
  - exact Hrb.
  - rewrite P1. exact Hfst.
  - rewrite R4. reflexivity.
  - rewrite R4. reflexivity.
  - rewrite R4. exact Hids.
  - exact D.
Qed.

(** A first poll that raises an exception other than [RunPodError]. *)
Lemma first_poll_raises (pod_id : string) (timeout : Z) (s : St W)
    (w : W) (m : string) :
  0 < timeout ->
  _deploy_cancelled s = false ->
  get_pod host pod_id (world s) = (w, inl (OtherError m)) ->
  _wait_for_healthy host pod_id timeout s
  = (resumed host w [EvGet pod_id (inl (OtherError m))] s,
     Raise (OtherError m)).
Proof.
  intros Hpos Hflag Hget. unfold _wait_for_healthy. cbn [wait_loop].
  destruct (Z.ltb_spec 0 timeout) as [_ | Hle]; [ | lia].
  unfold bind at 1. unfold get_cancelled. rewrite Hflag.
  unfold bind at 1. unfold try_except, bind at 1, client_get_pod.
  rewrite Hget. reflexivity.
Qed.

(** X17: a health check that gives up fails the deploy, whatever made it
    give up. When the iterations of the pods before [old_pod] completed their
    pairs and the replacement of [old_pod] is created, then as soon as
    [_wait_for_healthy] answers "unhealthy" (because the timeout is spent or
    because a cancellation was requested, be it during the creation, in
    which case no poll is made) [rolling_deploy] terminates the
    replacement, rolls back the completed pairs and returns a record with
    status failed and the error of a failed health check: a cancellation
    during the health check is not reported as rolled back. *)
Theorem unhealthy_verdict_fails_deploy (s s0 sk : St W)
    (pre : list Pod.t) (old_pod : Pod.t) (post : list Pod.t)
    (new_image : string) (grace_period_minutes health_check_timeout : Z)
    (on_state_change on_progress on_countdown : bool)
    (did : string) (start : Z) (w : W) (new_pod : Pod.t) :
  deploy_begin host (pre ++ old_pod :: post) new_image s
  = (s0, Ok (did, start)) ->
  deploy_prefix host did new_image health_check_timeout
    (grace_period_minutes * 60)
    (Z.of_nat (List.length (pre ++ old_pod :: post)))
    on_state_change on_progress on_countdown pre s0 = (sk, Ok Continue) ->
  _deploy_cancelled sk = false ->
  create_pod host (replacement_args did new_image old_pod) (world sk)
  = (w, inr new_pod) ->
  exists s3,
    trace s3
    = (trace sk
         ++ creation_events did new_image on_state_change old_pod new_pod)%list
    /\ world s3 = w
    /\ (cancel_pressed host w = true ->
        _wait_for_healthy host (Pod.id new_pod) health_check_timeout s3
        = (s3, Ok false))
    /\ forall s4,
         _wait_for_healthy host (Pod.id new_pod) health_check_timeout s3
         = (s4, Ok false) ->
         exists s' record polled rt rb,
           rolling_deploy host (pre ++ old_pod :: post) new_image
             grace_period_minutes health_check_timeout
             on_state_change on_progress on_countdown s = (s', Ok record)
           /\ trace s4 = (trace s3 ++ polled)%list
           /\ poll_events (Pod.id new_pod) polled
           /\ trace s'
              = (trace s4
                   ++ say on_state_change
                        (EvStateChange (Pod.id old_pod) "ROLLING_BACK"
                           (Pod.id new_pod))
                   ++ [EvTerminate (Pod.id new_pod) rt] ++ rb)%list
           /\ rollback_events (completed_pairs sk) rb
           /\ map fst (completed_pairs sk) = pre
           /\ status record = FAILED
           /\ error record = health_error new_pod
           /\ pod_ids record = []
           /\ _active_deploy s' = None.
Proof.
  intros Hbegin Hpre Hflag Hcreate.
  destruct (deploy_begin_inv host _ _ _ _ _ _ Hbegin) as [T0 P0].
  destruct (deploy_prefix_completed host _ _ _ _ _ _ _ _ _ _ _ Hpre)
    as (evs1 & pairs & T1 & R1 & P1 & F1 & Hfst & _).
  rewrite P0 in P1. simpl in P1.
  destruct (deploy_begin_record _ _ _ _ _ _ Hbegin) as (R0 & _).
  destruct (iteration_head_verdict did new_image health_check_timeout
              (grace_period_minutes * 60) on_state_change on_countdown
              old_pod new_pod sk w Hflag Hcreate)
    as (s3 & A3 & W3 & F3 & Hfalse & _).
  exists s3. conjs.
  - apply A3.
  - exact W3.
  - intro Hc. apply wait_loop_cancelled. now rewrite F3.
  - intros s4 H4.
    destruct (Hfalse s4 H4) as (s5 & rt & rb & H5 & M5 & Hrb).
    destruct (_wait_for_healthy_pairs _ _ _ _ _ H4) as (polled & A4 & Hpolled).
    destruct (rolling_deploy_breaks s s0 sk s5 pre old_pod post new_image
                grace_period_minutes health_check_timeout on_state_change
                on_progress on_countdown did start Hbegin Hpre H5)
      as (s' & finish & Hrun & T & _ & D).
    exists s', (set_duration_seconds (finish - start) (record_cell s5)),
      polled, rt, rb.
    destruct M5 as (T5 & R5 & _).
    destruct A3 as (_ & R3 & P3 & _). destruct A4 as (T4 & R4 & P4 & _).
    conjs.
    + exact Hrun.
    + exact T4.
    + exact Hpolled.
    + now rewrite T, T5.
    + rewrite <- P3, <- P4. exact Hrb.
    + rewrite P1. exact Hfst.
    + rewrite R5. reflexivity.
    + rewrite R5. reflexivity.
    + rewrite R5, R4, R3, R1, R0. reflexivity.
    + exact D.
Qed.

(** X18: an exception that is no [RunPodError]. When a poll of the health
    check raises one (as the first poll does when [get_pod] raises it, the
    timeout being positive and no cancellation requested), the exception
    leaves the loop of [rolling_deploy]: the completed pairs are rolled
    back, the replacement just created is not terminated, and the record
    returned has the text of the exception as its error and the status
    rolling back, the status failed set by the handler being overwritten
    by the rollback. *)
Theorem unexpected_exception_leaves_rolling_back (s s0 sk : St W)
    (pre : list Pod.t) (old_pod : Pod.t) (post : list Pod.t)
    (new_image : string) (grace_period_minutes health_check_timeout : Z)
    (on_state_change on_progress on_countdown : bool)
    (did : string) (start : Z) (w : W) (new_pod : Pod.t) :
  deploy_begin host (pre ++ old_pod :: post) new_image s
  = (s0, Ok (did, start)) ->
  deploy_prefix host did new_image health_check_timeout
    (grace_period_minutes * 60)
    (Z.of_nat (List.length (pre ++ old_pod :: post)))
    on_state_change on_progress on_countdown pre s0 = (sk, Ok Continue) ->
  _deploy_cancelled sk = false ->
  create_pod host (replacement_args did new_image old_pod) (world sk)
  = (w, inr new_pod) ->
  exists s3,
    trace s3
    = (trace sk
         ++ creation_events did new_image on_state_change old_pod new_pod)%list
    /\ world s3 = w
    /\ (forall w' m,
          0 < health_check_timeout ->
          cancel_pressed host w = false ->
          get_pod host (Pod.id new_pod) w = (w', inl (OtherError m)) ->
          _wait_for_healthy host (Pod.id new_pod) health_check_timeout s3
          = (resumed host w' [EvGet (Pod.id new_pod) (inl (OtherError m))] s3,
             Raise (OtherError m)))
    /\ forall s4 e,
         _wait_for_healthy host (Pod.id new_pod) health_check_timeout s3
         = (s4, Raise e) ->
         exists s' record polled rb,
           rolling_deploy host (pre ++ old_pod :: post) new_image
             grace_period_minutes health_check_timeout
             on_state_change on_progress on_countdown s = (s', Ok record)
           /\ trace s4 = (trace s3 ++ polled)%list
           /\ poll_events (Pod.id new_pod) polled
           /\ trace s' = (trace s4 ++ rb)%list
           /\ rollback_events (completed_pairs sk) rb
           /\ map fst (completed_pairs sk) = pre
           /\ status record = ROLLING_BACK
           /\ error record = str_exn e
           /\ pod_ids record = []
           /\ _active_deploy s' = None.
Proof.
  intros Hbegin Hpre Hflag Hcreate.
  destruct (deploy_begin_inv host _ _ _ _ _ _ Hbegin) as [T0 P0].
  destruct (deploy_prefix_completed host _ _ _ _ _ _ _ _ _ _ _ Hpre)
    as (evs1 & pairs & T1 & R1 & P1 & F1 & Hfst & _).
  rewrite P0 in P1. simpl in P1.
  destruct (deploy_begin_record _ _ _ _ _ _ Hbegin) as (R0 & _).
  destruct (iteration_head_verdict did new_image health_check_timeout
              (grace_period_minutes * 60) on_state_change on_countdown
              old_pod new_pod sk w Hflag Hcreate)
    as (s3 & A3 & W3 & F3 & _ & Hraise & _).
  exists s3. conjs.
  - apply A3.
  - exact W3.
  - intros w' m Hpos Hc Hget. apply first_poll_raises.
    + exact Hpos.
    + now rewrite F3.
    + now rewrite W3.
  - intros s4 e H4.
    destruct (_wait_for_healthy_pairs _ _ _ _ _ H4) as (polled & A4 & Hpolled).
    destruct (rolling_deploy_escapes s s0 sk s4 pre old_pod post new_image
                grace_period_minutes health_check_timeout on_state_change
                on_progress on_countdown did start e Hbegin Hpre
                (Hraise s4 e H4))
      as (s' & finish & rb & Hrun & T & Hrb & D).
    exists s', (set_duration_seconds (finish - start)
                  (set_status ROLLING_BACK
                     (set_error (str_exn e)
                        (set_status FAILED (record_cell s4))))),
      polled, rb.
    destruct A3 as (_ & R3 & P3 & _). destruct A4 as (T4 & R4 & P4 & _).
    conjs.
    + exact Hrun.
    + exact T4.
    + exact Hpolled.
    + exact T.
    + rewrite <- P3, <- P4. exact Hrb.
    + rewrite P1. exact Hfst.
    + reflexivity.
    + reflexivity.
    + cbn. rewrite R4, R3, R1, R0. reflexivity.
    + exact D.
Qed.

End DeployIncidents.

Lemma creation_failure_witness :
  let h := Script.host (Script.create_but 63 (OtherError "connection reset"))
             Script.up Script.always_ok Script.never Script.first_done in
  let p1 := Script.pod "p1" "RUNNING" (Some 120) in
  let p2 := Script.pod "p2" "RUNNING" (Some 120) in
  let e := OtherError "connection reset" in
  let s0 := fst (deploy_begin h [p1; p2] "img:2" Script.fresh) in
  let sk := fst (deploy_prefix h "0a1b2c3d" "img:2" 10 60 2 true true true
                   [p1] s0) in
  exists s' record rb,
    rolling_deploy h [p1; p2] "img:2" 1 10 true true true Script.fresh
    = (s', Ok record)
    /\ trace s'
       = (trace sk
            ++ say true (EvStateChange "p2" "CREATE_NEW" "")
            ++ [EvCreate (replacement_args "0a1b2c3d" "img:2" p2) (inl e)]
            ++ say true (EvStateChange "p2" "FAILED" (str_exn e))
            ++ rb)%list
    /\ rollback_events (completed_pairs sk) rb
    /\ map fst (completed_pairs sk) = [p1]
    /\ status record = FAILED
    /\ error record = creation_error p2 e
    /\ pod_ids record = []
    /\ _active_deploy s' = None.
Proof.
  intros h p1 p2 e s0 sk.
  assert (Hs : soft_failures h) by (split; intros; discriminate).
  refine (creation_failure_fails_deploy h Hs Script.fresh s0 sk [p1] p2 []
            "img:2" 1 10 true true true "0a1b2c3d" 0 64%nat e _ _ _ _);
    vm_compute; reflexivity.
Defined.

(** The run of the witness: the first pod is replaced, the replacement of
    the second cannot be created; the first replacement is terminated and
    the first old pod, terminated before, is asked to resume. *)
Example creation_failure_run :
  let h := Script.host (Script.create_but 63 (OtherError "connection reset"))
             Script.up Script.always_ok Script.never Script.first_done in
  let run := rolling_deploy h
               [Script.pod "p1" "RUNNING" (Some 120);
                Script.pod "p2" "RUNNING" (Some 120)]
               "img:2" 1 10 false true false Script.fresh in
  match snd run with
  | Ok r =>
      status r = FAILED
      /\ error r = "Failed to create replacement for p2: connection reset"
      /\ pod_count r = 2
  | _ => False
  end
  /\ stop_calls (trace (fst run)) = [("p1", inr tt); ("r0", inr tt)]
  /\ skipn 65 (trace (fst run))
     = [EvTerminate "r0" (inr tt); EvResume "p1" 2 (inr tt)].
Proof. vm_compute. repeat split. Qed.

Lemma unhealthy_verdict_witness :
  let h := impatient 3 in
  let p1 := Script.pod "p1" "RUNNING" (Some 120) in
  let new_pod := Script.pod "r0" "RUNNING" None in
  let s0 := fst (deploy_begin h [p1] "img:2" Script.fresh) in
  exists s3,
    trace s3
    = (trace s0 ++ creation_events "0a1b2c3d" "img:2" true p1 new_pod)%list
    /\ world s3 = 1%nat
    /\ (cancel_pressed h 1%nat = true ->
        _wait_for_healthy h (Pod.id new_pod) 300 s3 = (s3, Ok false))
    /\ forall s4,
         _wait_for_healthy h (Pod.id new_pod) 300 s3 = (s4, Ok false) ->
         exists s' record polled rt rb,
           rolling_deploy h [p1] "img:2" 15 300 true true true Script.fresh
           = (s', Ok record)
           /\ trace s4 = (trace s3 ++ polled)%list
           /\ poll_events (Pod.id new_pod) polled
           /\ trace s'
              = (trace s4
                   ++ say true
                        (EvStateChange (Pod.id p1) "ROLLING_BACK"
                           (Pod.id new_pod))
                   ++ [EvTerminate (Pod.id new_pod) rt] ++ rb)%list
           /\ rollback_events (completed_pairs s0) rb
           /\ map fst (completed_pairs s0) = []
           /\ status record = FAILED
           /\ error record = health_error new_pod
           /\ pod_ids record = []
           /\ _active_deploy s' = None.
Proof.
  intros h p1 new_pod s0.
  assert (Hs : soft_failures h) by (split; intros; discriminate).
  refine (unhealthy_verdict_fails_deploy h Hs Script.fresh s0 s0 [] p1 []
            "img:2" 15 300 true true true "0a1b2c3d" 0 1%nat new_pod
            _ _ _ _);
    vm_compute; reflexivity.
Defined.

(** The run of the witness: the user cancels during the first sleep of the
    health check; the deploy is reported as failed. *)
Example cancel_in_health_check_run :
  let run := rolling_deploy (impatient 3)
               [Script.pod "p1" "RUNNING" (Some 120)]
               "img:2" 15 300 true true true Script.fresh in
  match snd run with
  | Ok r => status r = FAILED /\ error r = "New pod r0 failed health check"
  | _ => False
  end
  /\ trace (fst run)
     = [EvStateChange "p1" "CREATE_NEW" "";
        EvCreate (replacement_args "0a1b2c3d" "img:2"
                    (Script.pod "p1" "RUNNING" (Some 120)))
          (inr (Script.pod "r0" "RUNNING" None));
        EvStateChange "p1" "HEALTH_CHECK" "r0";
        EvGet "r0" (inr (Script.pod "r0" "RUNNING" (Some 0)));
        EvSleep 5;
        EvStateChange "p1" "ROLLING_BACK" "r0";
        EvTerminate "r0" (inr tt)].
Proof. vm_compute. repeat split. Qed.

Lemma unexpected_exception_witness :
  let h := broken_polls in
  let p1 := Script.pod "p1" "RUNNING" (Some 120) in
  let new_pod := Script.pod "r0" "RUNNING" None in
  let s0 := fst (deploy_begin h [p1] "img:2" Script.fresh) in
  exists s3,
    trace s3
    = (trace s0 ++ creation_events "0a1b2c3d" "img:2" true p1 new_pod)%list
    /\ world s3 = 1%nat
    /\ (forall w' m,
          0 < 300 ->
          cancel_pressed h 1%nat = false ->
          get_pod h (Pod.id new_pod) 1%nat = (w', inl (OtherError m)) ->
          _wait_for_healthy h (Pod.id new_pod) 300 s3
          = (resumed h w' [EvGet (Pod.id new_pod) (inl (OtherError m))] s3,
             Raise (OtherError m)))
    /\ forall s4 e,
         _wait_for_healthy h (Pod.id new_pod) 300 s3 = (s4, Raise e) ->
         exists s' record polled rb,
           rolling_deploy h [p1] "img:2" 15 300 true true true Script.fresh
           = (s', Ok record)
           /\ trace s4 = (trace s3 ++ polled)%list
           /\ poll_events (Pod.id new_pod) polled
           /\ trace s' = (trace s4 ++ rb)%list
           /\ rollback_events (completed_pairs s0) rb
           /\ map fst (completed_pairs s0) = []
           /\ status record = ROLLING_BACK
           /\ error record = str_exn e
           /\ pod_ids record = []
           /\ _active_deploy s' = None.
Proof.
  intros h p1 new_pod s0.
  assert (Hs : soft_failures h) by (split; intros; discriminate).
  refine (unexpected_exception_leaves_rolling_back h Hs Script.fresh s0 s0
            [] p1 [] "img:2" 15 300 true true true "0a1b2c3d" 0 1%nat new_pod
            _ _ _ _);
    vm_compute; reflexivity.
Defined.

(** The run of the witness: the first poll raises; the record is left
    with the status rolling back, and the replacement is not terminated. *)
Example unexpected_exception_run :
  let run := rolling_deploy broken_polls
               [Script.pod "p1" "RUNNING" (Some 120)]
               "img:2" 15 300 false true true Script.fresh in
  match snd run with
  | Ok r =>
      status r = ROLLING_BACK
      /\ error r = "'NoneType' object has no attribute 'get'"
  | _ => False
  end
  /\ stop_calls (trace (fst run)) = []
  /\ List.length (created_in (trace (fst run))) = 1%nat.
Proof. vm_compute. repeat split. Qed.

(** ** Rolling deploy: every run returns a record *)

Section DeployOutcome.

Context {W : Type}.
Variable host : Host W.

Hypothesis Hsoft : soft_failures host.

Lemma carries_refl (s : St W) : carries s s.
Proof. split; [exists []; now rewrite app_nil_r | now split]. Qed.

Lemma carries_trans (s1 s2 s3 : St W) :
  carries s1 s2 -> carries s2 s3 -> carries s1 s3.
Proof.
  intros ([e1 T1] & F1 & D1) ([e2 T2] & F2 & D2). split; [ | split].
  - exists (e1 ++ e2)%list. now rewrite T2, T1, app_assoc.
  - now rewrite F2.
  - now rewrite D2.
Qed.

Lemma advances_carries (s s' : St W) (evs : list Event) :
  advances s s' evs -> carries s s'.
Proof. intros (T & _ & _ & F & D & _). split; [now exists evs | now split]. Qed.

Lemma moves_carries (f : DeployRecord -> DeployRecord) (s s' : St W)
    (evs : list Event) :
  moves f s s' evs -> carries s s'.
Proof. intros (T & _ & _ & F & D & _). split; [now exists evs | now split]. Qed.

(** The first half of an iteration, whatever happens. *)
Lemma iteration_head_total (deploy_id new_image : string)
    (hct grace : Z) (osc oc : bool) (old_pod : Pod.t) (s : St W) :
  exists s' res,
    iteration_head host deploy_id new_image hct grace osc oc old_pod s
    = (s', res)
    /\ carries s s'
    /\ completed_pairs s' = completed_pairs s
    /\ match res with
       | Ok (Some _) => record_cell s' = record_cell s
       | Raise _ => record_cell s' = record_cell s
       | Ok None =>
           exists st err,
             leaves st err
             /\ record_cell s' = broken_off st err (record_cell s)
       | OutOfFuel => False
       end.
Proof.
  destruct (_deploy_cancelled s) eqn:Hflag.
  - destruct (iteration_head_cancelled host deploy_id new_image hct grace
                osc oc old_pod s Hsoft Hflag) as (s' & rb & H & M & _).
    exists s', (Ok None). conjs.
    + exact H.
    + exact (moves_carries _ _ _ _ M).
    + apply M.
    + exists ROLLED_BACK, cancelled_at_top. split; [constructor | apply M].
  - destruct (create_pod host (replacement_args deploy_id new_image old_pod)
                (world s)) as [w [e | new_pod]] eqn:Hcreate.
    + destruct (iteration_head_create_fails host Hsoft deploy_id new_image
                  hct grace osc oc old_pod s w e Hflag Hcreate)
        as (s' & rb & H & M & _).
      exists s', (Ok None). conjs.
      * exact H.
      * exact (moves_carries _ _ _ _ M).
      * apply M.
      * exists FAILED, (creation_error old_pod e).
        split; [constructor | apply M].
    + destruct (iteration_head_verdict host Hsoft deploy_id new_image hct
                  grace osc oc old_pod new_pod s w Hflag Hcreate)
        as (s3 & A3 & _ & _ & Hfalse & Hraise & Htrue).
      destruct (_wait_for_healthy_run host (Pod.id new_pod) hct s3)
        as (s4 & res & polled & H4 & Hfuel & A4 & _).
      pose proof (advances_trans _ _ _ _ _ A3 A4) as A34.
      destruct res as [[ | ] | e | ].
      * destruct (Htrue s4 H4) as (s' & evs & H & A & _).
        pose proof (advances_trans _ _ _ _ _ A34 A) as A'.
        exists s', (Ok (Some new_pod)). conjs.
        -- exact H.
        -- exact (advances_carries _ _ _ A').
        -- apply A'.
        -- apply A'.
      * destruct (Hfalse s4 H4) as (s' & rt & rb & H & M & _).
        pose proof (advances_moves _ _ _ _ _ _ A34 M) as M'.
        exists s', (Ok None). conjs.
        -- exact H.
        -- exact (moves_carries _ _ _ _ M').
        -- apply M'.
        -- exists FAILED, (health_error new_pod).
           split; [constructor | apply M'].
      * exists s4, (Raise e). conjs.
        -- exact (Hraise s4 e H4).
        -- exact (advances_carries _ _ _ A34).
        -- apply A34.
        -- apply A34.
      * now contradiction Hfuel.
Qed.

(** The second half, whatever happens. *)
Lemma iteration_tail_total (total : Z) (osc op : bool)
    (old_pod new_pod : Pod.t) (s : St W) :
  exists s' f,
    iteration_tail host total osc op old_pod new_pod s = (s', Ok f)
    /\ carries s s'
    /\ match f with
       | Continue =>
           record_cell s' = record_cell s
           /\ completed_pairs s'
              = (completed_pairs s ++ [(old_pod, new_pod)])%list
       | Break =>
           exists st err,
             leaves st err
             /\ record_cell s' = broken_off st err (record_cell s)
       end.
Proof.
  destruct (_deploy_cancelled s) eqn:Hflag.
  - destruct (iteration_tail_cancelled host total osc op old_pod new_pod s
                Hsoft Hflag) as (s' & rt & rb & H & M & _).
    exists s', Break. conjs.
    + exact H.
    + exact (moves_carries _ _ _ _ M).
    + exists ROLLED_BACK, cancelled_in_grace. split; [constructor | apply M].
  - unfold iteration_tail.
    unfold bind at 1. unfold get_cancelled at 1. rewrite Hflag.
    destruct (when_emit_run osc
                (EvStateChange (Pod.id old_pod) "TERMINATE_OLD"
                   (Pod.id new_pod)) s)
      as (s1 & H1 & A1 & _ & _).
    rewrite (bind_ok _ _ _ _ _ H1).
    destruct (terminate_soft host (Pod.id old_pod) s1 Hsoft)
      as (s2 & rt & H2 & A2).
    rewrite (bind_ok _ _ _ _ _ H2).
    unfold bind at 1. unfold get_pairs at 1.
    unfold bind at 1. unfold set_pairs at 1.
    set (s3 := Build_St _ _ _ _ _ _ _ _).
    destruct (when_emit_run osc
                (EvStateChange (Pod.id old_pod) "COMPLETED" (Pod.id new_pod))
                s3)
      as (s4 & H4 & A4 & _ & _).
    rewrite (bind_ok _ _ _ _ _ H4).
    unfold bind at 1. unfold get_pairs at 1.
    destruct (when_emit_run op
                (EvProgress (Z.of_nat (List.length (completed_pairs s4)))
                   total) s4)
      as (s5 & H5 & A5 & _ & _).
    rewrite (bind_ok _ _ _ _ _ H5). unfold ret.
    pose proof (advances_trans _ _ _ _ _ A1 A2) as A12.
    pose proof (advances_trans _ _ _ _ _ A4 A5) as A45.
    assert (C23 : carries s2 s3)
      by (subst s3; split; [exists []; simpl; now rewrite app_nil_r
                           | now split]).
    exists s5, Continue. conjs.
    + reflexivity.
    + exact (carries_trans _ _ _ (advances_carries _ _ _ A12)
               (carries_trans _ _ _ C23 (advances_carries _ _ _ A45))).
    + destruct A45 as (_ & -> & _). subst s3. simpl. apply A12.
    + destruct A45 as (_ & _ & -> & _). subst s3. simpl.
      destruct A12 as (_ & _ & -> & _). reflexivity.
Qed.

(** The loop, whatever happens. *)
Lemma deploy_loop_total (deploy_id new_image : string)
    (hct grace total : Z) (osc op oc : bool) (targets : list Pod.t) :
  forall s : St W,
    exists s' res,
      deploy_loop host deploy_id new_image hct grace total osc op oc targets s
      = (s', res)
      /\ carries s s'
      /\ match res with
         | Ok _ =>
             (record_cell s'
              = set_pod_ids
                  (map (fun pr => Pod.id (snd pr)) (completed_pairs s'))
                  (set_status COMPLETED (record_cell s))
              /\ List.length (completed_pairs s')
                 = (List.length (completed_pairs s) + List.length targets)%nat)
             \/ (exists st err,
                   leaves st err
                   /\ record_cell s' = broken_off st err (record_cell s))
         | Raise _ => record_cell s' = record_cell s
         | OutOfFuel => False
         end.
Proof.
  induction targets as [ | old_pod rest IH]; intro s.
  - cbn [deploy_loop].
    unfold bind at 1. unfold modify_record at 1.
    unfold bind at 1. unfold get_pairs at 1. unfold modify_record.
    eexists; exists (Ok tt). conjs; [reflexivity | | ].
    + split; [exists []; simpl; now rewrite app_nil_r | now split].
    + left. simpl. split; [reflexivity | lia].
  - cbn [deploy_loop].
    destruct (iteration_head_total deploy_id new_image hct grace osc oc
                old_pod s) as (s1 & res1 & H1 & C1 & P1 & Hres1).
    destruct res1 as [[new_pod | ] | e | ]; [ | | | contradiction].
    + destruct (iteration_tail_total total osc op old_pod new_pod s1)
        as (s2 & f & H2 & C2 & Hf).
      destruct f.
      * destruct Hf as [R2 P2].
        destruct (IH s2) as (s' & res & H & C & Hres).
        exists s', res. conjs.
        -- assert (Hiter : deploy_iteration host deploy_id new_image hct
                              grace total osc op oc old_pod s
                            = (s2, Ok Continue))
             by (unfold deploy_iteration; rewrite (bind_ok _ _ _ _ _ H1);
                 exact H2).
           rewrite (bind_ok _ _ _ _ _ Hiter). exact H.
        -- exact (carries_trans _ _ _ C1 (carries_trans _ _ _ C2 C)).
        -- rewrite R2, Hres1, P2, P1 in Hres.
           destruct res as [[] | e | ]; [ | exact Hres | exact Hres].
           destruct Hres as [[R L] | Hb]; [left | now right].
           split; [exact R | ]. rewrite L, length_app. simpl. lia.
      * destruct Hf as (st & err & Hl & R2).
        exists s2, (Ok tt). conjs.
        -- assert (Hiter : deploy_iteration host deploy_id new_image hct
                              grace total osc op oc old_pod s
                            = (s2, Ok Break))
             by (unfold deploy_iteration; rewrite (bind_ok _ _ _ _ _ H1);
                 exact H2).
           rewrite (bind_ok _ _ _ _ _ Hiter). reflexivity.
        -- exact (carries_trans _ _ _ C1 C2).
        -- right. exists st, err. split; [exact Hl | ].
           now rewrite R2, Hres1.
    + destruct Hres1 as (st & err & Hl & R1).
      exists s1, (Ok tt). conjs.
      * assert (Hiter : deploy_iteration host deploy_id new_image hct
                           grace total osc op oc old_pod s
                         = (s1, Ok Break))
          by (unfold deploy_iteration; rewrite (bind_ok _ _ _ _ _ H1);
              reflexivity).
        rewrite (bind_ok _ _ _ _ _ Hiter). reflexivity.
      * exact C1.
      * right. now exists st, err.
    + exists s1, (Raise e). conjs.
      * apply bind_raise. unfold deploy_iteration. apply bind_raise.
        exact H1.
      * exact C1.
      * exact Hres1.
Qed.

(** X19: under the contract of the client (terminations and resumptions
    fail with nothing but [RunPodError]) [rolling_deploy] always returns a
    record; it raises nothing and none of its loops runs for ever. The slot
    of the active deploy is emptied, the record is journaled when the
    history file can be opened, and the record is of one of four kinds:
    completed, without error and with one replacement id per target; failed
    or rolled back by a [break], with the error of that [break] and no pod
    id; or left rolling back by an exception that escaped the loop, with
    no pod id. Its pod count is the number of targets in every case. *)
Theorem rolling_deploy_always_returns (s : St W)
    (target_pods : list Pod.t) (new_image : string)
    (grace_period_minutes health_check_timeout : Z)
    (on_state_change on_progress on_countdown : bool) :
  exists s' record evs,
    rolling_deploy host target_pods new_image grace_period_minutes
      health_check_timeout on_state_change on_progress on_countdown s
    = (s', Ok record)
    /\ trace s' = (trace s ++ evs)%list
    /\ _active_deploy s' = None
    /\ action record = "rolling_deploy"
    /\ pod_count record = Z.of_nat (List.length target_pods)
    /\ (status record = COMPLETED
        /\ error record = ""
        /\ List.length (pod_ids record) = List.length target_pods
        \/ leaves (status record) (error record) /\ pod_ids record = []
        \/ status record = ROLLING_BACK /\ pod_ids record = [])
    /\ history_file s'
       = (if fs_error host (world s') then history_file s
          else Some (match history_file s with Some c => c | None => "" end
                     ++ json_dumps host record ++ newline)).
Proof.
  unfold rolling_deploy.
  destruct (uuid4_hex8 host (world s)) as [w1 did] eqn:Hu.
  destruct (now host w1) as [w2 start] eqn:Hn.
  destruct (deploy_begin_run host target_pods new_image s w1 w2 did start
              Hu Hn)
    as (s0 & H0 & _ & T0 & _ & R0 & P0 & F0).
  rewrite (bind_ok _ _ _ _ _ H0). cbn [fst snd].
  destruct (deploy_loop_total did new_image health_check_timeout
              (grace_period_minutes * 60)
              (Z.of_nat (List.length target_pods))
              on_state_change on_progress on_countdown target_pods s0)
    as (s1 & res & H1 & ([evs1 T1] & F1 & D1) & Hres).
  destruct res as [[] | e | ]; [ | | contradiction].
  - rewrite (bind_ok _ _ _ _ _ (try_except_ok _ _ _ _ _ H1)).
    destruct (deploy_end_run host start s1)
      as (s' & finish & H2 & T2 & _ & D2 & F2).
    rewrite H2.
    exists s', (set_duration_seconds (finish - start) (record_cell s1)), evs1.
    conjs; try reflexivity.
    + now rewrite T2, T1, T0.
    + exact D2.
    + destruct Hres as [[-> _] | (st & err & _ & ->)]; rewrite R0; reflexivity.
    + destruct Hres as [[-> _] | (st & err & _ & ->)]; rewrite R0; reflexivity.
    + destruct Hres as [[R L] | (st & err & Hl & R)]; rewrite R, R0.
      * left. cbn. rewrite length_map, L, P0. simpl. now conjs.
      * right. left. cbn. split; [exact Hl | reflexivity].
    + rewrite F2, F1, F0. reflexivity.
  - destruct (modify_record_run (set_status FAILED) s1) as (s2 & H2 & M2).
    destruct (modify_record_run (set_error (str_exn e)) s2) as (s3 & H3 & M3).
    destruct (_rollback_deploy_run host s3 Hsoft) as (s4 & rb & H4 & M4 & _).
    destruct (deploy_end_run host start s4)
      as (s' & finish & H5 & T5 & _ & D5 & F5).
    pose proof (moves_moves _ _ _ _ _ _ _ (moves_moves _ _ _ _ _ _ _ M2 M3) M4)
      as (Tm & Rm & _ & Fm & _).
    simpl in Tm.
    erewrite bind_ok; cycle 1.
    { unfold try_except. rewrite H1.
      rewrite (bind_ok _ _ _ _ _ H2), (bind_ok _ _ _ _ _ H3). exact H4. }
    rewrite H5.
    exists s', (set_duration_seconds (finish - start) (record_cell s4)),
      (evs1 ++ rb)%list.
    rewrite Rm, Hres, R0.
    conjs; try reflexivity.
    + now rewrite T5, Tm, T1, T0, app_assoc.
    + exact D5.
    + right. right. cbn. split; reflexivity.
    + rewrite F5, Fm, F1, F0, Rm, Hres, R0. reflexivity.
Qed.

End DeployOutcome.

Lemma rolling_deploy_always_returns_witness :
  exists s' record evs,
    rolling_deploy (impatient 3) Script.three_pods "img:2" 15 300
      true true true Script.fresh = (s', Ok record)
    /\ trace s' = (trace Script.fresh ++ evs)%list
    /\ _active_deploy s' = None
    /\ action record = "rolling_deploy"
    /\ pod_count record = Z.of_nat (List.length Script.three_pods)
    /\ (status record = COMPLETED
        /\ error record = ""
        /\ List.length (pod_ids record) = List.length Script.three_pods
        \/ leaves (status record) (error record) /\ pod_ids record = []
        \/ status record = ROLLING_BACK /\ pod_ids record = [])
    /\ history_file s'
       = (if fs_error (impatient 3) (world s') then history_file Script.fresh
          else Some (match history_file Script.fresh with
                     | Some c => c
                     | None => ""
                     end ++ json_dumps (impatient 3) record ++ newline)).
Proof.
  apply (rolling_deploy_always_returns (impatient 3)).
  split; intros; discriminate.
Defined.

(** ** Rolling deploy: the protocol is followed on every run *)

Section DeployProtocol.

Context {W : Type}.
Variable host : Host W.
Variables did img : string.

Hypothesis Hsoft : soft_failures host.

Local Abbreviation reads := (reads did img).

Lemma reads_nil (st : watch) : reads st [] st.
Proof. split; [exact I | reflexivity]. Qed.

Lemma reads_app (st st1 st2 : watch) (e1 e2 : list Event) :
  reads st e1 st1 -> reads st1 e2 st2 -> reads st (e1 ++ e2) st2.
Proof.
  revert st. induction e1 as [ | ev e1 IH]; intros st [G1 S1] R2.
  - simpl in S1. subst st1. exact R2.
  - destruct G1 as [Hev G1]. simpl in S1.
    destruct (IH (step st ev) (conj G1 S1) R2) as [G S].
    split; [split; assumption | exact S].
Qed.

Lemma reads_harmless (st : watch) (evs : list Event) :
  Forall harmless evs -> reads st evs st.
Proof.
  induction 1 as [ | ev evs Hev _ IH]; [apply reads_nil | ].
  assert (Hstep : step st ev = st /\ allowed did img st ev)
    by (destruct ev; try contradiction; (split; [reflexivity | exact I])).
  destruct Hstep as [Hst Hal], IH as [G S].
  split; simpl; unfold after in *; simpl; rewrite Hst; [split | ]; assumption.
Qed.

Lemma reads_say (st : watch) (b : bool) (ev : Event) :
  harmless ev -> reads st (if b then [ev] else []) st.
Proof.
  intro H. apply reads_harmless. destruct b; repeat constructor. exact H.
Qed.

Lemma reads_create (st : watch) (old_pod : Pod.t) (rest : list Pod.t)
    (r : result Pod.t) :
  w_remaining st = old_pod :: rest ->
  reads st [EvCreate (replacement_args did img old_pod) r]
    {| w_remaining := rest; w_current := Some old_pod;
       w_created := match r with
                    | inr pod => Pod.id pod :: w_created st
                    | inl _ => w_created st
                    end;
       w_cleared := false |}.
Proof.
  intro Hrem. split.
  - simpl. rewrite Hrem. split; [reflexivity | exact I].
  - unfold after. simpl. rewrite Hrem. reflexivity.
Qed.

Lemma reads_terminate_known (st : watch) (pid : string) (r : result unit) :
  In pid (w_created st) ->
  reads st [EvTerminate pid r] (with_cleared false st).
Proof. intro H. split; [split; [now left | exact I] | reflexivity]. Qed.

Lemma reads_terminate_old (st : watch) (old_pod : Pod.t) (r : result unit) :
  w_cleared st = true ->
  w_current st = Some old_pod ->
  reads st [EvTerminate (Pod.id old_pod) r] (with_cleared false st).
Proof.
  intros Hc Hcur. split; [ | reflexivity].
  split; [ | exact I]. right. split; [exact Hc | now exists old_pod].
Qed.

Lemma reads_rollback (pairs : list (Pod.t * Pod.t)) (rb : list Event) :
  rollback_events pairs rb ->
  forall st,
    (forall pr, In pr pairs -> In (Pod.id (snd pr)) (w_created st)) ->
    exists b, reads st rb (with_cleared b st).
Proof.
  induction 1 as [ | old_pod new_pod rt rr pairs evs _ IH]; intros st Hknown.
  - exists (w_cleared st). destruct st. apply reads_nil.
  - destruct (IH (with_cleared false st)) as [b R].
    { intros pr Hin. apply Hknown. now right. }
    exists b.
    change (EvTerminate (Pod.id new_pod) rt
              :: EvResume (Pod.id old_pod) (Pod.gpu_count old_pod) rr :: evs)
      with ([EvTerminate (Pod.id new_pod) rt]
              ++ [EvResume (Pod.id old_pod) (Pod.gpu_count old_pod) rr]
              ++ evs)%list.
    eapply reads_app.
    { apply reads_terminate_known.
      apply (Hknown (old_pod, new_pod)). now left. }
    eapply reads_app.
    { apply reads_harmless. repeat constructor. }
    exact R.
Qed.

Lemma reads_polls (pid : string) (polled : list Event) :
  poll_events pid polled ->
  forall st,
    hd_error (w_created st) = Some pid ->
    exists b,
      reads st polled (with_cleared b st)
      /\ (forall evs0 pod,
            polled = (evs0 ++ [EvGet pid (inr pod)])%list ->
            is_healthy pod = true -> b = true).
Proof.
  induction 1 as [ | r | r evs _ IH]; intros st Hhd.
  - exists (w_cleared st). split; [destruct st; apply reads_nil | ].
    intros evs0 pod E. now destruct evs0.
  - exists (match r with inr seen => is_healthy seen | inl _ => false end).
    split; [split; [split; [exact Hhd | exact I] | reflexivity] | ].
    intros evs0 pod E Hok.
    destruct evs0 as [ | ev [ | ev' evs0]]; try discriminate E.
    injection E as ->. exact Hok.
  - destruct (IH (with_cleared
                    (match r with inr seen => is_healthy seen | inl _ => false end)
                    st) Hhd) as (b & R & Hb).
    exists b. split.
    + change (EvGet pid r :: EvSleep 5 :: evs)
        with ([EvGet pid r] ++ [EvSleep 5] ++ evs)%list.
      eapply reads_app.
      { split; [split; [exact Hhd | exact I] | reflexivity]. }
      eapply reads_app.
      { apply reads_harmless. repeat constructor. }
      exact R.
    + intros evs0 pod E Hok.
      destruct evs0 as [ | ev [ | ev' evs0]]; try discriminate E.
      injection E as _ _ E. exact (Hb evs0 pod E Hok).
Qed.

(** The second half of an iteration that is not cancelled. *)
Lemma iteration_tail_continues (total : Z) (osc op : bool)
    (old_pod new_pod : Pod.t) (s : St W) :
  _deploy_cancelled s = false ->
  exists s' rt pre post,
    iteration_tail host total osc op old_pod new_pod s = (s', Ok Continue)
    /\ trace s'
       = (trace s ++ pre ++ [EvTerminate (Pod.id old_pod) rt] ++ post)%list
    /\ Forall harmless pre
    /\ Forall harmless post
    /\ completed_pairs s' = (completed_pairs s ++ [(old_pod, new_pod)])%list.
Proof.
  intro Hflag. unfold iteration_tail.
  unfold bind at 1. unfold get_cancelled at 1. rewrite Hflag.
  destruct (when_emit_run osc
              (EvStateChange (Pod.id old_pod) "TERMINATE_OLD"
                 (Pod.id new_pod)) s)
    as (s1 & H1 & A1 & _ & _).
  rewrite (bind_ok _ _ _ _ _ H1).
  destruct (terminate_soft host (Pod.id old_pod) s1 Hsoft)
    as (s2 & rt & H2 & A2).
  rewrite (bind_ok _ _ _ _ _ H2).
  unfold bind at 1. unfold get_pairs at 1.
  unfold bind at 1. unfold set_pairs at 1.
  set (s3 := Build_St _ _ _ _ _ _ _ _).
  destruct (when_emit_run osc
              (EvStateChange (Pod.id old_pod) "COMPLETED" (Pod.id new_pod))
              s3)
    as (s4 & H4 & A4 & _ & _).
  rewrite (bind_ok _ _ _ _ _ H4).
  unfold bind at 1. unfold get_pairs at 1.
  destruct (when_emit_run op
              (EvProgress (Z.of_nat (List.length (completed_pairs s4)))
                 total) s4)
    as (s5 & H5 & A5 & _ & _).
  rewrite (bind_ok _ _ _ _ _ H5). unfold ret.
  pose proof (advances_trans _ _ _ _ _ A1 A2) as (T12 & _ & P12 & _).
  pose proof (advances_trans _ _ _ _ _ A4 A5) as (T45 & _ & P45 & _).
  exists s5, rt,
    (if osc
     then [EvStateChange (Pod.id old_pod) "TERMINATE_OLD" (Pod.id new_pod)]
     else []),
    ((if osc
      then [EvStateChange (Pod.id old_pod) "COMPLETED" (Pod.id new_pod)]
      else [])
       ++ (if op
           then [EvProgress (Z.of_nat (List.length (completed_pairs s4)))
                   total]
           else []))%list.
  conjs.
  - reflexivity.
  - rewrite T45. subst s3. cbn [trace]. rewrite T12.
    rewrite <- !app_assoc. reflexivity.
  - destruct osc; repeat constructor.
  - apply Forall_app. split; [destruct osc | destruct op]; repeat constructor.
  - rewrite P45. subst s3. simpl. now rewrite P12.
Qed.

Lemma paired_created (s s' : St W) (st st' : watch) :
  completed_pairs s' = completed_pairs s ->
  w_created st' = w_created st ->
  paired s st -> paired s' st'.
Proof. intros Hp Hc H pr Hin. rewrite Hc. apply H. now rewrite <- Hp. Qed.

(** An iteration follows the protocol. *)
Lemma deploy_iteration_guarded (hct grace total : Z) (osc op oc : bool)
    (old_pod : Pod.t) (rest : list Pod.t) (s : St W) (st : watch) :
  w_remaining st = old_pod :: rest ->
  paired s st ->
  exists s' res evs st',
    deploy_iteration host did img hct grace total osc op oc old_pod s
    = (s', res)
    /\ res <> OutOfFuel
    /\ trace s' = (trace s ++ evs)%list
    /\ reads st evs st'
    /\ paired s' st'
    /\ (res = Ok Continue -> w_remaining st' = rest).
Proof.
  intros Hrem Hpaired. unfold deploy_iteration.
  destruct (_deploy_cancelled s) eqn:Hflag.
  - (* cancelled at the top *)
    destruct (iteration_head_cancelled host did img hct grace osc oc old_pod
                s Hsoft Hflag) as (s1 & rb & H1 & M1 & Hrb).
    destruct (reads_rollback _ _ Hrb st Hpaired) as [b R].
    exists s1, (Ok Break), rb, (with_cleared b st). conjs.
    + rewrite (bind_ok _ _ _ _ _ H1). reflexivity.
    + discriminate.
    + apply M1.
    + exact R.
    + eapply paired_created; [apply M1 | reflexivity | exact Hpaired].
    + discriminate.
  - destruct (create_pod host (replacement_args did img old_pod) (world s))
      as [w [e | new_pod]] eqn:Hcreate.
    + (* the replacement cannot be created *)
      destruct (iteration_head_create_fails host Hsoft did img hct grace
                  osc oc old_pod s w e Hflag Hcreate)
        as (s1 & rb & H1 & M1 & Hrb).
      set (st1 := {| w_remaining := rest; w_current := Some old_pod;
                     w_created := w_created st; w_cleared := false |}).
      destruct (reads_rollback _ _ Hrb st1 Hpaired) as [b R].
      eexists s1, (Ok Break), _, (with_cleared b st1). conjs.
      * rewrite (bind_ok _ _ _ _ _ H1). reflexivity.
      * discriminate.
      * apply M1.
      * eapply reads_app; [apply reads_say; exact I | ].
        eapply reads_app; [apply (reads_create st old_pod rest (inl e) Hrem) | ].
        eapply reads_app; [apply reads_say; exact I | ].
        exact R.
      * eapply paired_created; [apply M1 | reflexivity | exact Hpaired].
      * discriminate.
    + destruct (iteration_head_verdict host Hsoft did img hct grace osc oc
                  old_pod new_pod s w Hflag Hcreate)
        as (s3 & A3 & _ & _ & Hfalse & Hraise & Htrue).
      destruct (_wait_for_healthy_run host (Pod.id new_pod) hct s3)
        as (s4 & res & polled & H4 & Hfuel & A4 & Hpolls & _ & Hlast & _).
      set (st3 := {| w_remaining := rest; w_current := Some old_pod;
                     w_created := Pod.id new_pod :: w_created st;
                     w_cleared := false |}).
      assert (R3 : reads st (creation_events did img osc old_pod new_pod) st3).
      { unfold creation_events, say.
        eapply reads_app; [apply reads_say; exact I | ].
        eapply reads_app;
          [apply (reads_create st old_pod rest (inr new_pod) Hrem) | ].
        rewrite <- (app_nil_r (if osc then _ else _)).
        eapply reads_app; [apply reads_say; exact I | apply reads_nil]. }
      destruct (reads_polls _ _ Hpolls st3 eq_refl) as (b & R4 & Hb).
      pose proof (reads_app _ _ _ _ _ R3 R4) as R34.
      pose proof (advances_trans _ _ _ _ _ A3 A4) as A34.
      assert (P34 : paired s4 (with_cleared b st3)).
      { intros pr Hin. simpl. right. apply Hpaired.
        destruct A34 as (_ & _ & <- & _). exact Hin. }
      destruct res as [[ | ] | e | ].
      * (* healthy: grace period, then the second half *)
        destruct (Htrue s4 H4) as (s5 & evs5 & H5 & A5 & Hharm).
        destruct (Hlast eq_refl) as (evs0 & pod & Epolled & Hok).
        assert (Hb' : b = true) by exact (Hb evs0 pod Epolled Hok).
        subst b.
        pose proof (reads_app _ _ _ _ _ R34 (reads_harmless _ _ Hharm)) as R5.
        pose proof (advances_trans _ _ _ _ _ A34 A5) as A35.
        rewrite (bind_ok _ _ _ _ _ H5).
        destruct (_deploy_cancelled s5) eqn:Hflag5.
        -- destruct (iteration_tail_cancelled host total osc op old_pod
                       new_pod s5 Hsoft Hflag5)
             as (s6 & rt & rb & H6 & M6 & Hrb).
           assert (P5 : paired s5 (with_cleared false (with_cleared true st3))).
           { intros pr Hin. simpl. right. apply Hpaired.
             destruct A35 as (_ & _ & <- & _). exact Hin. }
           destruct (reads_rollback _ _ Hrb _ P5) as [b R].
           eexists s6, (Ok Break), _, _. conjs.
           ++ exact H6.
           ++ discriminate.
           ++ destruct M6 as (-> & _). destruct A35 as (-> & _).
              rewrite <- app_assoc. reflexivity.
           ++ eapply reads_app; [exact R5 | ].
              change (EvTerminate (Pod.id new_pod) rt :: rb)
                with ([EvTerminate (Pod.id new_pod) rt] ++ rb)%list.
              eapply reads_app; [ | exact R].
              apply reads_terminate_known. simpl. now left.
           ++ intros pr Hin. simpl. right. apply Hpaired.
              destruct M6 as (_ & _ & P6 & _). rewrite P6 in Hin.
              destruct A35 as (_ & _ & <- & _). exact Hin.
           ++ discriminate.
        -- destruct (iteration_tail_continues total osc op old_pod new_pod
                       s5 Hflag5)
             as (s6 & rt & pre & post & H6 & T6 & Hpre & Hpost & P6).
           eexists s6, (Ok Continue), _,
             (with_cleared false (with_cleared true st3)). conjs.
           ++ exact H6.
           ++ discriminate.
           ++ rewrite T6. destruct A35 as (-> & _).
              rewrite <- app_assoc. reflexivity.
           ++ eapply reads_app; [exact R5 | ].
              eapply reads_app; [apply reads_harmless; exact Hpre | ].
              eapply reads_app; [ | apply reads_harmless; exact Hpost].
              apply reads_terminate_old; reflexivity.
           ++ intros pr Hin. simpl. rewrite P6 in Hin.
              apply in_app_or in Hin. destruct Hin as [Hin | [<- | []]].
              ** right. apply Hpaired.
                 destruct A35 as (_ & _ & <- & _). exact Hin.
              ** now left.
           ++ reflexivity.
      * (* unhealthy *)
        destruct (Hfalse s4 H4) as (s5 & rt & rb & H5 & M5 & Hrb).
        destruct (reads_rollback _ _ Hrb (with_cleared false (with_cleared b st3)))
          as [b' R].
        { intros pr Hin. simpl. right. apply Hpaired.
          destruct A34 as (_ & _ & <- & _). exact Hin. }
        eexists s5, (Ok Break), _, _. conjs.
        -- rewrite (bind_ok _ _ _ _ _ H5). reflexivity.
        -- discriminate.
        -- destruct M5 as (-> & _). destruct A34 as (-> & _).
           rewrite <- app_assoc. reflexivity.
        -- eapply reads_app; [exact R34 | ].
           eapply reads_app; [apply reads_say; exact I | ].
           eapply reads_app; [ | exact R].
           apply reads_terminate_known. simpl. now left.
        -- intros pr Hin. simpl. right. apply Hpaired.
           destruct M5 as (_ & _ & P5 & _). rewrite P5 in Hin.
           destruct A34 as (_ & _ & <- & _). exact Hin.
        -- discriminate.
      * (* an exception escapes *)
        eexists s4, (Raise e), _, _. conjs.
        -- apply bind_raise. exact (Hraise s4 e H4).
        -- discriminate.
        -- apply A34.
        -- exact R34.
        -- exact P34.
        -- discriminate.
      * now contradiction Hfuel.
Qed.

(** The loop follows the protocol. *)
Lemma deploy_loop_guarded (hct grace total : Z) (osc op oc : bool)
    (targets : list Pod.t) :
  forall (s : St W) (st : watch),
    w_remaining st = targets ->
    paired s st ->
    exists s' res evs st',
      deploy_loop host did img hct grace total osc op oc targets s = (s', res)
      /\ res <> OutOfFuel
      /\ trace s' = (trace s ++ evs)%list
      /\ reads st evs st'
      /\ paired s' st'.
Proof.
  induction targets as [ | old_pod rest IH]; intros s st Hrem Hpaired.
  - cbn [deploy_loop].
    unfold bind at 1. unfold modify_record at 1.
    unfold bind at 1. unfold get_pairs at 1. unfold modify_record.
    eexists; exists (Ok tt), [], st. conjs.
    + reflexivity.
    + discriminate.
    + simpl. now rewrite app_nil_r.
    + apply reads_nil.
    + exact Hpaired.
  - cbn [deploy_loop].
    destruct (deploy_iteration_guarded hct grace total osc op oc old_pod rest
                s st Hrem Hpaired)
      as (s1 & res1 & evs1 & st1 & H1 & Hfuel1 & T1 & R1 & P1 & Hrest).
    destruct res1 as [[ | ] | e | ]; [ | | | now contradiction Hfuel1].
    + destruct (IH s1 st1 (Hrest eq_refl) P1)
        as (s' & res & evs & st' & H & Hfuel & T & R & P).
      exists s', res, (evs1 ++ evs)%list, st'. conjs.
      * rewrite (bind_ok _ _ _ _ _ H1). exact H.
      * exact Hfuel.
      * now rewrite T, T1, app_assoc.
      * exact (reads_app _ _ _ _ _ R1 R).
      * exact P.
    + exists s1, (Ok tt), evs1, st1. conjs.
      * rewrite (bind_ok _ _ _ _ _ H1). reflexivity.
      * discriminate.
      * exact T1.
      * exact R1.
      * exact P1.
    + exists s1, (Raise e), evs1, st1. conjs.
      * apply bind_raise. exact H1.
      * discriminate.
      * exact T1.
      * exact R1.
      * exact P1.
Qed.

(** What following the protocol means for a termination. *)
Lemma guarded_split (e1 e2 : list Event) :
  forall st,
    guarded did img st (e1 ++ e2) ->
    guarded did img st e1 /\ guarded did img (after st e1) e2.
Proof.
  induction e1 as [ | ev e1 IH]; intros st G; [now split | ].
  destruct G as [Hev G]. destruct (IH _ G) as [G1 G2].
  split; [split; assumption | exact G2].
Qed.

Lemma after_created (evs : list Event) :
  forall st,
    w_created (after st evs)
    = (rev (map Pod.id (created_in evs)) ++ w_created st)%list.
Proof.
  induction evs as [ | ev evs IH]; intro st; [reflexivity | ].
  unfold after in *. cbn [fold_left]. rewrite IH.
  destruct ev as [a [e | p] | | | | | | | | ]; try reflexivity.
  change (created_in (EvCreate a (inr p) :: evs)) with (p :: created_in evs).
  simpl. now rewrite <- app_assoc.
Qed.

Lemma after_cleared (evs : list Event) :
  forall st,
    guarded did img st evs ->
    w_cleared (after st evs) = true ->
    (w_cleared st = true /\ Forall harmless evs)
    \/ exists e0 pid seen waited,
         evs = (e0 ++ EvGet pid (inr seen) :: waited)%list
         /\ is_healthy seen = true
         /\ Forall harmless waited.
Proof.
  induction evs as [ | ev evs IH]; intros st G Hc; [left; now split | ].
  destruct G as [Hev G]. unfold after in Hc. cbn [fold_left] in Hc.
  destruct (IH _ G Hc)
    as [[Hc' Hq] | (e0 & pid & seen & waited & E & Hok & Hq)].
  - destruct ev as [a r | pid [e | seen] | | | | | | | ];
      try discriminate Hc'; try contradiction;
      try (left; split; [exact Hc' | constructor; [exact I | exact Hq]]).
    right. exists [], pid, seen, evs. now conjs.
  - right. exists (ev :: e0), pid, seen, waited. rewrite E. now conjs.
Qed.

End DeployProtocol.

Section ProtocolOfDeploy.

Context {W : Type}.
Variable host : Host W.

Hypothesis Hsoft : soft_failures host.

(** X20: every run of [rolling_deploy] follows the protocol of a rolling
    deploy, whatever the client answers (its terminations and resumptions
    failing with nothing but [RunPodError]) and whenever the user cancels:
    each [create_pod] requests the replacement of the next target, each
    poll is on the replacement created last, no pod is stopped, and a
    termination is either on a replacement created by this deploy or on
    the target being replaced, after a poll that showed its replacement
    healthy, with nothing but sleeps and callbacks since. In particular a
    pod that this deploy did not create is never terminated before its
    replacement was seen healthy. *)
Theorem rolling_deploy_follows_protocol (s : St W)
    (target_pods : list Pod.t) (new_image : string)
    (grace_period_minutes health_check_timeout : Z)
    (on_state_change on_progress on_countdown : bool) :
  exists s' record evs,
    rolling_deploy host target_pods new_image grace_period_minutes
      health_check_timeout on_state_change on_progress on_countdown s
    = (s', Ok record)
    /\ trace s' = (trace s ++ evs)%list
    /\ guarded (deploy_id record) new_image (watch0 target_pods) evs
    /\ (forall e1 pid r e2,
          evs = (e1 ++ EvTerminate pid r :: e2)%list ->
          In pid (map Pod.id (created_in e1))
          \/ exists e0 new_id seen waited,
               e1 = (e0 ++ EvGet new_id (inr seen) :: waited)%list
               /\ is_healthy seen = true
               /\ Forall harmless waited).
Proof.
  assert (Hcor : forall did evs,
            guarded did new_image (watch0 target_pods) evs ->
            forall e1 pid r e2,
              evs = (e1 ++ EvTerminate pid r :: e2)%list ->
              In pid (map Pod.id (created_in e1))
              \/ exists e0 new_id seen waited,
                   e1 = (e0 ++ EvGet new_id (inr seen) :: waited)%list
                   /\ is_healthy seen = true
                   /\ Forall harmless waited).
  { intros did evs G e1 pid r e2 ->.
    destruct (guarded_split did new_image _ _ _ G) as [G1 [Hal _]].
    destruct Hal as [Hin | [Hc _]].
    - left. rewrite after_created in Hin. simpl in Hin.
      rewrite app_nil_r in Hin. now apply in_rev.
    - right.
      destruct (after_cleared did new_image _ _ G1 Hc)
        as [[Hc0 _] | Hex]; [discriminate Hc0 | exact Hex]. }
  unfold rolling_deploy.
  destruct (uuid4_hex8 host (world s)) as [w1 did] eqn:Hu.
  destruct (now host w1) as [w2 start] eqn:Hn.
  destruct (deploy_begin_run host target_pods new_image s w1 w2 did start
              Hu Hn)
    as (s0 & H0 & _ & T0 & _ & R0 & P0 & F0).
  rewrite (bind_ok _ _ _ _ _ H0). cbn [fst snd].
  destruct (deploy_loop_guarded host did new_image Hsoft health_check_timeout
              (grace_period_minutes * 60)
              (Z.of_nat (List.length target_pods))
              on_state_change on_progress on_countdown target_pods s0
              (watch0 target_pods) eq_refl)
    as (s1 & res & evs1 & st1 & H1 & Hfuel & T1 & [G1 S1] & P1).
  { intros pr Hin. rewrite P0 in Hin. destruct Hin. }
  destruct (deploy_loop_total host Hsoft did new_image health_check_timeout
              (grace_period_minutes * 60)
              (Z.of_nat (List.length target_pods))
              on_state_change on_progress on_countdown target_pods s0)
    as (s1' & res' & H1' & _ & Hres).
  rewrite H1 in H1'. injection H1' as <- <-.
  destruct res as [[] | e | ]; [ | | now contradiction Hfuel].
  - rewrite (bind_ok _ _ _ _ _ (try_except_ok _ _ _ _ _ H1)).
    destruct (deploy_end_run host start s1)
      as (s' & finish & H2 & T2 & _).
    rewrite H2.
    exists s', (set_duration_seconds (finish - start) (record_cell s1)), evs1.
    assert (Hid : deploy_id (set_duration_seconds (finish - start)
                               (record_cell s1)) = did).
    { destruct Hres as [[-> _] | (st & err & _ & ->)]; rewrite R0;
        reflexivity. }
    rewrite Hid. conjs.
    + reflexivity.
    + now rewrite T2, T1, T0.
    + exact G1.
    + exact (Hcor did evs1 G1).
  - destruct (modify_record_run (set_status FAILED) s1) as (s2 & H2 & M2).
    destruct (modify_record_run (set_error (str_exn e)) s2) as (s3 & H3 & M3).
    destruct (_rollback_deploy_run host s3 Hsoft) as (s4 & rb & H4 & M4 & Hrb).
    destruct (deploy_end_run host start s4) as (s' & finish & H5 & T5 & _).
    pose proof (moves_moves _ _ _ _ _ _ _ (moves_moves _ _ _ _ _ _ _ M2 M3) M4)
      as (Tm & Rm & _).
    simpl in Tm.
    assert (P3 : completed_pairs s3 = completed_pairs s1).
    { destruct M2 as (_ & _ & P2 & _). destruct M3 as (_ & _ & P3 & _).
      now rewrite P3. }
    rewrite P3 in Hrb.
    destruct (reads_rollback did new_image _ _ Hrb st1 P1) as [b R].
    erewrite bind_ok; cycle 1.
    { unfold try_except. rewrite H1.
      rewrite (bind_ok _ _ _ _ _ H2), (bind_ok _ _ _ _ _ H3). exact H4. }
    rewrite H5.
    exists s', (set_duration_seconds (finish - start) (record_cell s4)),
      (evs1 ++ rb)%list.
    assert (G : guarded did new_image (watch0 target_pods) (evs1 ++ rb))
      by exact (proj1 (reads_app did new_image _ _ _ _ _ (conj G1 S1) R)).
    rewrite Rm, Hres, R0. cbn [deploy_id set_duration_seconds set_status
                                 set_error initial_record].
    conjs.
    + reflexivity.
    + now rewrite T5, Tm, T1, T0, app_assoc.
    + exact G.
    + exact (Hcor did _ G).
Qed.

End ProtocolOfDeploy.

Lemma rolling_deploy_follows_protocol_witness :
  exists s' record evs,
    rolling_deploy (Script.cancelling 70) Script.three_pods "img:2" 1 10
      true true true Script.fresh = (s', Ok record)
    /\ trace s' = (trace Script.fresh ++ evs)%list
    /\ guarded (deploy_id record) "img:2" (watch0 Script.three_pods) evs
    /\ (forall e1 pid r e2,
          evs = (e1 ++ EvTerminate pid r :: e2)%list ->
          In pid (map Pod.id (created_in e1))
          \/ exists e0 new_id seen waited,
               e1 = (e0 ++ EvGet new_id (inr seen) :: waited)%list
               /\ is_healthy seen = true
               /\ Forall harmless waited).
Proof.
  apply (rolling_deploy_follows_protocol (Script.cancelling 70)).
  split; intros; discriminate.
Defined.

(** ** Errors of the API and the capacity test of [scale_up] *)

Module ApiErrorFacts.

Lemma lower_app (a b : string) :
  PyStr.lower (a ++ b) = PyStr.lower a ++ PyStr.lower b.
Proof. induction a as [ | c a IH]; simpl; [reflexivity | now rewrite IH]. Qed.

Lemma prefix_app (n a b : string) :
  String.prefix n a = true -> String.prefix n (a ++ b) = true.
Proof.
  revert a. induction n as [ | x n IH]; intros a H;
    [now destruct (a ++ b) | ].
  destruct a as [ | c a]; [discriminate H | ]. simpl in *.
  destruct (ascii_dec x c); [now apply IH | discriminate H].
Qed.

Lemma contains_app_l (n a b : string) :
  PyStr.contains n a = true -> PyStr.contains n (a ++ b) = true.
Proof.
  induction a as [ | c a IH]; intro H.
  - destruct n; [now destruct b | discriminate H].
  - cbn [PyStr.contains] in H. cbn [append PyStr.contains].
    destruct (String.prefix n (String c a)) eqn:Hp.
    + pose proof (prefix_app n (String c a) b Hp) as Hp'.
      cbn [append] in Hp'. now rewrite Hp'.
    + rewrite (IH H). now destruct (String.prefix n (String c (a ++ b))).
Qed.

Lemma contains_app_r (n a b : string) :
  PyStr.contains n b = true -> PyStr.contains n (a ++ b) = true.
Proof.
  intro H. induction a as [ | c a IH]; [exact H | ].
  cbn [append PyStr.contains]. rewrite IH.
  now destruct (String.prefix n (String c (a ++ b))).
Qed.

(** A text without [c] that starts [a ++ c ...] starts [a]. *)
Lemma prefix_before (c : ascii) (n : string) :
  lacks c n ->
  forall a r, String.prefix n (a ++ String c r) = true ->
              String.prefix n a = true.
Proof.
  unfold lacks. induction n as [ | x n IH]; intros Hfree a r H;
    [now destruct a | ].
  simpl in Hfree.
  destruct a as [ | y a]; simpl in *.
  - destruct (ascii_dec x c) as [-> | _]; [ | discriminate H].
    exfalso. apply Hfree. now left.
  - destruct (ascii_dec x y); [ | discriminate H].
    apply (IH (fun Hin => Hfree (or_intror Hin)) a r H).
Qed.

Lemma contains_before (c : ascii) (n : string) :
  lacks c n ->
  forall a r, PyStr.contains n (a ++ String c r) = true ->
              PyStr.contains n a = true \/ PyStr.contains n r = true.
Proof.
  intros Hfree a r. induction a as [ | y a IH]; intro H.
  - cbn [append PyStr.contains] in H.
    destruct (String.prefix n (String c r)) eqn:Hp; [ | now right].
    left. pose proof (prefix_before c n Hfree "" r Hp) as Hp0.
    destruct n; [reflexivity | discriminate Hp0].
  - cbn [append PyStr.contains] in H. cbn [PyStr.contains].
    destruct (String.prefix n (String y (a ++ String c r))) eqn:Hp.
    + left. now rewrite (prefix_before c n Hfree (String y a) r Hp).
    + destruct (IH H) as [Ha | Hr]; [left | now right].
      rewrite Ha. now destruct (String.prefix n (String y a)).
Qed.

(** A text that is not empty and does not start with [c] is in [c ...]
    only if it is in the rest. *)
Lemma contains_after (c x : ascii) (n r : string) :
  x <> c ->
  PyStr.contains (String x n) (String c r) = true ->
  PyStr.contains (String x n) r = true.
Proof.
  intros Hne H. cbn [PyStr.contains String.prefix] in H.
  destruct (ascii_dec x c) as [E | _]; [now contradiction Hne | exact H].
Qed.

Lemma join_cons (sep x : string) (xs : list string) :
  xs <> [] -> PyStr.join sep (x :: xs) = x ++ sep ++ PyStr.join sep xs.
Proof. destruct xs; [intro H; now contradiction H | reflexivity]. Qed.

(** A text without [;] and that starts with a letter is in a list of
    messages joined by ["; "] exactly when it is in one of them. *)
Lemma contains_join (x : ascii) (n : string) (messages : list string) :
  lacks ";" (String x n) ->
  x <> " "%char ->
  PyStr.contains (String x n) (PyStr.join "; " messages) = true
  <-> exists m, In m messages /\ PyStr.contains (String x n) m = true.
Proof.
  intros Hfree Hne.
  induction messages as [ | m [ | m' rest] IH].
  - split; [discriminate | intros (m & [] & _)].
  - simpl. split.
    + intro H. exists m. split; [now left | exact H].
    + intros (m0 & [<- | []] & H). exact H.
  - rewrite join_cons by discriminate. split.
    + intro H.
      change ("; " ++ PyStr.join "; " (m' :: rest))
        with (String ";" (String " " (PyStr.join "; " (m' :: rest)))) in H.
      destruct (contains_before _ _ Hfree _ _ H) as [Ha | Hr].
      * exists m. split; [now left | exact Ha].
      * apply contains_after in Hr; [ | exact Hne].
        destruct (proj1 IH Hr) as (m0 & Hin & H0).
        exists m0. split; [now right | exact H0].
    + intros (m0 & [<- | Hin] & H0).
      * now apply contains_app_l.
      * apply contains_app_r, contains_app_r, IH. now exists m0.
Qed.

Lemma lower_join (messages : list string) :
  PyStr.lower (PyStr.join "; " messages)
  = PyStr.join "; " (map PyStr.lower messages).
Proof.
  induction messages as [ | m [ | m' rest] IH]; try reflexivity.
  rewrite join_cons by discriminate.
  change (map PyStr.lower (m :: m' :: rest))
    with (PyStr.lower m :: map PyStr.lower (m' :: rest)).
  rewrite (join_cons "; " (PyStr.lower m) (map PyStr.lower (m' :: rest)))
    by (simpl; discriminate).
  now rewrite !lower_app, IH.
Qed.

(** X21: the capacity test of [scale_up] on an error of the API. The text
    of a [RunPodAPIError] built from the error objects of a GraphQL answer
    is their messages joined by ["; "], and [scale_up] takes it for an
    exhaustion of capacity exactly when one of the messages holds "no longer
    any instances available", in any letter case: one such error among
    several stops the loop, and the separator never makes up the text. *)
Theorem api_error_capacity (objects : list api_error) :
  str_exn (RunPodAPIError (inl objects))
  = PyStr.join "; " (map error_message objects)
  /\ (is_capacity_error (RunPodAPIError (inl objects)) = true
      <-> exists e,
            In e objects
            /\ PyStr.contains capacity_text (PyStr.lower (error_message e))
               = true).
Proof.
  split; [reflexivity | ].
  unfold is_capacity_error, RunPodAPIError, str_exn.
  rewrite lower_join.
  change "no longer any instances available" with capacity_text.
  unfold capacity_text.
  rewrite contains_join.
  - rewrite map_map. split.
    + intros (m & Hin & H). apply in_map_iff in Hin.
      destruct Hin as (e & <- & Hin). now exists e.
    + intros (e & Hin & H). exists (PyStr.lower (error_message e)).
      split; [ | exact H]. apply in_map_iff. now exists e.
  - unfold lacks. simpl. intro H.
    repeat (destruct H as [H | H]; [discriminate H | ]). exact H.
  - discriminate.
Qed.

End ApiErrorFacts.

(** An answer with two errors, the second of which tells that no GPU is
    left. *)
Example api_error_capacity_among_others :
  let e := RunPodAPIError
             (inl [{| api_message := Some "Rate limited"; api_str := "{}" |};
                   {| api_message :=
                        Some "There are no longer any instances available with the requested specifications.";
                      api_str := "{}" |}]) in
  str_exn e
  = "Rate limited; There are no longer any instances available with the requested specifications."
  /\ is_capacity_error e = true.
Proof. split; reflexivity. Qed.

(** ** The cost widget and [estimate_cost] *)

Module CostDisplayFacts.
Import Cost CostDisplay.
Local Open Scope float_scope.

(** A positive float is not below zero. *)
Lemma positive_not_le (p : float) : (0 <? p) = true -> (p <=? 0) = false.
Proof.
  rewrite ltb_spec, leb_spec.
  change (Prim2SF 0) with (S754_zero false).
  destruct (Prim2SF p) as [sg | sg | | sg m e]; try discriminate;
    destruct sg; try discriminate; reflexivity.
Qed.

(** The int 24 converts to the float 24. *)
Lemma mul_int_24 (x : float) : mul_int x 24 = inr (x * 24).
Proof. reflexivity. Qed.

(** X22: the cost widget agrees with [PodManager.estimate_cost]. Updated
    from a GPU type and a tier, the widget prices by the rule of
    [estimate_cost]; when it shows amounts they are the per-pod and total
    hourly costs of [estimate_cost] for its counts, and the cost of a
    period of 24 hours, and it raises when [estimate_cost] does; it shows
    the invitation instead exactly when the price is not above zero, which
    for the blended tier means that neither price of the GPU type is
    positive. *)
Theorem cost_display_agrees_with_estimate (self : CostDisplay.t)
    (g : GpuType.t) (cloud_type : string) :
  let shown := update_from_gpu self (Some g) cloud_type in
  let est := estimate_cost g (CostDisplay.gpu_count self)
               (CostDisplay.pod_count self) cloud_type 24 in
  (render_amounts shown = inr None
   \/ render_amounts shown
      = match est with
        | inl e => inl e
        | inr c => inr (Some (per_pod_hr c, total_hr c, total_period c))
        end)
  /\ (render_amounts shown = inr None <-> (gpu_price shown <=? 0) = true)
  /\ (String.eqb cloud_type "COMMUNITY" = false ->
      String.eqb cloud_type "SECURE" = false ->
      (render_amounts shown = inr None
       <-> (0 <? GpuType.community_price g) = false
           /\ (0 <? GpuType.secure_price g) = false)).
Proof.
  intros shown est.
  assert (Hinv : render_amounts shown = inr None
                 <-> (gpu_price shown <=? 0) = true).
  { unfold render_amounts.
    destruct (gpu_price shown <=? 0); [split; reflexivity | ].
    split; [ | discriminate].
    destruct (mul_int (gpu_price shown) (CostDisplay.gpu_count shown))
      as [e | per_pod]; [discriminate | ].
    destruct (mul_int per_pod (CostDisplay.pod_count shown))
      as [e | total]; [discriminate | ].
    rewrite mul_int_24. discriminate. }
  conjs.
  - unfold render_amounts.
    destruct (gpu_price shown <=? 0); [now left | right].
    subst est. unfold estimate_cost. subst shown.
    cbn [update_from_gpu gpu_price CostDisplay.gpu_count CostDisplay.pod_count].
    destruct (mul_int _ (CostDisplay.gpu_count self)) as [e | per_pod];
      [reflexivity | ].
    destruct (mul_int per_pod (CostDisplay.pod_count self)) as [e | total];
      [reflexivity | ].
    rewrite mul_int_24. reflexivity.
  - exact Hinv.
  - intros Hc Hs. rewrite Hinv. subst shown. unfold update_from_gpu.
    cbn [gpu_price]. rewrite Hc, Hs, CostFacts.lowest_price_cases.
    unfold lowest_positive.
    destruct (0 <? GpuType.community_price g) eqn:Pc;
      destruct (0 <? GpuType.secure_price g) eqn:Ps.
    + destruct (GpuType.secure_price g <? GpuType.community_price g);
        [rewrite (positive_not_le _ Ps) | rewrite (positive_not_le _ Pc)];
        split; [discriminate | intros [H _]; discriminate H
               | discriminate | intros [H _]; discriminate H].
    + rewrite (positive_not_le _ Pc).
      split; [discriminate | intros [H _]; discriminate H].
    + rewrite (positive_not_le _ Ps).
      split; [discriminate | intros [_ H]; discriminate H].
    + split; [now split | reflexivity].
Qed.

End CostDisplayFacts.

(** The widget on the example of the specification: 0.50 and 0.80 per GPU
    and hour, 2 GPUs, 3 pods, blended tier. *)
Example cost_display_all_tier :
  CostDisplay.render_amounts
    (CostDisplay.update_from_gpu
       {| CostDisplay.gpu_price := 0%float; CostDisplay.gpu_count := 2;
          CostDisplay.pod_count := 3 |}
       (Some (Cost.gpu_of_prices 0.5 0x1.999999999999ap-1)) "ALL")
  = inr (Some (1%float, 3%float, 72%float)).
Proof. reflexivity. Qed.

(** ** Preferences of a template: the most recent GPU type first *)

Module PreferencesFacts.
Import Preferences.

Lemma lookup_store_same (k : string) (v : TemplatePrefs.t) (d : dict) :
  lookup k (store k v d) = Some v.
Proof.
  induction d as [ | [k' v'] d IH]; simpl.
  - now rewrite String.eqb_refl.
  - destruct (String.eqb k k') eqn:E; simpl.
    + now rewrite String.eqb_refl.
    + now rewrite E.
Qed.

Lemma lookup_store_other (k k' : string) (v : TemplatePrefs.t) (d : dict) :
  k' <> k -> lookup k' (store k v d) = lookup k' d.
Proof.
  intro Hne. apply String.eqb_neq in Hne.
  induction d as [ | [k0 v0] d IH]; simpl.
  - now rewrite Hne.
  - destruct (String.eqb k k0) eqn:E; simpl.
    + apply String.eqb_eq in E. subst k0. now rewrite Hne.
    + now rewrite IH.
Qed.

Lemma store_held (k : string) (v : TemplatePrefs.t) (d : dict) :
  lookup k d = Some v -> store k v d = d.
Proof.
  induction d as [ | [k' v'] d IH]; simpl; [discriminate | ].
  destruct (String.eqb k k') eqn:E.
  - apply String.eqb_eq in E. subst k'. now intros [= ->].
  - intro H. now rewrite IH.
Qed.

Lemma store_store (k : string) (v1 v2 : TemplatePrefs.t) (d : dict) :
  store k v2 (store k v1 d) = store k v2 d.
Proof.
  induction d as [ | [k' v'] d IH]; simpl.
  - now rewrite String.eqb_refl.
  - destruct (String.eqb k k') eqn:E; simpl.
    + now rewrite String.eqb_refl.
    + now rewrite E, IH.
Qed.

Lemma member_In (x : string) (l : list string) :
  existsb (String.eqb x) l = true <-> In x l.
Proof.
  rewrite existsb_exists. split.
  - intros (y & Hin & E). apply String.eqb_eq in E. now subst y.
  - intro Hin. exists x. split; [exact Hin | apply String.eqb_refl].
Qed.

Lemma remove_first_absent (x : string) (l : list string) :
  ~ In x l -> remove_first x l = l.
Proof.
  induction l as [ | y l IH]; intro Hnot; [reflexivity | ]. simpl.
  destruct (String.eqb_spec x y) as [-> | _].
  - exfalso. apply Hnot. now left.
  - f_equal. apply IH. intro Hin. apply Hnot. now right.
Qed.

Lemma remove_first_In (x y : string) (l : list string) :
  In y (remove_first x l) -> In y l.
Proof.
  induction l as [ | z l IH]; simpl; [tauto | ].
  destruct (String.eqb x z); simpl; tauto.
Qed.

Lemma remove_first_other (x y : string) (l : list string) :
  In y l -> y <> x -> In y (remove_first x l).
Proof.
  intros Hin Hne. induction l as [ | z l IH]; [destruct Hin | ]. simpl.
  destruct (String.eqb_spec x z) as [-> | _].
  - destruct Hin as [-> | Hin]; [now contradiction Hne | exact Hin].
  - destruct Hin as [-> | Hin]; [now left | right; now apply IH].
Qed.

Lemma remove_first_NoDup (x : string) (l : list string) :
  NoDup l -> NoDup (remove_first x l) /\ ~ In x (remove_first x l).
Proof.
  induction 1 as [ | y l Hy Hl [IH1 IH2]]; simpl.
  - split; [constructor | tauto].
  - destruct (String.eqb_spec x y) as [-> | Hne].
    + now split.
    + split.
      * constructor; [ | exact IH1].
        intro Hin. apply Hy. eapply remove_first_In. exact Hin.
      * intros [E | Hin]; [now apply Hne | now apply IH2].
Qed.

(** The entry of a template after an update. *)
Lemma update_entry (template_id gpu_type_id region : string)
    (gpu_count pod_count : Z) (cloud_type : string) (d : dict) :
  gpu_type_id <> "" ->
  lookup template_id
    (update_template_prefs template_id gpu_type_id region gpu_count
       pod_count cloud_type d)
  = Some
      {| TemplatePrefs.gpu_preferences :=
           gpu_type_id :: remove_first gpu_type_id (preferred template_id d);
         TemplatePrefs.last_region :=
           if String.eqb region ""
           then TemplatePrefs.last_region (entry template_id d) else region;
         TemplatePrefs.last_gpu_count :=
           if gpu_count >? 0 then gpu_count
           else TemplatePrefs.last_gpu_count (entry template_id d);
         TemplatePrefs.last_pod_count :=
           if pod_count >? 0 then pod_count
           else TemplatePrefs.last_pod_count (entry template_id d);
         TemplatePrefs.last_cloud_type :=
           if String.eqb cloud_type ""
           then TemplatePrefs.last_cloud_type (entry template_id d)
           else cloud_type |}
  /\ forall other,
       other <> template_id ->
       lookup other
         (update_template_prefs template_id gpu_type_id region gpu_count
            pod_count cloud_type d) = lookup other d.
Proof.
  intro Hne. apply String.eqb_neq in Hne.
  unfold update_template_prefs, get_template_prefs, preferred, entry.
  rewrite Hne.
  assert (Hprefs : forall l,
            (if existsb (String.eqb gpu_type_id) l
             then remove_first gpu_type_id l else l)
            = remove_first gpu_type_id l).
  { intro l. destruct (existsb (String.eqb gpu_type_id) l) eqn:E;
      [reflexivity | ].
    symmetry. apply remove_first_absent. intro Hin.
    apply member_In in Hin. congruence. }
  destruct (lookup template_id d) as [tp | ] eqn:Hl.
  - split.
    + rewrite lookup_store_same, Hprefs. reflexivity.
    + intros other Ho. now apply lookup_store_other.
  - split.
    + rewrite lookup_store_same. reflexivity.
    + intros other Ho. rewrite !lookup_store_other by exact Ho. reflexivity.
Qed.

(** X23: [update_template_prefs] keeps the GPU types of a template most
    recent first. Given a GPU type, it puts it in front of the
    preferences of the template and takes out its former occurrence: the
    list gains no duplicate, holds the GPU type and the former entries and
    nothing else, the entries of the other templates are untouched, and
    the same update made twice is the update made once. *)
Theorem update_template_prefs_most_recent_first
    (template_id gpu_type_id region : string)
    (gpu_count pod_count : Z) (cloud_type : string) (d : dict) :
  gpu_type_id <> "" ->
  let d' := update_template_prefs template_id gpu_type_id region gpu_count
              pod_count cloud_type d in
  preferred template_id d'
  = gpu_type_id :: remove_first gpu_type_id (preferred template_id d)
  /\ (NoDup (preferred template_id d) -> NoDup (preferred template_id d'))
  /\ (forall x, In x (preferred template_id d')
                <-> x = gpu_type_id \/ In x (preferred template_id d))
  /\ (forall other, other <> template_id -> lookup other d' = lookup other d)
  /\ update_template_prefs template_id gpu_type_id region gpu_count
       pod_count cloud_type d' = d'.
Proof.
  intros Hne d'.
  destruct (update_entry template_id gpu_type_id region gpu_count pod_count
              cloud_type d Hne) as (Hl & Hothers).
  fold d' in Hl, Hothers.
  assert (Hpref : preferred template_id d'
                  = gpu_type_id
                      :: remove_first gpu_type_id (preferred template_id d))
    by (unfold preferred at 1; now rewrite Hl).
  conjs.
  - exact Hpref.
  - intro Hnd. rewrite Hpref.
    destruct (remove_first_NoDup gpu_type_id _ Hnd) as [H1 H2].
    now constructor.
  - intro x. rewrite Hpref. simpl. split.
    + intros [<- | Hin]; [now left | right].
      eapply remove_first_In. exact Hin.
    + intros [-> | Hin]; [now left | ].
      destruct (String.eqb_spec x gpu_type_id) as [-> | Hx]; [now left | ].
      right. now apply remove_first_other.
  - exact Hothers.
  - apply String.eqb_neq in Hne.
    unfold update_template_prefs at 1, get_template_prefs.
    rewrite Hl, Hne.
    cbn [TemplatePrefs.gpu_preferences TemplatePrefs.last_region
           TemplatePrefs.last_gpu_count TemplatePrefs.last_pod_count
           TemplatePrefs.last_cloud_type existsb remove_first].
    rewrite String.eqb_refl. cbn [orb].
    apply store_held. rewrite Hl. f_equal.
    destruct (String.eqb region ""), (gpu_count >? 0), (pod_count >? 0),
      (String.eqb cloud_type ""); reflexivity.
Qed.

Lemma update_template_prefs_witness :
  let d := [("tpl-1",
             {| TemplatePrefs.gpu_preferences := ["NVIDIA A40"; "NVIDIA L4"];
                TemplatePrefs.last_region := ""; TemplatePrefs.last_gpu_count := 1;
                TemplatePrefs.last_pod_count := 1;
                TemplatePrefs.last_cloud_type := "ALL" |})] in
  let d' := update_template_prefs "tpl-1" "NVIDIA L4" "" 2 3 "SECURE" d in
  preferred "tpl-1" d' = ["NVIDIA L4"; "NVIDIA A40"]
  /\ preferred "tpl-1" d'
     = "NVIDIA L4" :: remove_first "NVIDIA L4" (preferred "tpl-1" d)
  /\ (NoDup (preferred "tpl-1" d) -> NoDup (preferred "tpl-1" d'))
  /\ (forall x, In x (preferred "tpl-1" d')
                <-> x = "NVIDIA L4" \/ In x (preferred "tpl-1" d))
  /\ (forall other, other <> "tpl-1" -> lookup other d' = lookup other d)
  /\ update_template_prefs "tpl-1" "NVIDIA L4" "" 2 3 "SECURE" d' = d'.
Proof.
  intros d d'. split; [reflexivity | ].
  apply (update_template_prefs_most_recent_first "tpl-1" "NVIDIA L4" "" 2 3
           "SECURE" d).
  discriminate.
Defined.

End PreferencesFacts.
